(** * Job discussion backend: comment aggregation and ownership-gated handlers

    Shallow embedding of
      - backend/models/commentModel.js       (module [commentModel]),
      - backend/controllers/jobController.js (module [jobController]),
      - the client-side [jobService] built on axios (module [jobService]),
    together with the properties the specification states about them.

    The database is a store of two tables with a schedule of connection
    faults; [async] functions are computations over it that settle with a
    value or a thrown error and log the calls they make.  [jobModel] and
    [userModel], which the controller calls but which are not among the
    sources, are an interface ([Models]). *)

From Stdlib Require Import Floats.
From stdpp Require Import gmap strings list fin_maps sorting pretty.
From Stdlib Require Import ZArith Lia.

Set Warnings "-register-all".

Local Open Scope string_scope.
Local Open Scope Z_scope.
Local Open Scope list_scope.

(** ** JavaScript values

    Request bodies and HTTP payloads are JSON; a member that is missing reads
    as [JUndefined].  Numbers are IEEE doubles. *)

Inductive JsVal : Type :=
| JUndefined
| JNull
| JBool (b : bool)
| JNum (x : float)
| JStr (s : string)
| JArr (xs : list JsVal)
| JObj (fields : list (string * JsVal)).

(** ToBoolean: [undefined], [null], [false], [0], [-0], [NaN] and the empty
    string are falsy; everything else, arrays and objects included, is truthy. *)
Definition truthy (v : JsVal) : bool :=
  match v with
  | JUndefined | JNull => false
  | JBool b => b
  | JNum x => negb (PrimFloat.is_zero x || PrimFloat.is_nan x)
  | JStr s => negb (String.eqb s EmptyString)
  | JArr _ | JObj _ => true
  end.

(** [a || b] *)
Definition jsOr (a b : JsVal) : JsVal := if truthy a then a else b.

(** [Array.isArray] *)
Definition isArray (v : JsVal) : bool :=
  match v with JArr _ => true | _ => false end.

(** Truthiness of a nullable string column ([null] or a string). *)
Definition truthy_id (o : option string) : bool :=
  match o with
  | Some s => negb (String.eqb s EmptyString)
  | None => false
  end.

(** ** Rows and objects *)

(** Creation and update times are instants; [toISOString] renders them and the
    TIMESTAMP column compares them as instants, so they are kept as
    milliseconds since the epoch. *)
Abbreviation Time := Z (only parsing).

(** A row of table "Comments".  The ids are UUIDs in the text the engine
    returns them in, as [uuidv4] makes them. *)
Record CommentRow : Type := mkCommentRow {
  cr_id : string;
  cr_content : JsVal;
  cr_userId : string;
  cr_jobId : string;
  cr_createdAt : Time;
  cr_updatedAt : Time
}.

(** A row of table "Replies". *)
Record ReplyRow : Type := mkReplyRow {
  rr_id : string;
  rr_content : JsVal;
  rr_userId : string;
  rr_commentId : string;
  rr_createdAt : Time;
  rr_updatedAt : Time
}.

(** A row of the LEFT JOIN issued by [findByJobId]: the comment's columns
    ([c.*]) and the six aliased reply columns, all NULL when the comment has
    no reply. *)
Record Row : Type := mkRow {
  r_id : string;
  r_content : JsVal;
  r_userId : string;
  r_jobId : string;
  r_createdAt : Time;
  r_updatedAt : Time;
  r_replyId : option string;
  r_replyContent : option JsVal;
  r_replyUserId : option string;
  r_commentId : option string;
  r_replyCreatedAt : option Time;
  r_replyUpdatedAt : option Time
}.

(** The reply object pushed by the grouping loop. *)
Record Reply : Type := mkReply {
  rp_id : string;
  rp_content : option JsVal;
  rp_userId : option string;
  rp_commentId : option string;
  rp_createdAt : option Time;
  rp_updatedAt : option Time
}.

(** The comment object built by the grouping loop. *)
Record Comment : Type := mkComment {
  c_id : string;
  c_content : JsVal;
  c_userId : string;
  c_jobId : string;
  c_createdAt : Time;
  c_updatedAt : Time;
  c_replies : list Reply
}.

(** ** The grouping loop of [commentModel.findByJobId]

    [commentMap] is a JavaScript [Map]: it iterates in insertion order, so it
    is an association list to which a new key is appended. *)
Module CommentMap.

Definition t := list (string * Comment).

Definition has (k : string) (m : t) : bool :=
  existsb (fun e => String.eqb (fst e) k) m.

Definition get (k : string) (m : t) : option Comment :=
  snd <$> find (fun e => String.eqb (fst e) k) m.

(** Rewrites the value stored under [k], in place. *)
Fixpoint alter (f : Comment -> Comment) (k : string) (m : t) : t :=
  match m with
  | [] => []
  | (k', v) :: m' =>
      if String.eqb k' k then (k', f v) :: m' else (k', v) :: alter f k m'
  end.

(** [Map.prototype.set]: an existing key keeps its position. *)
Definition set (k : string) (v : Comment) (m : t) : t :=
  if has k m then alter (fun _ => v) k m else m ++ [(k, v)].

(** [Array.from(m.values())] *)
Definition values (m : t) : list Comment := map snd m.

End CommentMap.

Definition comment_of_row (row : Row) : Comment :=
  {| c_id := r_id row;
     c_content := r_content row;
     c_userId := r_userId row;
     c_jobId := r_jobId row;
     c_createdAt := r_createdAt row;
     c_updatedAt := r_updatedAt row;
     c_replies := [] |}.

Definition reply_of_row (replyId : string) (row : Row) : Reply :=
  {| rp_id := replyId;
     rp_content := r_replyContent row;
     rp_userId := r_replyUserId row;
     rp_commentId := r_commentId row;
     rp_createdAt := r_replyCreatedAt row;
     rp_updatedAt := r_replyUpdatedAt row |}.

Definition push_reply (x : Reply) (c : Comment) : Comment :=
  {| c_id := c_id c;
     c_content := c_content c;
     c_userId := c_userId c;
     c_jobId := c_jobId c;
     c_createdAt := c_createdAt c;
     c_updatedAt := c_updatedAt c;
     c_replies := c_replies c ++ [x] |}.

(** The body of [result.rows.forEach(row => ...)]. *)
Definition group_step (commentMap : CommentMap.t) (row : Row) : CommentMap.t :=
  let commentId := r_id row in
  let commentMap :=
    if negb (CommentMap.has commentId commentMap)
    then CommentMap.set commentId (comment_of_row row) commentMap
    else commentMap in
  match r_replyId row with
  | Some replyId =>
      if truthy_id (Some replyId) then
        match CommentMap.get commentId commentMap with
        | Some comment =>
            let replyExists :=
              existsb (fun reply => String.eqb (rp_id reply) replyId)
                      (c_replies comment) in
            if negb replyExists
            then CommentMap.alter (push_reply (reply_of_row replyId row))
                                  commentId commentMap
            else commentMap
        | None => commentMap
        end
      else commentMap
  | None => commentMap
  end.

Definition group_rows (rows : list Row) : list Comment :=
  CommentMap.values (fold_left group_step rows []).

(** ** What the grouping computes, stated without the loop

    [first_seen key seen l] keeps the elements of [l] whose key occurs neither
    in [seen] nor earlier in [l]: one element per key, in first-seen order. *)

Definition has_key (k : string) (seen : list string) : bool :=
  existsb (String.eqb k) seen.

Fixpoint first_seen {A : Type} (key : A -> string) (seen : list string)
    (l : list A) : list A :=
  match l with
  | [] => []
  | x :: xs =>
      if has_key (key x) seen then first_seen key seen xs
      else x :: first_seen key (key x :: seen) xs
  end.

(** The reply a row carries, if any. *)
Definition row_reply (row : Row) : option Reply :=
  match r_replyId row with
  | Some replyId =>
      if truthy_id (Some replyId) then Some (reply_of_row replyId row) else None
  | None => None
  end.

(** The replies carried by the rows of comment [commentId], in row order. *)
Definition carried (commentId : string) (rows : list Row) : list Reply :=
  omap (fun row => if String.eqb (r_id row) commentId then row_reply row else None)
       rows.

Definition replies_of (commentId : string) (rows : list Row) : list Reply :=
  first_seen rp_id [] (carried commentId rows).

Definition with_replies (c : Comment) (rs : list Reply) : Comment :=
  {| c_id := c_id c;
     c_content := c_content c;
     c_userId := c_userId c;
     c_jobId := c_jobId c;
     c_createdAt := c_createdAt c;
     c_updatedAt := c_updatedAt c;
     c_replies := rs |}.

Definition grouped_entry (rows : list Row) (row : Row) : Comment :=
  with_replies (comment_of_row row) (replies_of (r_id row) rows).

Definition grouped (rows : list Row) : list Comment :=
  map (grouped_entry rows) (first_seen r_id [] rows).

(** An association list keyed by the comment id of the row it is built from. *)
Definition keyed (F : Row -> Comment) (l : list Row) : CommentMap.t :=
  map (fun row => (r_id row, F row)) l.

(** ** Errors, the persistent store and the effect monad *)

(** A thrown JavaScript error, with the members the handlers read.  What is
    thrown is taken to be an [Error] object, as the database driver's are: a
    rejection with [undefined] or [null], on which [error.message] in a
    [catch] branch would itself throw, is outside the model. *)
Record Error : Type := mkError {
  e_code : option string;
  e_column : option string;
  e_message : string;
  e_detail : option string
}.

Inductive Res (A : Type) : Type :=
| Ok (a : A)
| Thrown (e : Error).
Arguments Ok {A} a.
Arguments Thrown {A} e.

Definition connection_error : Error :=
  mkError None None "connection terminated" None.
Definition undefined_table : Error :=
  mkError (Some "42P01") None "relation does not exist" None.
Definition duplicate_table : Error :=
  mkError (Some "42P07") None "relation already exists" None.
Definition unique_violation : Error :=
  mkError (Some "23505") None "duplicate key value violates unique constraint" None.
Definition foreign_key_violation : Error :=
  mkError (Some "23503") None "violates foreign key constraint" None.
Definition not_null_violation : Error :=
  mkError (Some "23502") (Some "content")
          "null value in column violates not-null constraint" None.

(** Modelled from the spec: the rows kept by [jobModel], which is absent from
    the sources; the fields are those of the data model (specification,
    section 3), [j_userId] being the owner, which the controller reads as
    [job.userId]. *)
Record Job : Type := mkJob {
  j_id : string;
  j_title : JsVal;
  j_description : JsVal;
  j_budget : JsVal;
  j_category : JsVal;
  j_skills : JsVal;
  j_status : JsVal;
  j_userId : string;
  j_createdAt : Time;
  j_updatedAt : Time
}.

(** Modelled from the spec: a row kept by [userModel], absent from the
    sources, with the members the controller reads ([name], [avatar]). *)
Record User : Type := mkUser {
  u_id : string;
  u_name : string;
  u_avatar : option string
}.

(** The relational store behind [db.query].  A table that was never created
    is [None]; tables keep their rows in insertion order.  [faults] schedules
    connection failures: each [db.query] consumes the head, and fails without
    running its statement when the head is [true].  [driver_text v] is the
    text the driver sends for a bound value [v] that is neither a string nor
    [null] or [undefined]: the decimal of a number, 'true' or 'false', the
    JSON of an object. *)
Record World : Type := mkWorld {
  comments : option (list CommentRow);
  replies : option (list ReplyRow);
  jobs : list Job;
  users : list User;
  faults : list bool;
  driver_text : JsVal -> string
}.

Definition set_comments (cs : option (list CommentRow)) (w : World) : World :=
  mkWorld cs (replies w) (jobs w) (users w) (faults w) (driver_text w).
Definition set_replies (rs : option (list ReplyRow)) (w : World) : World :=
  mkWorld (comments w) rs (jobs w) (users w) (faults w) (driver_text w).
Definition set_jobs (js : list Job) (w : World) : World :=
  mkWorld (comments w) (replies w) js (users w) (faults w) (driver_text w).
Definition set_faults (fs : list bool) (w : World) : World :=
  mkWorld (comments w) (replies w) (jobs w) (users w) fs (driver_text w).

Inductive Table : Type := Comments | Replies.

(** The SQL statements [commentModel] sends through [db.query]. *)
Inductive Stmt : Type :=
| TableExists (t : Table)
| CreateTable (t : Table)
| InsertComment (c : CommentRow)
| SelectCommentsWithReplies (jobId : string)
| SelectComment (commentId : string)
| SelectRepliesOf (commentId : string)
| DeleteRepliesOf (commentId : string)
| DeleteComment (commentId : string)
| InsertReply (r : ReplyRow)
| SelectReply (replyId : string)
| DeleteReply (replyId : string).

(** What [jobController.createJob] hands to [jobModel.create]. *)
Record JobData : Type := mkJobData {
  jd_title : JsVal;
  jd_description : JsVal;
  jd_budget : float;
  jd_category : JsVal;
  jd_skills : JsVal;
  jd_userId : string
}.

(** Calls that leave the controller: a query (and whether it failed), or a
    call into [jobModel] or [userModel]. *)
Inductive Call : Type :=
| DbQuery (s : Stmt) (failed : bool)
| JobCreate (d : JobData)
| JobFindById (jobId : string)
| JobUpdate (jobId : string) (updatedData : gmap string JsVal)
| JobDelete (jobId : string)
| UserFindById (userId : option string).

(** Statements and calls that write. *)
Definition stmt_writes (s : Stmt) : bool :=
  match s with
  | CreateTable _ | InsertComment _ | DeleteRepliesOf _ | DeleteComment _
  | InsertReply _ | DeleteReply _ => true
  | TableExists _ | SelectCommentsWithReplies _ | SelectComment _
  | SelectRepliesOf _ | SelectReply _ => false
  end.

Definition call_writes (c : Call) : bool :=
  match c with
  | DbQuery s _ => stmt_writes s
  | JobCreate _ | JobUpdate _ _ | JobDelete _ => true
  | JobFindById _ | UserFindById _ => false
  end.

(** An [async] function: it reads and writes the store, settles with a value
    or a thrown error, and leaves a log of its calls. *)
Definition M (A : Type) : Type := World -> Res A * World * list Call.

Definition ret {A : Type} (a : A) : M A := fun w => (Ok a, w, []).

Definition throw {A : Type} (e : Error) : M A := fun w => (Thrown e, w, []).

Definition bind {A B : Type} (m : M A) (k : A -> M B) : M B :=
  fun w =>
    match m w with
    | (Ok a, w1, l1) =>
        match k a w1 with
        | (r, w2, l2) => (r, w2, l1 ++ l2)
        end
    | (Thrown e, w1, l1) => (Thrown e, w1, l1)
    end.

(** [try { m } catch (error) { h error }] *)
Definition try_catch {A : Type} (m : M A) (h : Error -> M A) : M A :=
  fun w =>
    match m w with
    | (Ok a, w1, l1) => (Ok a, w1, l1)
    | (Thrown e, w1, l1) =>
        match h e w1 with
        | (r, w2, l2) => (r, w2, l1 ++ l2)
        end
    end.

Notation "'let*' x := m 'in' k" := (bind m (fun x => k))
  (at level 10, x name, m at level 100, k at level 200).
Notation "'await' m 'in' k" := (bind m (fun _ => k))
  (at level 10, m at level 100, k at level 200).

(** [await Promise.all(xs.map(f))], the calls taken in list order. *)
Fixpoint mapM {A B : Type} (f : A -> M B) (xs : list A) : M (list B) :=
  match xs with
  | [] => ret []
  | x :: xs' => let* y := f x in let* ys := mapM f xs' in ret (y :: ys)
  end.

(** [db.query]: one scheduled fault is consumed; the statement runs unless the
    connection failed. *)
Definition db_query {A : Type} (s : Stmt) (exec : World -> Res A * World) : M A :=
  fun w =>
    match faults w with
    | true :: rest => (Thrown connection_error, set_faults rest w, [DbQuery s true])
    | false :: rest =>
        match exec (set_faults rest w) with
        | (Ok a, w') => (Ok a, w', [DbQuery s false])
        | (Thrown e, w') => (Thrown e, w', [DbQuery s true])
        end
    | [] =>
        match exec w with
        | (Ok a, w') => (Ok a, w', [DbQuery s false])
        | (Thrown e, w') => (Thrown e, w', [DbQuery s true])
        end
    end.

(** ** The meaning of the statements

    The ORDER BY clauses fix the order only up to ties, so the engine's sort
    is a parameter: [sorter le l] is some arrangement of [l]. *)
Module Sql.
Section Engine.

Variable sorter : forall A : Type, (A -> A -> bool) -> list A -> list A.

Definition present {A : Type} (o : option A) : bool :=
  match o with Some _ => true | None => false end.

(** [SELECT EXISTS (SELECT FROM information_schema.tables ...)] *)
Definition table_exists (t : Table) (w : World) : Res bool * World :=
  (Ok match t with
      | Comments => present (comments w)
      | Replies => present (replies w)
      end, w).

(** [CREATE TABLE]; "Replies" references "Comments". *)
Definition create_table (t : Table) (w : World) : Res unit * World :=
  match t with
  | Comments =>
      match comments w with
      | Some _ => (Thrown duplicate_table, w)
      | None => (Ok tt, set_comments (Some []) w)
      end
  | Replies =>
      match replies w, comments w with
      | Some _, _ => (Thrown duplicate_table, w)
      | None, None => (Thrown undefined_table, w)
      | None, Some _ => (Ok tt, set_replies (Some []) w)
      end
  end.

(** What a column [content TEXT NOT NULL] takes from a bound value: a
    string as it is, NULL from [null] and [undefined], and of any other
    value the text the driver sends. *)
Definition text_of (driver_text : JsVal -> string) (v : JsVal) : option string :=
  match v with
  | JStr s => Some s
  | JUndefined | JNull => None
  | _ => Some (driver_text v)
  end.

Definition stored_comment (text : string) (c : CommentRow) : CommentRow :=
  mkCommentRow (cr_id c) (JStr text) (cr_userId c) (cr_jobId c)
               (cr_createdAt c) (cr_updatedAt c).

Definition stored_reply (text : string) (r : ReplyRow) : ReplyRow :=
  mkReplyRow (rr_id r) (JStr text) (rr_userId r) (rr_commentId r)
             (rr_createdAt r) (rr_updatedAt r).

(** [INSERT INTO "Comments" ... RETURNING *]: the row returned is the row
    stored, whose content is text; a NULL content is refused, and so is an
    id that is stored already, [id] being the primary key.  The tables
    "Users" and "Jobs" that the row references belong to [userModel] and
    [jobModel]: a refusal on their account, like that of an id that is not
    a UUID, is one of the failures that the schedule of faults stands for. *)
Definition insert_comment (c : CommentRow) (w : World) : Res CommentRow * World :=
  match comments w with
  | None => (Thrown undefined_table, w)
  | Some cs =>
      match text_of (driver_text w) (cr_content c) with
      | None => (Thrown not_null_violation, w)
      | Some text =>
          if existsb (fun c' => String.eqb (cr_id c') (cr_id c)) cs
          then (Thrown unique_violation, w)
          else (Ok (stored_comment text c),
                set_comments (Some (cs ++ [stored_comment text c])) w)
      end
  end.

Definition null_row (c : CommentRow) : Row :=
  mkRow (cr_id c) (cr_content c) (cr_userId c) (cr_jobId c)
        (cr_createdAt c) (cr_updatedAt c)
        None None None None None None.

Definition join_row (c : CommentRow) (r : ReplyRow) : Row :=
  mkRow (cr_id c) (cr_content c) (cr_userId c) (cr_jobId c)
        (cr_createdAt c) (cr_updatedAt c)
        (Some (rr_id r)) (Some (rr_content r)) (Some (rr_userId r))
        (Some (rr_commentId r)) (Some (rr_createdAt r)) (Some (rr_updatedAt r)).

(** [c LEFT JOIN "Replies" r ON c.id = r."commentId"] for one comment. *)
Definition left_join_one (rs : list ReplyRow) (c : CommentRow) : list Row :=
  match List.filter (fun r => String.eqb (cr_id c) (rr_commentId r)) rs with
  | [] => [null_row c]
  | r :: matches => map (join_row c) (r :: matches)
  end.

(** [... WHERE c."jobId" = $1], before ordering. *)
Definition left_join (jobId : string) (cs : list CommentRow) (rs : list ReplyRow)
    : list Row :=
  flat_map (left_join_one rs)
           (List.filter (fun c => String.eqb (cr_jobId c) jobId) cs).

(** ASC places NULL last. *)
Definition nulls_last_leb (x y : option Time) : bool :=
  match x, y with
  | Some p, Some q => p <=? q
  | Some _, None => true
  | None, Some _ => false
  | None, None => true
  end.

(** [ORDER BY c."createdAt" DESC, r."createdAt" ASC] *)
Definition row_leb (a b : Row) : bool :=
  (r_createdAt b <? r_createdAt a)
  || ((r_createdAt a =? r_createdAt b)
      && nulls_last_leb (r_replyCreatedAt a) (r_replyCreatedAt b)).

(** [ORDER BY "createdAt" ASC] *)
Definition reply_leb (a b : ReplyRow) : bool :=
  rr_createdAt a <=? rr_createdAt b.

Definition select_comments_with_replies (jobId : string) (w : World)
    : Res (list Row) * World :=
  match comments w, replies w with
  | Some cs, Some rs => (Ok (sorter Row row_leb (left_join jobId cs rs)), w)
  | _, _ => (Thrown undefined_table, w)
  end.

(** [SELECT * FROM "Comments" WHERE id = $1] *)
Definition select_comment (commentId : string) (w : World)
    : Res (list CommentRow) * World :=
  match comments w with
  | None => (Thrown undefined_table, w)
  | Some cs => (Ok (List.filter (fun c => String.eqb (cr_id c) commentId) cs), w)
  end.

(** [SELECT * FROM "Replies" WHERE "commentId" = $1 ORDER BY "createdAt" ASC] *)
Definition select_replies_of (commentId : string) (w : World)
    : Res (list ReplyRow) * World :=
  match replies w with
  | None => (Thrown undefined_table, w)
  | Some rs =>
      (Ok (sorter ReplyRow reply_leb
             (List.filter (fun r => String.eqb (rr_commentId r) commentId) rs)), w)
  end.

(** [DELETE FROM "Replies" WHERE "commentId" = $1] *)
Definition delete_replies_of (commentId : string) (w : World) : Res unit * World :=
  match replies w with
  | None => (Thrown undefined_table, w)
  | Some rs =>
      (Ok tt,
       set_replies
         (Some (List.filter (fun r => negb (String.eqb (rr_commentId r) commentId)) rs))
         w)
  end.

(** [DELETE FROM "Comments" WHERE id = $1]; the foreign key of "Replies" is
    declared ON DELETE CASCADE. *)
Definition delete_comment (commentId : string) (w : World) : Res unit * World :=
  match comments w with
  | None => (Thrown undefined_table, w)
  | Some cs =>
      (Ok tt,
       set_comments
         (Some (List.filter (fun c => negb (String.eqb (cr_id c) commentId)) cs))
         (set_replies
            (List.filter (fun r => negb (String.eqb (rr_commentId r) commentId))
               <$> replies w)
            w))
  end.

(** [INSERT INTO "Replies" ... RETURNING *]; the content is stored as for
    comments, [id] is the primary key and [commentId] references "Comments".
    The reference to "Users" is left to the schedule, as for comments. *)
Definition insert_reply (r : ReplyRow) (w : World) : Res ReplyRow * World :=
  match replies w with
  | None => (Thrown undefined_table, w)
  | Some rs =>
      match text_of (driver_text w) (rr_content r) with
      | None => (Thrown not_null_violation, w)
      | Some text =>
          if existsb (fun r' => String.eqb (rr_id r') (rr_id r)) rs
          then (Thrown unique_violation, w)
          else if existsb (fun c => String.eqb (cr_id c) (rr_commentId r))
                          (default [] (comments w))
          then (Ok (stored_reply text r),
                set_replies (Some (rs ++ [stored_reply text r])) w)
          else (Thrown foreign_key_violation, w)
      end
  end.

(** [SELECT * FROM "Replies" WHERE id = $1] *)
Definition select_reply (replyId : string) (w : World)
    : Res (list ReplyRow) * World :=
  match replies w with
  | None => (Thrown undefined_table, w)
  | Some rs => (Ok (List.filter (fun r => String.eqb (rr_id r) replyId) rs), w)
  end.

(** [DELETE FROM "Replies" WHERE id = $1] *)
Definition delete_reply (replyId : string) (w : World) : Res unit * World :=
  match replies w with
  | None => (Thrown undefined_table, w)
  | Some rs =>
      (Ok tt,
       set_replies
         (Some (List.filter (fun r => negb (String.eqb (rr_id r) replyId)) rs)) w)
  end.

End Engine.
End Sql.

Arguments Sql.text_of : simpl never.

(** The values [commentModel.addReply] binds: the reply data, under the id of
    the comment it is added to. *)
Definition reply_under (commentId : string) (r : ReplyRow) : ReplyRow :=
  mkReplyRow (rr_id r) (rr_content r) (rr_userId r) commentId
             (rr_createdAt r) (rr_updatedAt r).

(** ** backend/models/commentModel.js *)
Module commentModel.
Section Model.

Variable sorter : forall A : Type, (A -> A -> bool) -> list A -> list A.

Definition ensureTable : M unit :=
  try_catch
    (let* tableExists := db_query (TableExists Comments) (Sql.table_exists Comments) in
     if negb tableExists
     then db_query (CreateTable Comments) (Sql.create_table Comments)
     else ret tt)
    (fun error => throw error).

Definition ensureRepliesTable : M unit :=
  try_catch
    (let* tableExists := db_query (TableExists Replies) (Sql.table_exists Replies) in
     if negb tableExists
     then db_query (CreateTable Replies) (Sql.create_table Replies)
     else ret tt)
    (fun error => throw error).

Definition create (commentData : CommentRow) : M CommentRow :=
  try_catch
    (await ensureTable in
     db_query (InsertComment commentData) (Sql.insert_comment commentData))
    (fun error => throw error).

Definition findByJobId (jobId : string) : M (list Comment) :=
  try_catch
    (await ensureTable in
     let* rows := db_query (SelectCommentsWithReplies jobId)
                           (Sql.select_comments_with_replies sorter jobId) in
     ret (group_rows rows))
    (fun error => ret []).

Definition findById (commentId : string) : M (option (CommentRow * list ReplyRow)) :=
  try_catch
    (await ensureTable in
     let* rows := db_query (SelectComment commentId) (Sql.select_comment commentId) in
     match rows with
     | [] => ret None
     | row0 :: _ =>
         let* replyRows := db_query (SelectRepliesOf commentId)
                                    (Sql.select_replies_of sorter commentId) in
         ret (Some (row0, replyRows))
     end)
    (fun error => ret None).

Definition delete (commentId : string) : M bool :=
  try_catch
    (await ensureTable in
     await db_query (DeleteRepliesOf commentId) (Sql.delete_replies_of commentId) in
     await db_query (DeleteComment commentId) (Sql.delete_comment commentId) in
     ret true)
    (fun error => throw error).

Definition addReply (commentId : string) (replyData : ReplyRow) : M ReplyRow :=
  try_catch
    (let row := reply_under commentId replyData in
     await ensureTable in
     await ensureRepliesTable in
     db_query (InsertReply row) (Sql.insert_reply row))
    (fun error => throw error).

Definition findReplyById (replyId : string) : M (option ReplyRow) :=
  try_catch
    (await ensureRepliesTable in
     let* rows := db_query (SelectReply replyId) (Sql.select_reply replyId) in
     match rows with
     | [] => ret None
     | row0 :: _ => ret (Some row0)
     end)
    (fun error => ret None).

Definition deleteReply (replyId : string) : M bool :=
  try_catch
    (await ensureRepliesTable in
     await db_query (DeleteReply replyId) (Sql.delete_reply replyId) in
     ret true)
    (fun error => throw error).

End Model.
End commentModel.

(** ** jobModel and userModel

    The controller calls [jobModel] and [userModel], which are absent from the
    sources: each of their functions may read and write the store and may
    throw, and the controller is verified against any implementation. *)
Class Models : Type := {
  jobModel_create : JobData -> World -> Res Job * World;
  jobModel_findById : string -> World -> Res (option Job) * World;
  jobModel_update : string -> gmap string JsVal -> World -> Res (option Job) * World;
  jobModel_delete : string -> World -> Res unit * World;
  userModel_findById : option string -> World -> Res (option User) * World
}.

(** A call into one of these modules, logged. *)
Definition call {A : Type} (c : Call) (f : World -> Res A * World) : M A :=
  fun w => match f w with (r, w') => (r, w', [c]) end.

(** ** Requests and responses *)

(** [req.params], [req.body], [req.user.userId], and the values [uuidv4()] and
    [new Date()] yield while the request is served. *)
Record Req : Type := mkReq {
  params_jobId : string;
  params_commentId : string;
  params_replyId : string;
  body : gmap string JsVal;
  user_userId : string;
  uuidv4 : string;
  now : Time
}.

(** [const { name } = req.body] *)
Definition field (req : Req) (name : string) : JsVal :=
  default JUndefined (body req !! name).

Record EnrichedReply : Type := mkEnrichedReply {
  er_reply : Reply;
  er_userName : string;
  er_userPhoto : option string
}.

Record EnrichedComment : Type := mkEnrichedComment {
  ec_id : string;
  ec_content : JsVal;
  ec_userId : string;
  ec_jobId : string;
  ec_createdAt : Time;
  ec_updatedAt : Time;
  ec_userName : string;
  ec_userPhoto : option string;
  ec_replies : list EnrichedReply
}.

Inductive Payload : Type :=
| NoPayload
| PJob (job : option Job) (userName : string) (userPhoto : option string)
| PComment (comment : CommentRow) (userName : string) (userPhoto : option string)
| PComments (comments : list EnrichedComment)
| PReply (reply : ReplyRow) (userName : string) (userPhoto : option string).

(** The response envelope. *)
Record Json : Type := mkJson {
  success : bool;
  message : option string;
  payload : Payload;
  error : option string;
  details : option string
}.

Record Response : Type := mkResponse {
  status : Z;
  json : Json
}.

Definition failure (code : Z) (msg : string) : Response :=
  mkResponse code (mkJson false (Some msg) NoPayload None None).

Definition failure_with (code : Z) (msg : string) (e : Error) : Response :=
  mkResponse code (mkJson false (Some msg) NoPayload (Some (e_message e)) None).

(** [user ? user.name : 'Usuario desconocido'] and [user ? user.avatar : null] *)
Definition userName_of (user : option User) : string :=
  match user with Some u => u_name u | None => "Usuario desconocido" end.
Definition userPhoto_of (user : option User) : option string :=
  match user with Some u => u_avatar u | None => None end.

Definition double_quote : string := String (Ascii.ascii_of_nat 34%nat) EmptyString.

(** The calls the controller makes into the two modules. *)
Module jobModel.
Section Calls.

Context `{Models}.

Definition create (d : JobData) : M Job :=
  call (JobCreate d) (jobModel_create d).
Definition findById (jobId : string) : M (option Job) :=
  call (JobFindById jobId) (jobModel_findById jobId).
Definition update (jobId : string) (updatedData : gmap string JsVal)
    : M (option Job) :=
  call (JobUpdate jobId updatedData) (jobModel_update jobId updatedData).
Definition delete (jobId : string) : M unit :=
  call (JobDelete jobId) (jobModel_delete jobId).

End Calls.
End jobModel.

Module userModel.
Section Calls.

Context `{Models}.

Definition findById (userId : option string) : M (option User) :=
  call (UserFindById userId) (userModel_findById userId).

End Calls.
End userModel.

(** ** backend/controllers/jobController.js *)
Module jobController.
Section Controller.

Variable sorter : forall A : Type, (A -> A -> bool) -> list A -> list A.
Context `{Models}.
(** The global [parseFloat]. *)
Variable parseFloat : JsVal -> float.

(** The member [stack] of the 500 answer, present only in development mode,
    is left out. *)
Definition createJob (req : Req) : M Response :=
  try_catch
    (let title := field req "title" in
     let description := field req "description" in
     let budget := field req "budget" in
     let category := field req "category" in
     let skills := field req "skills" in
     let userId := user_userId req in
     if negb (truthy title) || negb (truthy description)
        || negb (truthy budget) || negb (truthy category)
     then ret (failure 400 "Missing required fields (title, description, budget, category)")
     else
       let* job := jobModel.create
                     (mkJobData title description (parseFloat budget) category
                                (if isArray skills then skills else JArr []) userId) in
       let* user := userModel.findById (Some userId) in
       ret (mkResponse 201
              (mkJson true (Some "Job created successfully")
                      (PJob (Some job) (userName_of user) (userPhoto_of user))
                      None None)))
    (fun error =>
       let errorMessage :=
         if bool_decide (e_code error = Some "23502")
         then ("Required field " +:+ double_quote
               +:+ default "undefined" (e_column error)
               +:+ double_quote +:+ " cannot be null")
         else "Error creating job" in
       ret (mkResponse 500
              (mkJson false (Some errorMessage) NoPayload (Some (e_message error))
                      (match e_detail error with
                       | Some d => if String.eqb d EmptyString then None else Some d
                       | None => None
                       end)))).

(** The object assembled from the truthy members of the body. *)
Definition updatedData_of (req : Req) : gmap string JsVal :=
  let title := field req "title" in
  let description := field req "description" in
  let budget := field req "budget" in
  let category := field req "category" in
  let skills := field req "skills" in
  let status := field req "status" in
  let updatedData : gmap string JsVal := ∅ in
  let updatedData := if truthy title then <["title" := title]> updatedData
                     else updatedData in
  let updatedData := if truthy description
                     then <["description" := description]> updatedData
                     else updatedData in
  let updatedData := if truthy budget
                     then <["budget" := JNum (parseFloat budget)]> updatedData
                     else updatedData in
  let updatedData := if truthy category then <["category" := category]> updatedData
                     else updatedData in
  let updatedData := if truthy skills then <["skills" := skills]> updatedData
                     else updatedData in
  let updatedData := if truthy status then <["status" := status]> updatedData
                     else updatedData in
  updatedData.

Definition updateJob (req : Req) : M Response :=
  try_catch
    (let jobId := params_jobId req in
     let userId := user_userId req in
     let* job := jobModel.findById jobId in
     match job with
     | None => ret (failure 404 "Job not found")
     | Some job =>
         if negb (String.eqb (j_userId job) userId)
         then ret (failure 403 "You do not have permission to edit this job")
         else
           let updatedData := updatedData_of req in
           let* updatedJob := jobModel.update jobId updatedData in
           let* user := userModel.findById (Some userId) in
           ret (mkResponse 200
                  (mkJson true (Some "Job updated successfully")
                          (PJob updatedJob (userName_of user) (userPhoto_of user))
                          None None))
     end)
    (fun error => ret (failure_with 500 "Error updating job" error)).

Definition deleteJob (req : Req) : M Response :=
  try_catch
    (let jobId := params_jobId req in
     let userId := user_userId req in
     let* job := jobModel.findById jobId in
     match job with
     | None => ret (failure 404 "Job not found")
     | Some job =>
         if negb (String.eqb (j_userId job) userId)
         then ret (failure 403 "You do not have permission to delete this job")
         else
           await jobModel.delete jobId in
           ret (mkResponse 200
                  (mkJson true (Some "Job deleted successfully") NoPayload None None))
     end)
    (fun error => ret (failure_with 500 "Error deleting job" error)).

Definition addComment (req : Req) : M Response :=
  try_catch
    (let jobId := params_jobId req in
     let content := field req "content" in
     let userId := user_userId req in
     if negb (truthy content)
     then ret (failure 400 "Comment content is required")
     else
       let* job := jobModel.findById jobId in
       match job with
       | None => ret (failure 404 "Job not found")
       | Some _ =>
           let commentId := uuidv4 req in
           let now := now req in
           let comment := mkCommentRow commentId content userId jobId now now in
           let* savedComment := commentModel.create comment in
           let* user := userModel.findById (Some userId) in
           ret (mkResponse 201
                  (mkJson true (Some "Comment added successfully")
                          (PComment savedComment (userName_of user) (userPhoto_of user))
                          None None))
       end)
    (fun error => ret (failure_with 500 "Error adding comment" error)).

Definition enrich_reply (reply : Reply) : M EnrichedReply :=
  let* replyUser := userModel.findById (rp_userId reply) in
  ret (mkEnrichedReply reply (userName_of replyUser) (userPhoto_of replyUser)).

Definition enrich_comment (comment : Comment) : M EnrichedComment :=
  let* user := userModel.findById (Some (c_userId comment)) in
  let* enrichedReplies :=
    match c_replies comment with
    | [] => ret []
    | _ :: _ => mapM enrich_reply (c_replies comment)
    end in
  ret (mkEnrichedComment (c_id comment) (c_content comment) (c_userId comment)
                         (c_jobId comment) (c_createdAt comment) (c_updatedAt comment)
                         (userName_of user) (userPhoto_of user) enrichedReplies).

Definition getComments (req : Req) : M Response :=
  try_catch
    (let jobId := params_jobId req in
     let* job := jobModel.findById jobId in
     match job with
     | None => ret (failure 404 "Job not found")
     | Some _ =>
         let* comments := commentModel.findByJobId sorter jobId in
         let* enrichedComments := mapM enrich_comment comments in
         ret (mkResponse 200
                (mkJson true None (PComments enrichedComments) None None))
     end)
    (fun error => ret (failure_with 500 "Error getting comments" error)).

Definition deleteComment (req : Req) : M Response :=
  try_catch
    (let commentId := params_commentId req in
     let userId := user_userId req in
     let* comment := commentModel.findById sorter commentId in
     match comment with
     | None => ret (failure 404 "Comment not found")
     | Some (comment, _) =>
         if negb (String.eqb (cr_userId comment) userId)
         then ret (failure 403 "You are not authorized to delete this comment")
         else
           await commentModel.delete commentId in
           ret (mkResponse 200
                  (mkJson true (Some "Comment deleted successfully") NoPayload
                          None None))
     end)
    (fun error => ret (failure_with 500 "Error deleting comment" error)).

Definition addReply (req : Req) : M Response :=
  try_catch
    (let commentId := params_commentId req in
     let content := field req "content" in
     let userId := user_userId req in
     if negb (truthy content)
     then ret (failure 400 "Reply content is required")
     else
       let* comment := commentModel.findById sorter commentId in
       match comment with
       | None => ret (failure 404 "Comment not found")
       | Some _ =>
           let replyId := uuidv4 req in
           let now := now req in
           let reply := mkReplyRow replyId content userId commentId now now in
           let* savedReply := commentModel.addReply commentId reply in
           let* user := userModel.findById (Some userId) in
           ret (mkResponse 201
                  (mkJson true (Some "Reply added successfully")
                          (PReply savedReply (userName_of user) (userPhoto_of user))
                          None None))
       end)
    (fun error => ret (failure_with 500 "Error adding reply" error)).

Definition deleteReply (req : Req) : M Response :=
  try_catch
    (let replyId := params_replyId req in
     let userId := user_userId req in
     let* reply := commentModel.findReplyById replyId in
     match reply with
     | None => ret (failure 404 "Reply not found")
     | Some reply =>
         if negb (String.eqb (rr_userId reply) userId)
         then ret (failure 403 "You are not authorized to delete this reply")
         else
           await commentModel.deleteReply replyId in
           ret (mkResponse 200
                  (mkJson true (Some "Reply deleted successfully") NoPayload
                          None None))
     end)
    (fun error => ret (failure_with 500 "Error deleting reply" error)).

End Controller.
End jobController.

(** ** The client-side jobService (lib/jobService) *)
Module jobService.

(** A request made with axios settles by resolving with the response, of
    which only [data] is read, or by rejecting. *)
Inductive Http : Type :=
| Resolved (data : JsVal)
| Rejected (e : Error).

(** What the browser supplies during one call: the outcome of each request,
    [localStorage.getItem('token')] (the token, if any; the call throws where
    the page is denied access to the storage), the decoding
    [JSON.parse(atob(token.split('.')[1]))] (which may throw), [uuidv4()]
    (which throws where the page has no source of random values), and the
    values of [new Date().toISOString()] and [Date.now()]. *)
Record Browser : Type := mkBrowser {
  API_URL : string;
  axios_delete : string -> Http;
  axios_post : string -> JsVal -> Http;
  localStorage_getItem : Res (option string);
  decode_claims : string -> Res JsVal;
  uuidv4 : Res string;
  now_iso : string;
  now_ms : float
}.

Definition type_error : Error :=
  mkError None None "Cannot read properties of undefined" None.

Definition res_bind {A B : Type} (r : Res A) (k : A -> Res B) : Res B :=
  match r with Ok a => k a | Thrown e => Thrown e end.

Definition res_catch {A : Type} (r : Res A) (h : Error -> Res A) : Res A :=
  match r with Ok a => Ok a | Thrown e => h e end.

Definition awaited (h : Http) : Res JsVal :=
  match h with Resolved data => Ok data | Rejected e => Thrown e end.

Fixpoint own_property (name : string) (fields : list (string * JsVal))
    : option JsVal :=
  match fields with
  | [] => None
  | (k, v) :: rest => if String.eqb k name then Some v else own_property name rest
  end.

(** [v.name], for the member names read here (success, comment, userId, name,
    photoURL), which only an object can define: reading a member of
    [undefined] or [null] throws, and any other value yields [undefined]. *)
Definition member (v : JsVal) (name : string) : Res JsVal :=
  match v with
  | JUndefined | JNull => Thrown type_error
  | JObj fields => Ok (default JUndefined (own_property name fields))
  | _ => Ok JUndefined
  end.

(** [v?.name] *)
Definition opt_member (v : JsVal) (name : string) : JsVal :=
  match member v name with Ok x => x | Thrown _ => JUndefined end.

(** [`${API_URL}/comments/${commentId}`] and [`${API_URL}/jobs/${jobId}/comments`] *)
Definition delete_comment_url (env : Browser) (commentId : string) : string :=
  API_URL env +:+ "/comments/" +:+ commentId.

Definition post_comment_url (env : Browser) (jobId : string) : string :=
  API_URL env +:+ "/jobs/" +:+ jobId +:+ "/comments".

(** The token is read for the [Authorization] header before the request is
    made, inside the [try]. *)
Definition deleteComment (env : Browser) (commentId : string) : Res JsVal :=
  res_catch
    (res_bind (localStorage_getItem env) (fun _ =>
     res_bind (awaited (axios_delete env (delete_comment_url env commentId)))
       (fun data =>
          res_bind (member data "success")
            (fun success => Ok (jsOr success (JBool true))))))
    (fun error => Ok (JBool true)).

(** [userInfo], left [null] when there is no token or its decoding throws. *)
Definition userInfo_of (env : Browser) (token : option string) : JsVal :=
  match token with
  | Some token =>
      if truthy (JStr token)
      then match decode_claims env token with
           | Ok claims => claims
           | Thrown _ => JNull
           end
      else JNull
  | None => JNull
  end.

(** The comment built on the client, from the token read and the id drawn. *)
Definition newComment (env : Browser) (token : option string) (id : string)
    (jobId content : string) : JsVal :=
  let userInfo := userInfo_of env token in
  JObj [ ("id", JStr id);
         ("userId", jsOr (opt_member userInfo "userId") (JStr "unknown"));
         ("jobId", JStr jobId);
         ("content", JStr content);
         ("text", JStr content);
         ("createdAt", JStr (now_iso env));
         ("timestamp", JNum (now_ms env));
         ("userName", jsOr (opt_member userInfo "name") (JStr "Usuario"));
         ("userPhoto", jsOr (opt_member userInfo "photoURL") (JStr EmptyString));
         ("replies", JArr []) ].

(** The fallback, which stands twice in the source, after the response and
    in the [catch] branch: [localStorage.getItem('token')], then the object
    whose first member is [uuidv4()].  Neither call is inside a [try] of its
    own, so what it throws leaves the fallback. *)
Definition fabricated (env : Browser) (jobId content : string) : Res JsVal :=
  res_bind (localStorage_getItem env) (fun token =>
  res_bind (uuidv4 env) (fun id =>
  Ok (newComment env token id jobId content))).

(** The token is read for the [Authorization] header before the request is
    made, inside the [try]; what the [catch] branch throws rejects. *)
Definition addComment (env : Browser) (jobId content : string) : Res JsVal :=
  res_catch
    (res_bind (localStorage_getItem env) (fun _ =>
     res_bind
       (awaited (axios_post env (post_comment_url env jobId)
                            (JObj [("content", JStr content)])))
       (fun data =>
          if truthy data
          then res_bind (member data "comment")
                 (fun comment =>
                    if truthy comment then Ok comment
                    else fabricated env jobId content)
          else fabricated env jobId content)))
    (fun error => fabricated env jobId content).

End jobService.

(** ** Vocabulary of the statements *)

(** Some query of the log failed. *)
Definition failed_query (l : list Call) : bool :=
  existsb (fun c => match c with DbQuery _ true => true | _ => false end) l.

(** No call of the log writes. *)
Definition read_only (l : list Call) : bool :=
  forallb (fun c => negb (call_writes c)) l.

(** An engine's sort returns its input rearranged, in the requested order
    whenever the comparison is a total preorder. *)
Definition sorter_permutes
    (sorter : forall A : Type, (A -> A -> bool) -> list A -> list A) : Prop :=
  forall (A : Type) (le : A -> A -> bool) (l : list A), Permutation (sorter A le l) l.

Definition sorter_sorts
    (sorter : forall A : Type, (A -> A -> bool) -> list A -> list A) : Prop :=
  forall (A : Type) (le : A -> A -> bool) (l : list A),
    (forall x y, le x y = true \/ le y x = true) ->
    (forall x y z, le x y = true -> le y z = true -> le x z = true) ->
    StronglySorted (fun x y => le x y = true) (sorter A le l).

(** A stable insertion sort, one admissible engine. *)
Fixpoint insert_sorted {A : Type} (le : A -> A -> bool) (x : A) (l : list A)
    : list A :=
  match l with
  | [] => [x]
  | y :: l' => if le x y then x :: y :: l' else y :: insert_sorted le x l'
  end.

Definition insertion_sort (A : Type) (le : A -> A -> bool) (l : list A) : list A :=
  fold_right (insert_sorted le) [] l.


(** ** A concrete deployment, used to exercise the statements *)

(** Modelled from the spec: [jobModel.update], absent from the sources, as the
    write of the members of [updatedData] onto the stored job (data model of
    the specification, section 3); a member that is not in [updatedData] is
    not written. *)
Definition apply_update (updatedData : gmap string JsVal) (j : Job) : Job :=
  mkJob (j_id j)
        (default (j_title j) (updatedData !! "title"))
        (default (j_description j) (updatedData !! "description"))
        (default (j_budget j) (updatedData !! "budget"))
        (default (j_category j) (updatedData !! "category"))
        (default (j_skills j) (updatedData !! "skills"))
        (default (j_status j) (updatedData !! "status"))
        (j_userId j) (j_createdAt j) (j_updatedAt j).

Definition find_job (jobId : string) (w : World) : option Job :=
  List.find (fun j => String.eqb (j_id j) jobId) (jobs w).

(** Modelled from the spec: [jobModel] and [userModel], absent from the
    sources, as lookups by id in the Jobs and Users tables, the insertion of a
    job, the update above, and the deletion of a job together with its
    comments and their replies (specification, sections 3 and 8). *)
Definition spec_models : Models :=
  {| jobModel_create := fun d w =>
       let job :=
         mkJob ("job-" +:+ pretty (length (jobs w)))
               (jd_title d) (jd_description d) (JNum (jd_budget d))
               (jd_category d) (jd_skills d) (JStr "open") (jd_userId d) 0 0 in
       (Ok job, set_jobs (jobs w ++ [job]) w);
     jobModel_findById := fun jobId w => (Ok (find_job jobId w), w);
     jobModel_update := fun jobId updatedData w =>
       match find_job jobId w with
       | Some j =>
           (Ok (Some (apply_update updatedData j)),
            set_jobs (map (fun x => if String.eqb (j_id x) jobId
                                    then apply_update updatedData x else x)
                          (jobs w)) w)
       | None => (Ok None, w)
       end;
     jobModel_delete := fun jobId w =>
       let kept := List.filter (fun c => negb (String.eqb (cr_jobId c) jobId))
                               (default [] (comments w)) in
       (Ok tt,
        set_jobs (List.filter (fun j => negb (String.eqb (j_id j) jobId)) (jobs w))
          (set_comments (List.filter (fun c => negb (String.eqb (cr_jobId c) jobId))
                           <$> comments w)
             (set_replies
                (List.filter (fun r => existsb (fun c => String.eqb (cr_id c) (rr_commentId r)) kept)
                   <$> replies w)
                w)));
     userModel_findById := fun userId w =>
       (Ok (List.find (fun u => bool_decide (Some (u_id u) = userId)) (users w)), w)
  |}.

(** [parseFloat] on numbers ([NaN] on other values), for the examples. *)
Definition parseFloat_number (v : JsVal) : float :=
  match v with JNum x => x | _ => PrimFloat.nan end.

Definition demo_job : Job :=
  mkJob "job-J" (JStr "Logo") (JStr "Design a logo") (JNum 100%float)
        (JStr "design") (JArr [JStr "svg"]) (JStr "open") "alice" 1 1.

(** The driver of the demo deployments, whose requests bind strings only. *)
Definition demo_text (v : JsVal) : string :=
  match v with
  | JBool true => "true"
  | JBool false => "false"
  | _ => "{}"
  end.

Definition demo_comment : CommentRow :=
  mkCommentRow "c-A" (JStr "Interested") "alice" "job-J" 10 10.

Definition demo_reply : ReplyRow :=
  mkReplyRow "r-1" (JStr "Great") "bob" "c-A" 20 20.

Definition demo_world : World :=
  mkWorld (Some [demo_comment]) (Some [demo_reply]) [demo_job]
          [mkUser "alice" "Alice" None; mkUser "bob" "Bob" (Some "bob.png")] []
          demo_text.

(** A request by [userId] against the demo job, comment and reply. *)
Definition demo_req (userId : string) (fields : list (string * JsVal)) : Req :=
  mkReq "job-J" "c-A" "r-1" (list_to_map fields) userId "c-B" 30.

(** The members of the body that [updateJob] reads, and the value it would
    write for each. *)
Definition updatable : list string :=
  ["title"; "description"; "budget"; "category"; "skills"; "status"].

Definition written_value (parseFloat : JsVal -> float) (name : string) (v : JsVal)
    : JsVal :=
  if String.eqb name "budget" then JNum (parseFloat v) else v.

(** The stored field that a member of [updatedData] is written to. *)
Definition stored (name : string) (j : Job) : JsVal :=
  if String.eqb name "title" then j_title j
  else if String.eqb name "description" then j_description j
  else if String.eqb name "budget" then j_budget j
  else if String.eqb name "category" then j_category j
  else if String.eqb name "skills" then j_skills j
  else if String.eqb name "status" then j_status j
  else JUndefined.

Definition required : list string :=
  ["title"; "description"; "budget"; "category"].

(** The response carries a comment: [response.data && response.data.comment]
    is truthy. *)
Definition carries_comment (h : jobService.Http) : bool :=
  match h with
  | jobService.Resolved data =>
      truthy data && truthy (jobService.opt_member data "comment")
  | jobService.Rejected _ => false
  end.

(** The envelope of the specification, [{ success: boolean, ... }]: the
    member [success] of a response, when it is there, is a boolean. *)
Definition boolean_success (h : jobService.Http) : Prop :=
  match h with
  | jobService.Resolved data =>
      match jobService.member data "success" with
      | Ok (JBool _) | Ok JUndefined | Thrown _ => True
      | Ok _ => False
      end
  | jobService.Rejected _ => True
  end.

(** A browser whose every request fails, with a token that does not decode. *)
Definition offline_browser : jobService.Browser :=
  jobService.mkBrowser "http://localhost:5000/api"
    (fun _ => jobService.Rejected connection_error)
    (fun _ _ => jobService.Rejected connection_error)
    (Ok (Some "not-a-token"))
    (fun _ => Thrown jobService.type_error)
    (Ok "9f1c") "2024-05-01T10:00:00.000Z" 1714557600000%float.

(** [SecurityError], thrown by [localStorage] where access is denied. *)
Definition security_error : Error :=
  mkError None None "The operation is insecure." None.

(** A browser that denies the page its storage, whatever the server would
    answer. *)
Definition private_browser (answer : jobService.Http) : jobService.Browser :=
  jobService.mkBrowser "http://localhost:5000/api"
    (fun _ => answer) (fun _ _ => answer)
    (Thrown security_error)
    (fun _ => Thrown jobService.type_error)
    (Ok "9f1c") "2024-05-01T10:00:00.000Z" 1714557600000%float.

(** A browser that is answered [{ success: "yes" }]. *)
Definition yes_browser : jobService.Browser :=
  jobService.mkBrowser "http://localhost:5000/api"
    (fun _ => jobService.Resolved (JObj [("success", JStr "yes")]))
    (fun _ _ => jobService.Resolved (JObj [("success", JStr "yes")]))
    (Ok None)
    (fun _ => Thrown jobService.type_error)
    (Ok "9f1c") "2024-05-01T10:00:00.000Z" 1714557600000%float.






Definition replies_of_comment (commentId : string) (rs : list ReplyRow)
    : list ReplyRow :=
  List.filter (fun r => String.eqb (rr_commentId r) commentId) rs.

(** The integrity the schema enforces: ids are primary keys, and a reply id,
    being a UUID, is not the empty string. *)
Definition keys_ok (cs : list CommentRow) (rs : list ReplyRow) : Prop :=
  NoDup (map cr_id cs) /\ NoDup (map rr_id rs)
  /\ forall r, In r rs -> rr_id r <> EmptyString.

Definition keys_ok_in (w : World) : Prop :=
  keys_ok (default [] (comments w)) (default [] (replies w)).


(** The object returned for a stored comment with the given replies. *)
Definition comment_object (c : CommentRow) (rs : list Reply) : Comment :=
  mkComment (cr_id c) (cr_content c) (cr_userId c) (cr_jobId c)
            (cr_createdAt c) (cr_updatedAt c) rs.

(** The value an [async] call settled with, and the store it left. *)
Definition value {A : Type} (o : Res A * World * list Call) : Res A := fst (fst o).
Definition world_after {A : Type} (o : Res A * World * list Call) : World :=
  snd (fst o).

(** A deployment with the demo job and no comment yet. *)
Definition fresh_world : World :=
  mkWorld (Some []) (Some []) [demo_job]
          [mkUser "alice" "Alice" None; mkUser "bob" "Bob" (Some "bob.png")] []
          demo_text.

Definition comment_A : CommentRow :=
  mkCommentRow "c-A" (JStr "first") "alice" "job-J" 10 10.
Definition comment_B : CommentRow :=
  mkCommentRow "c-B" (JStr "second") "bob" "job-J" 20 20.
Definition reply_R1 : ReplyRow :=
  mkReplyRow "r-1" (JStr "one") "bob" "c-A" 30 30.
Definition reply_R2 : ReplyRow :=
  mkReplyRow "r-2" (JStr "two") "alice" "c-A" 40 40.


(** A request of the scenario, served at time [t] with fresh id [uuid]. *)
Definition scenario_req (userId commentId content uuid : string) (t : Time) : Req :=
  mkReq "job-J" commentId EmptyString {[ "content" := JStr content ]} userId uuid t.

(** Runs requests one after the other and keeps the last answer. *)
Fixpoint serve (handlers : list (M Response)) (w : World)
    : option Response * World :=
  match handlers with
  | [] => (None, w)
  | h :: rest =>
      match h w with
      | (Ok resp, w', _) =>
          match rest with
          | [] => (Some resp, w')
          | _ :: _ => serve rest w'
          end
      | (Thrown _, w', _) => (None, w')
      end
  end.

(** Ids of the served comments, each with the ids of its replies. *)
Definition served_ids (resp : option Response) : list (string * list string) :=
  match resp with
  | Some r =>
      match payload (json r) with
      | PComments served =>
          map (fun ec => (ec_id ec, map (fun er => rp_id (er_reply er)) (ec_replies ec)))
              served
      | _ => []
      end
  | None => []
  end.

(** One call of [commentModel], or a change of the fault schedule.  The
    comments and replies that may be inserted are restricted by [new_comment]
    and [new_reply]. *)
Inductive step (sorter : forall A : Type, (A -> A -> bool) -> list A -> list A)
    (new_comment : CommentRow -> Prop) (new_reply : ReplyRow -> Prop)
    : World -> World -> Prop :=
| step_create c w :
    new_comment c ->
    step sorter new_comment new_reply w (world_after (commentModel.create c w))
| step_addReply commentId r w :
    new_reply r ->
    step sorter new_comment new_reply w
         (world_after (commentModel.addReply commentId r w))
| step_delete commentId w :
    step sorter new_comment new_reply w
         (world_after (commentModel.delete commentId w))
| step_deleteReply replyId w :
    step sorter new_comment new_reply w
         (world_after (commentModel.deleteReply replyId w))
| step_findByJobId jobId w :
    step sorter new_comment new_reply w
         (world_after (commentModel.findByJobId sorter jobId w))
| step_findById commentId w :
    step sorter new_comment new_reply w
         (world_after (commentModel.findById sorter commentId w))
| step_findReplyById replyId w :
    step sorter new_comment new_reply w
         (world_after (commentModel.findReplyById replyId w))
| step_faults fs w :
    step sorter new_comment new_reply w (set_faults fs w).

(** What may happen to the store after a comment is deleted: any calls of
    [commentModel], except the creation of a comment under the deleted id
    (ids are fresh UUIDs). *)
Definition later (sorter : forall A : Type, (A -> A -> bool) -> list A -> list A)
    (deleted : string) : World -> World -> Prop :=
  rtc (step sorter (fun c => cr_id c <> deleted) (fun _ => True)).

(** The stores a deployment can be in: any calls of [commentModel], the ids
    of replies being UUIDs, hence not empty. *)
Definition reachable (sorter : forall A : Type, (A -> A -> bool) -> list A -> list A)
    : World -> World -> Prop :=
  rtc (step sorter (fun _ => True) (fun r => rr_id r <> EmptyString)).

(** The store holds neither the comment nor a reply to it. *)
Definition gone (deleted : string) (w : World) : Prop :=
  (forall c, In c (default [] (comments w)) -> cr_id c <> deleted)
  /\ (forall r, In r (default [] (replies w)) -> rr_commentId r <> deleted).


(** ** The read handlers of jobController.js: [getAllJobs] and [getJobById] *)

(** A job with the name and photo of its owner, as [getAllJobs] serves it. *)
Record JobWithUser : Type := mkJobWithUser {
  ju_job : Job;
  ju_userName : string;
  ju_userPhoto : option string
}.

(** The envelope of [getAllJobs], whose resource is a list of jobs. *)
Record JobsJson : Type := mkJobsJson {
  jobs_success : bool;
  jobs_message : option string;
  jobs_served : option (list JobWithUser);
  jobs_error : option string
}.

Record JobsResponse : Type := mkJobsResponse {
  jobs_status : Z;
  jobs_json : JobsJson
}.

Module jobController_jobs.
Section Controller.

Context `{Models}.
(** [jobModel.findAll], absent from the sources like the rest of [jobModel]:
    any function of the filter that reads and writes the store and may
    throw.  The log has no entry for it. *)
Variable jobModel_findAll : gmap string JsVal -> World -> Res (list Job) * World.

Definition findAll (filter : gmap string JsVal) : M (list Job) :=
  fun w => match jobModel_findAll filter w with (r, w') => (r, w', []) end.

(** The object [filter], assembled from the truthy members of [req.query]. *)
Definition filter_of (query : gmap string JsVal) : gmap string JsVal :=
  let category := default JUndefined (query !! "category") in
  let search := default JUndefined (query !! "search") in
  let status := default JUndefined (query !! "status") in
  let filter : gmap string JsVal := ∅ in
  let filter := if truthy category then <["category" := category]> filter
                else filter in
  let filter := if truthy status then <["status" := status]> filter
                else filter in
  let filter := if truthy search then <["search" := search]> filter
                else filter in
  filter.

Definition with_user (job : Job) : M JobWithUser :=
  let* user := userModel.findById (Some (j_userId job)) in
  ret (mkJobWithUser job (userName_of user) (userPhoto_of user)).

Definition getAllJobs (query : gmap string JsVal) : M JobsResponse :=
  try_catch
    (let filter := filter_of query in
     let* jobs := findAll filter in
     let* jobsWithUserInfo := mapM with_user jobs in
     ret (mkJobsResponse 200 (mkJobsJson true None (Some jobsWithUserInfo) None)))
    (fun error =>
       ret (mkJobsResponse 500
              (mkJobsJson false (Some "Error getting jobs") None
                          (Some (e_message error))))).

Definition getJobById (req : Req) : M Response :=
  try_catch
    (let jobId := params_jobId req in
     let* job := jobModel.findById jobId in
     match job with
     | None => ret (failure 404 "Job not found")
     | Some job =>
         let* user := userModel.findById (Some (j_userId job)) in
         ret (mkResponse 200
                (mkJson true None
                        (PJob (Some job) (userName_of user) (userPhoto_of user))
                        None None))
     end)
    (fun error => ret (failure_with 500 "Error getting job" error)).

End Controller.
End jobController_jobs.

(** ** More vocabulary *)

(** Referential integrity: every reply is a reply to a stored comment. *)
Definition refs_ok (w : World) : Prop :=
  forall r, In r (default [] (replies w)) ->
    exists c, In c (default [] (comments w)) /\ cr_id c = rr_commentId r.

(** The lookups of [jobModel] and [userModel] are reads: they leave the two
    tables of [commentModel] and the connection as they are. *)
Definition same_tables (w w' : World) : Prop :=
  comments w' = comments w /\ replies w' = replies w /\ faults w' = faults w.

Definition lookups_read `{Models} : Prop :=
  (forall jobId w, same_tables w (snd (jobModel_findById jobId w)))
  /\ (forall userId w, same_tables w (snd (userModel_findById userId w))).

(** The lookup of a user leaves the store as it is. *)
Definition users_read `{Models} : Prop :=
  forall userId w, snd (userModel_findById userId w) = w.


(** The envelope of an answer: the status is one of those the controller
    sends, [success] tells 200 and 201 from the rest, a failure says why in
    [message] and carries no resource, and [error] comes with 500 only. *)
Definition envelope (resp : Response) : Prop :=
  let j := json resp in
  ((status resp = 200 \/ status resp = 201)
   /\ success j = true /\ error j = None)
  \/ ((status resp = 400 \/ status resp = 403 \/ status resp = 404)
      /\ success j = false /\ message j <> None /\ payload j = NoPayload
      /\ error j = None)
  \/ (status resp = 500
      /\ success j = false /\ message j <> None /\ payload j = NoPayload
      /\ error j <> None).

(** The rows of both tables, a missing table having none. *)
Definition rows_of (w : World) : list CommentRow * list ReplyRow :=
  (default [] (comments w), default [] (replies w)).

(** The calls an [async] call made. *)
Definition calls {A : Type} (o : Res A * World * list Call) : list Call := snd o.

(** No call of the log writes, the creation of table "Comments" apart. *)
Definition creates_comments_at_most (l : list Call) : bool :=
  forallb (fun c => match c with
                    | DbQuery (CreateTable Comments) _ => true
                    | _ => negb (call_writes c)
                    end) l.

(** A computation that leaves the rows of both tables as they are and writes
    nothing, the creation of table "Comments" apart. *)
Definition keeps_rows {A : Type} (m : M A) : Prop :=
  forall w, rows_of (world_after (m w)) = rows_of w
            /\ creates_comments_at_most (calls (m w)) = true.

(** The members of the query that [getAllJobs] reads. *)
Definition filterable : list string := ["category"; "status"; "search"].

(** ** The client: requests, and the rest of lib/jobService

    A client-side [async] function settles with a value or a thrown error,
    having sent some requests.  Every request of lib/jobService reads the
    token from the storage for its header, inside the [try] of its function.
    That read is part of the function in [addComment], [addReply],
    [deleteComment], [getJobById], [getUserById], [updateJob] and
    [deleteJob]; for [getAllJobs], [getJobsByUser] and [createJob] the
    request is taken as made. *)

Inductive Request : Type :=
| GET (url : string)
| POST (url : string) (data : JsVal)
| PUT (url : string) (data : JsVal)
| DELETE (url : string).

Definition Sent (A : Type) : Type := (Res A * list Request)%type.

(** A step that sends nothing. *)
Definition settled {A : Type} (r : Res A) : Sent A := (r, []).

(** [await axios.get(url)] and the like: the request is sent and settles with
    the response's [data] or rejects. *)
Definition request (rq : Request) (h : jobService.Http) : Sent JsVal :=
  (jobService.awaited h, [rq]).

Definition and_then {A B : Type} (m : Sent A) (k : A -> Sent B) : Sent B :=
  match m with
  | (Ok a, l) => match k a with (r, l') => (r, l ++ l') end
  | (Thrown e, l) => (Thrown e, l)
  end.

(** [try { m } catch (error) { h error }] *)
Definition catching {A : Type} (m : Sent A) (h : Error -> Sent A) : Sent A :=
  match m with
  | (Ok a, l) => (Ok a, l)
  | (Thrown e, l) => match h e with (r, l') => (r, l ++ l') end
  end.

(** A request whose header carries the token:
    [localStorage.getItem('token')] is evaluated first, and when it throws
    nothing is sent. *)
Definition authorized (token : Res (option string)) (rq : Request)
    (h : jobService.Http) : Sent JsVal :=
  and_then (settled token) (fun _ => request rq h).

(** [new Error(message)] *)
Definition Error_of (message : string) : Error := mkError None None message None.

(** [v === s] and [v === undefined], for a string [s]. *)
Definition is_string (v : JsVal) (s : string) : bool :=
  match v with JStr s' => String.eqb s' s | _ => false end.

Definition is_undefined (v : JsVal) : bool :=
  match v with JUndefined => true | _ => false end.

(** [undefined] or [null]. *)
Definition nullish (v : JsVal) : bool :=
  match v with JUndefined | JNull => true | _ => false end.

(** [{ ...fields, name: v }]: an own property keeps its place and takes the
    new value, a new one comes last. *)
Fixpoint assign (name : string) (v : JsVal) (fields : list (string * JsVal))
    : list (string * JsVal) :=
  match fields with
  | [] => [(name, v)]
  | (k, x) :: rest =>
      if String.eqb k name then (k, v) :: rest else (k, x) :: assign name v rest
  end.

(** [xs.map(f)] and [xs.filter(p)] for callbacks that may throw: the first
    throw ends the traversal. *)
Fixpoint map_from (f : nat -> JsVal -> Res JsVal) (i : nat) (xs : list JsVal)
    : Res (list JsVal) :=
  match xs with
  | [] => Ok []
  | x :: xs' =>
      jobService.res_bind (f i x) (fun y =>
      jobService.res_bind (map_from f (S i) xs') (fun ys => Ok (y :: ys)))
  end.

Fixpoint filter_res (p : JsVal -> Res bool) (xs : list JsVal) : Res (list JsVal) :=
  match xs with
  | [] => Ok []
  | x :: xs' =>
      jobService.res_bind (p x) (fun keep =>
      jobService.res_bind (filter_res p xs') (fun ys =>
      Ok (if keep : bool then x :: ys else ys)))
  end.

(** What the page supplies beyond [jobService.Browser]: the outcome of GET
    and PUT requests, the value [new Date().toISOString()] would yield where
    job number [i] of a response lacks [createdAt] or [updatedAt], the
    characters of a string as separate strings, and [String(v)]. *)
Record Client : Type := mkClient {
  browser : jobService.Browser;
  axios_get : string -> jobService.Http;
  axios_put : string -> JsVal -> jobService.Http;
  created_default : nat -> string;
  updated_default : nat -> string;
  characters : string -> list JsVal;
  String_of : JsVal -> string
}.

(** The own enumerable properties copied by [{ ...v }]. *)
Definition spread (env : Client) (v : JsVal) : list (string * JsVal) :=
  match v with
  | JObj fields => fields
  | JArr xs => imap (fun i x => (pretty i, x)) xs
  | JStr s => imap (fun i c => (pretty i, c)) (characters env s)
  | _ => []
  end.

Module jobService_jobs.

Definition jobs_url (env : Client) : string :=
  jobService.API_URL (browser env) +:+ "/jobs".

Definition job_url (env : Client) (id : string) : string :=
  jobService.API_URL (browser env) +:+ "/jobs/" +:+ id.

Definition replies_url (env : Client) (commentId : string) : string :=
  jobService.API_URL (browser env) +:+ "/comments/" +:+ commentId +:+ "/replies".

(** [{ ...job, createdAt: job.createdAt || now, updatedAt: job.updatedAt || now }] *)
Definition with_dates (env : Client) (i : nat) (job : JsVal) : Res JsVal :=
  jobService.res_bind (jobService.member job "createdAt") (fun createdAt =>
  jobService.res_bind (jobService.member job "updatedAt") (fun updatedAt =>
  Ok (JObj (assign "updatedAt" (jsOr updatedAt (JStr (updated_default env i)))
              (assign "createdAt" (jsOr createdAt (JStr (created_default env i)))
                 (spread env job)))))).

Definition getAllJobs (env : Client) : Sent JsVal :=
  catching
    (and_then (request (GET (jobs_url env)) (axios_get env (jobs_url env)))
       (fun data =>
          settled
            (jobService.res_bind (jobService.member data "success") (fun success =>
             if truthy success then
               jobService.res_bind (jobService.member data "jobs") (fun jobs =>
               if truthy jobs then
                 match jobs with
                 | JArr xs =>
                     jobService.res_bind (map_from (with_dates env) 0 xs)
                       (fun processedJobs => Ok (JArr processedJobs))
                 | _ => Thrown jobService.type_error
                 end
               else Ok (JArr []))
             else Ok (JArr [])))))
    (fun error => settled (Ok (JArr []))).

Definition getJobById (env : Client) (id : string) : Sent JsVal :=
  catching
    (and_then (authorized (jobService.localStorage_getItem (browser env))
                          (GET (job_url env id)) (axios_get env (job_url env id)))
       (fun data =>
          settled
            (jobService.res_bind (jobService.member data "success") (fun success =>
             if truthy success then
               jobService.res_bind (jobService.member data "job") (fun job =>
               if truthy job then with_dates env 0 job else Ok JNull)
             else Ok JNull))))
    (fun error => settled (Ok JNull)).

(** [allJobs.filter(job => job.userId === userId)] *)
Definition by_user (userId : string) (job : JsVal) : Res bool :=
  jobService.res_bind (jobService.member job "userId") (fun owner =>
  Ok (is_string owner userId)).

Definition getJobsByUser (env : Client) (userId : string) : Sent JsVal :=
  catching
    (and_then (getAllJobs env)
       (fun allJobs =>
          settled
            match allJobs with
            | JArr xs =>
                jobService.res_bind (filter_res (by_user userId) xs)
                  (fun mine => Ok (JArr mine))
            | _ => Thrown jobService.type_error
            end))
    (fun error => settled (Thrown error)).

(** [jobData.name] *)
Definition datum (jobData : list (string * JsVal)) (name : string) : JsVal :=
  default JUndefined (jobService.own_property name jobData).

Definition createJob (env : Client) (jobData : list (string * JsVal)) : Sent JsVal :=
  catching
    (if negb (truthy (datum jobData "title"))
        || negb (truthy (datum jobData "description"))
        || negb (truthy (datum jobData "category"))
        || is_undefined (datum jobData "budget")
     then settled (Thrown (Error_of "Datos incompletos para crear la propuesta"))
     else
       and_then (request (POST (jobs_url env) (JObj jobData))
                         (jobService.axios_post (browser env) (jobs_url env)
                                                (JObj jobData)))
         (fun data =>
            settled
              (jobService.res_bind (jobService.member data "success")
                 (fun success =>
                    if truthy success then jobService.member data "job"
                    else
                      jobService.res_bind (jobService.member data "message")
                        (fun message =>
                           Thrown (Error_of
                                     (String_of env
                                        (jsOr message
                                              (JStr "Error al crear la propuesta")))))))))
    (fun error => settled (Thrown error)).

Definition updateJob (env : Client) (id : string) (jobData : list (string * JsVal))
    : Sent JsVal :=
  catching
    (if negb (truthy (JStr id))
     then settled (Thrown (Error_of "ID de la propuesta no proporcionado"))
     else
       and_then (authorized (jobService.localStorage_getItem (browser env))
                            (PUT (job_url env id) (JObj jobData))
                            (axios_put env (job_url env id) (JObj jobData)))
         (fun data =>
            settled
              (jobService.res_bind (jobService.member data "success")
                 (fun success =>
                    if truthy success then jobService.member data "job"
                    else Ok JNull))))
    (fun error => settled (Thrown error)).

Definition deleteJob (env : Client) (id : string) : Sent JsVal :=
  catching
    (if negb (truthy (JStr id))
     then settled (Thrown (Error_of "ID de la propuesta no proporcionado"))
     else
       and_then (authorized (jobService.localStorage_getItem (browser env))
                            (DELETE (job_url env id))
                            (jobService.axios_delete (browser env) (job_url env id)))
         (fun data => settled (jobService.member data "success")))
    (fun error => settled (Thrown error)).

(** The reply built on the client, from the token read and the id drawn. *)
Definition newReply (env : Client) (token : option string) (id : string)
    (commentId content : string) : JsVal :=
  let userInfo := jobService.userInfo_of (browser env) token in
  JObj [ ("id", JStr id);
         ("userId", jsOr (jobService.opt_member userInfo "userId") (JStr "unknown"));
         ("commentId", JStr commentId);
         ("content", JStr content);
         ("text", JStr content);
         ("createdAt", JStr (jobService.now_iso (browser env)));
         ("timestamp", JNum (jobService.now_ms (browser env)));
         ("userName", jsOr (jobService.opt_member userInfo "name") (JStr "Usuario"));
         ("userPhoto", jsOr (jobService.opt_member userInfo "photoURL")
                            (JStr EmptyString)) ].

(** The fallback, which stands twice in the source, after the response and
    in the [catch] branch: [localStorage.getItem('token')], then the object
    whose first member is [uuidv4()], neither inside a [try] of its own. *)
Definition fabricated (env : Client) (commentId content : string) : Res JsVal :=
  jobService.res_bind (jobService.localStorage_getItem (browser env)) (fun token =>
  jobService.res_bind (jobService.uuidv4 (browser env)) (fun id =>
  Ok (newReply env token id commentId content))).

(** The token is read for the [Authorization] header before the request is
    made, inside the [try]; what the [catch] branch throws rejects. *)
Definition addReply (env : Client) (commentId content : string) : Sent JsVal :=
  catching
    (and_then (settled (jobService.localStorage_getItem (browser env))) (fun _ =>
     and_then (request (POST (replies_url env commentId)
                             (JObj [("content", JStr content)]))
                       (jobService.axios_post (browser env) (replies_url env commentId)
                                              (JObj [("content", JStr content)])))
       (fun data =>
          settled
            (if truthy data
             then jobService.res_bind (jobService.member data "reply")
                    (fun reply =>
                       if truthy reply then Ok reply
                       else fabricated env commentId content)
             else fabricated env commentId content))))
    (fun error => settled (fabricated env commentId content)).

End jobService_jobs.

Module userService.

Definition user_url (env : Client) (id : string) : string :=
  jobService.API_URL (browser env) +:+ "/users/" +:+ id.

Definition getUserById (env : Client) (id : string) : Sent JsVal :=
  catching
    (and_then (authorized (jobService.localStorage_getItem (browser env))
                          (GET (user_url env id)) (axios_get env (user_url env id)))
       (fun data =>
          settled
            (if truthy data
             then jobService.res_bind (jobService.member data "user")
                    (fun user => if truthy user then Ok user else Ok JNull)
             else Ok JNull)))
    (fun error => settled (Ok JNull)).

End userService.

(** An object that carries both dates. *)
Definition dated (job : JsVal) : bool :=
  match job with
  | JObj fields =>
      truthy (default JUndefined (jobService.own_property "createdAt" fields))
      && truthy (default JUndefined (jobService.own_property "updatedAt" fields))
  | _ => false
  end.


(** A browser that is served two jobs, the second without dates. *)
Definition demo_client : Client :=
  mkClient offline_browser
    (fun _ => jobService.Resolved
                (JObj [("success", JBool true);
                       ("jobs", JArr [JObj [("id", JStr "job-J");
                                            ("userId", JStr "alice");
                                            ("createdAt", JStr "2024-04-01");
                                            ("updatedAt", JStr "2024-04-02")];
                                      JObj [("id", JStr "job-K");
                                            ("userId", JStr "bob")]])]))
    (fun _ _ => jobService.Rejected connection_error)
    (fun _ => "2024-05-01T10:00:00.000Z")
    (fun _ => "2024-05-01T10:00:00.001Z")
    (fun _ => [])
    (fun _ => "[object Object]").

Definition is_object (v : JsVal) : bool :=
  match v with JObj _ => true | _ => false end.

(** The response carries a reply: [response.data && response.data.reply] is
    truthy. *)
Definition carries_reply (h : jobService.Http) : bool :=
  match h with
  | jobService.Resolved data =>
      truthy data && truthy (jobService.opt_member data "reply")
  | jobService.Rejected _ => false
  end.

(** The test [jobService.createJob] makes on the data before it sends them. *)
Definition incomplete (jobData : list (string * JsVal)) : bool :=
  negb (truthy (jobService_jobs.datum jobData "title"))
  || negb (truthy (jobService_jobs.datum jobData "description"))
  || negb (truthy (jobService_jobs.datum jobData "category"))
  || is_undefined (jobService_jobs.datum jobData "budget").

(** ** The services built on [api] (services/api.ts, services/jobService) *)

(** The axios instance [api]: the outcome of each request, by verb and path
    under the base URL. *)
Record Api : Type := mkApi {
  api_get : string -> jobService.Http;
  api_post : string -> JsVal -> jobService.Http;
  api_put : string -> JsVal -> jobService.Http;
  api_delete : string -> jobService.Http
}.

(** [response.data.name || fallback] *)
Definition member_or (data : JsVal) (name : string) (fallback : JsVal) : Res JsVal :=
  jobService.res_bind (jobService.member data name) (fun v => Ok (jsOr v fallback)).

(** [if (response.data && response.data.name) return response.data.name],
    with what happens otherwise. *)
Definition member_if_any (data : JsVal) (name : string) (otherwise : Res JsVal)
    : Res JsVal :=
  if truthy data
  then jobService.res_bind (jobService.member data name)
         (fun v => if truthy v then Ok v else otherwise)
  else otherwise.

(** [try { ... } catch (error) { console.error(...); throw error; }] *)
Definition rethrowing {A : Type} (m : Sent A) : Sent A :=
  catching m (fun error => settled (Thrown error)).

(** services/api.ts *)
Module commentService.

Definition getCommentsByJobId (api : Api) (jobId : string) : Sent JsVal :=
  let url := "/jobs/" +:+ jobId +:+ "/comments" in
  catching
    (and_then (request (GET url) (api_get api url))
       (fun data => settled (member_if_any data "comments" (Ok (JArr [])))))
    (fun error => settled (Ok (JArr []))).

Definition addComment (api : Api) (jobId content : string) : Sent JsVal :=
  let url := "/jobs/" +:+ jobId +:+ "/comments" in
  let sent := JObj [("content", JStr content)] in
  rethrowing
    (and_then (request (POST url sent) (api_post api url sent))
       (fun data =>
          settled (member_if_any data "comment"
                     (Thrown (Error_of "API returned invalid comment format"))))).

Definition updateComment (api : Api) (commentId content : string) : Sent JsVal :=
  let url := "/comments/" +:+ commentId in
  let sent := JObj [("content", JStr content)] in
  rethrowing (request (PUT url sent) (api_put api url sent)).

Definition deleteComment (api : Api) (commentId : string) : Sent JsVal :=
  let url := "/comments/" +:+ commentId in
  rethrowing
    (and_then (request (DELETE url) (api_delete api url))
       (fun _ => settled (Ok JUndefined))).

Definition addReply (api : Api) (commentId content : string) : Sent JsVal :=
  let url := "/comments/" +:+ commentId +:+ "/replies" in
  let sent := JObj [("content", JStr content)] in
  rethrowing
    (and_then (request (POST url sent) (api_post api url sent))
       (fun data =>
          settled (member_if_any data "reply"
                     (Thrown (Error_of "API returned invalid reply format"))))).

Definition updateReply (api : Api) (replyId content : string) : Sent JsVal :=
  let url := "/replies/" +:+ replyId in
  let sent := JObj [("content", JStr content)] in
  rethrowing (request (PUT url sent) (api_put api url sent)).

Definition deleteReply (api : Api) (replyId : string) : Sent JsVal :=
  let url := "/replies/" +:+ replyId in
  rethrowing
    (and_then (request (DELETE url) (api_delete api url))
       (fun _ => settled (Ok JUndefined))).

End commentService.

(** services/jobService *)
Module api_jobService.

Definition getAllJobs (api : Api) : Sent JsVal :=
  catching
    (and_then (request (GET "/jobs") (api_get api "/jobs"))
       (fun data => settled (member_or data "jobs" (JArr []))))
    (fun error => settled (Ok (JArr []))).

Definition getJobById (api : Api) (jobId : string) : Sent JsVal :=
  let url := "/jobs/" +:+ jobId in
  catching
    (and_then (request (GET url) (api_get api url))
       (fun data => settled (member_or data "job" JNull)))
    (fun error => settled (Ok JNull)).

Definition getJobsByUser (api : Api) (userId : string) : Sent JsVal :=
  let url := "/users/" +:+ userId +:+ "/jobs" in
  catching
    (and_then (request (GET url) (api_get api url))
       (fun data => settled (member_or data "jobs" (JArr []))))
    (fun error => settled (Ok (JArr []))).

Definition createJob (api : Api) (jobData : JsVal) : Sent JsVal :=
  rethrowing
    (and_then (request (POST "/jobs" jobData) (api_post api "/jobs" jobData))
       (fun data => settled (jobService.member data "job"))).

Definition updateJob (api : Api) (jobId : string) (jobData : JsVal) : Sent JsVal :=
  let url := "/jobs/" +:+ jobId in
  rethrowing
    (and_then (request (PUT url jobData) (api_put api url jobData))
       (fun data => settled (jobService.member data "job"))).

Definition deleteJob (api : Api) (jobId : string) : Sent JsVal :=
  let url := "/jobs/" +:+ jobId in
  rethrowing
    (and_then (request (DELETE url) (api_delete api url))
       (fun _ => settled (Ok (JBool true)))).

Definition getCommentsByJobId (api : Api) (jobId : string) : Sent JsVal :=
  let url := "/jobs/" +:+ jobId +:+ "/comments" in
  catching
    (and_then (request (GET url) (api_get api url))
       (fun data => settled (member_or data "comments" (JArr []))))
    (fun error => settled (Ok (JArr []))).

Definition addComment (api : Api) (jobId content : string) : Sent JsVal :=
  let url := "/jobs/" +:+ jobId +:+ "/comments" in
  let sent := JObj [("content", JStr content)] in
  rethrowing
    (and_then (request (POST url sent) (api_post api url sent))
       (fun data => settled (jobService.member data "comment"))).

Definition deleteComment (api : Api) (commentId : string) : Sent JsVal :=
  let url := "/jobs/comments/" +:+ commentId in
  rethrowing
    (and_then (request (DELETE url) (api_delete api url))
       (fun _ => settled (Ok (JBool true)))).

Definition addReply (api : Api) (commentId content : string) : Sent JsVal :=
  let url := "/jobs/comments/" +:+ commentId +:+ "/replies" in
  let sent := JObj [("content", JStr content)] in
  rethrowing
    (and_then (request (POST url sent) (api_post api url sent))
       (fun data =>
          settled (member_if_any data "reply"
                     (Thrown (Error_of "No se recibió respuesta válida del servidor"))))).

Definition getRepliesByCommentId (api : Api) (commentId : string) : Sent JsVal :=
  let url := "/jobs/comments/" +:+ commentId +:+ "/replies" in
  catching
    (and_then (request (GET url) (api_get api url))
       (fun data => settled (member_or data "replies" (JArr []))))
    (fun error => settled (Ok (JArr []))).

Definition deleteReply (api : Api) (replyId : string) : Sent JsVal :=
  let url := "/jobs/replies/" +:+ replyId in
  rethrowing
    (and_then (request (DELETE url) (api_delete api url))
       (fun _ => settled (Ok (JBool true)))).

End api_jobService.

(** ** The components and the job context

    The lists they hold are arrays of objects received from the services;
    the updaters passed to [setComments] and [setJobs] are functions of the
    previous list, which throw where the JavaScript would. *)

(** [xs.map(f)] for a callback that may throw. *)
Definition map_res (f : JsVal -> Res JsVal) (xs : list JsVal) : Res (list JsVal) :=
  map_from (fun _ => f) 0 xs.

(** [item => item.id !== id] and [item => item.id === id] *)
Definition id_differs (id : string) (item : JsVal) : Res bool :=
  jobService.res_bind (jobService.member item "id")
    (fun v => Ok (negb (is_string v id))).

Definition id_is (id : string) (item : JsVal) : Res bool :=
  jobService.res_bind (jobService.member item "id") (fun v => Ok (is_string v id)).

(** [list?.filter(item => item.id !== id)] *)
Definition others (id : string) (list : JsVal) : Res JsVal :=
  match list with
  | JUndefined | JNull => Ok JUndefined
  | JArr xs =>
      jobService.res_bind (filter_res (id_differs id) xs) (fun kept => Ok (JArr kept))
  | _ => Thrown jobService.type_error
  end.

(** [[...(list || []), x]]: arrays and strings are iterable. *)
Definition appended (env : Client) (list x : JsVal) : Res JsVal :=
  match jsOr list (JArr []) with
  | JArr xs => Ok (JArr (xs ++ [x]))
  | JStr s => Ok (JArr (characters env s ++ [x]))
  | _ => Thrown jobService.type_error
  end.

(** [comment.id === commentId
       ? { ...comment, replies: [...(comment.replies || []), reply] }
       : comment] *)
Definition with_reply (env : Client) (commentId : string) (reply comment : JsVal)
    : Res JsVal :=
  jobService.res_bind (id_is commentId comment) (fun this =>
  if this : bool then
    jobService.res_bind (jobService.member comment "replies") (fun replies =>
    jobService.res_bind (appended env replies reply) (fun extended =>
    Ok (JObj (assign "replies" extended (spread env comment)))))
  else Ok comment).

(** What a call of the property [onRefresh] does: the requests it sends and,
    if the parent then sets its own list, that list.  ([onRefresh] is taken
    not to throw: [refreshComments], which the page passes, is [async] and
    catches what its body throws.) *)
Definition Refresh : Type := (option JsVal * list Request)%type.

(** components/Comments/CommentsList.  The list it holds starts as the
    property [comments] and follows it: the effect on [initialComments]
    copies every new list the parent passes. *)
Module CommentsList.

(** The updater [prevComments => prevComments?.filter(...)] *)
Definition without (commentId : string) (prevComments : JsVal) : Res JsVal :=
  others commentId prevComments.

(** The updater [prevComments => prevComments?.map(...)] *)
Definition with_new_reply (env : Client) (commentId : string) (newReply : JsVal)
    (prevComments : JsVal) : Res JsVal :=
  match prevComments with
  | JUndefined | JNull => Ok JUndefined
  | JArr xs =>
      jobService.res_bind (map_res (with_reply env commentId newReply) xs)
        (fun ys => Ok (JArr ys))
  | _ => Thrown jobService.type_error
  end.

(** [if (onRefresh) { onRefresh(); }], after the updater was queued: the
    list held once the updater has run and the refresh has settled
    ([Thrown] when the updater throws), and the requests sent. *)
Definition then_refresh (onRefresh : option Refresh) (updated : Res JsVal)
    : Res JsVal * list Request :=
  match onRefresh with
  | Some (Some parents, l) => (jobService.res_bind updated (fun _ => Ok parents), l)
  | Some (None, l) => (updated, l)
  | None => (updated, [])
  end.

Definition handleCommentDelete (onRefresh : option Refresh) (commentId : string)
    (prevComments : JsVal) : Res JsVal * list Request :=
  then_refresh onRefresh (without commentId prevComments).

Definition handleReplyAdded (env : Client) (onRefresh : option Refresh)
    (commentId : string) (newReply : JsVal) (prevComments : JsVal)
    : Res JsVal * list Request :=
  then_refresh onRefresh (with_new_reply env commentId newReply prevComments).

End CommentsList.

(** components/Comments/CommentItem, rendered by [CommentsList] with
    [onDelete={handleCommentDelete}] and [onReplyAdded={handleReplyAdded}].
    [onRefresh] is the property of the [CommentsList] that renders the
    item; [currentUser] is the id of the user signed in, if any; the comment
    comes with its [id] and [userId]; the result is the list [CommentsList]
    holds in the end ([Thrown] when the updater throws), and the requests
    sent. *)
Module CommentItem.

Definition handleDeleteComment (api : Api) (onRefresh : option Refresh)
    (currentUser : option string) (comment_id comment_userId : string)
    (comments : JsVal) : Res JsVal * list Request :=
  match currentUser with
  | None => (Ok comments, [])
  | Some me =>
      if negb (String.eqb me comment_userId) then (Ok comments, [])
      else
        match commentService.deleteComment api comment_id with
        | (Ok _, l) =>
            match CommentsList.handleCommentDelete onRefresh comment_id comments with
            | (list, l') => (list, l ++ l')
            end
        | (Thrown _, l) => (Ok comments, l)
        end
  end.

(** [trim] is [String.prototype.trim]. *)
Definition handleSubmitReply (env : Client) (api : Api) (onRefresh : option Refresh)
    (trim : string -> string) (currentUser : option string)
    (comment_id replyContent : string) (comments : JsVal)
    : Res JsVal * list Request :=
  if negb (truthy (JStr (trim replyContent))) then (Ok comments, [])
  else
    match currentUser with
    | None => (Ok comments, [])
    | Some _ =>
        match commentService.addReply api comment_id replyContent with
        | (Ok newReply, l) =>
            match CommentsList.handleReplyAdded env onRefresh comment_id newReply
                    comments with
            | (list, l') => (list, l ++ l')
            end
        | (Thrown _, l) => (Ok comments, l)
        end
    end.

End CommentItem.

(** contexts/JobContext *)
Module JobContext.

Record State : Type := mkState {
  st_jobs : list JsVal;
  st_userJobs : list JsVal;
  st_filteredJobs : list JsVal
}.

(** [jobs.find(job => job.id === id)] *)
Fixpoint find_res (p : JsVal -> Res bool) (xs : list JsVal) : Res JsVal :=
  match xs with
  | [] => Ok JUndefined
  | x :: xs' =>
      jobService.res_bind (p x) (fun found =>
      if found : bool then Ok x else find_res p xs')
  end.

Definition getJobById (s : State) (id : string) : Res JsVal :=
  find_res (id_is id) (st_jobs s).

(** [job => ({ ...job, comments: job.comments?.filter(c => c.id !== commentId) })] *)
Definition without_comment (env : Client) (commentId : string) (job : JsVal)
    : Res JsVal :=
  jobService.res_bind (jobService.member job "comments") (fun comments =>
  jobService.res_bind (others commentId comments) (fun updatedComments =>
  Ok (JObj (assign "comments" updatedComments (spread env job))))).

(** The state once the updaters queued by the call have run: [Thrown] when
    one of them throws. *)
Definition deleteComment (env : Client) (commentId : string) (s : State)
    : Res State :=
  match jobService.deleteComment (browser env) commentId with
  | Ok _ =>
      jobService.res_bind (map_res (without_comment env commentId) (st_jobs s))
        (fun js => Ok (mkState js (st_userJobs s) (st_filteredJobs s)))
  | Thrown _ => Ok s
  end.

(** [job => job.id === jobId
       ? { ...job, comments: [...(job.comments || []), comment] } : job] *)
Definition with_comment (env : Client) (jobId : string) (comment job : JsVal)
    : Res JsVal :=
  jobService.res_bind (id_is jobId job) (fun this =>
  if this : bool then
    jobService.res_bind (jobService.member job "comments") (fun comments =>
    jobService.res_bind (appended env comments comment) (fun extended =>
    Ok (JObj (assign "comments" extended (spread env job)))))
  else Ok job).

(** The value returned and the state; [currentUser] is the user signed in,
    if any. *)
Definition addComment (env : Client) (currentUser : option JsVal)
    (jobId text : string) (s : State) : JsVal * Res State :=
  match currentUser with
  | None => (JUndefined, Ok s)
  | Some _ =>
      match jobService.addComment (browser env) jobId text with
      | Ok comment =>
          (comment,
           jobService.res_bind (map_res (with_comment env jobId comment) (st_jobs s))
             (fun js => Ok (mkState js (st_userJobs s) (st_filteredJobs s))))
      | Thrown _ => (JUndefined, Ok s)
      end
  end.

(** [prevJobs.filter(job => job.id !== jobId)] on the three lists. *)
Definition without_job (jobId : string) (s : State) : Res State :=
  jobService.res_bind (filter_res (id_differs jobId) (st_jobs s)) (fun js =>
  jobService.res_bind (filter_res (id_differs jobId) (st_userJobs s)) (fun us =>
  jobService.res_bind (filter_res (id_differs jobId) (st_filteredJobs s)) (fun fs =>
  Ok (mkState js us fs)))).

Definition deleteJob (env : Client) (jobId : string) (s : State)
    : Sent JsVal * Res State :=
  match jobService_jobs.deleteJob env jobId with
  | (Ok success, l) =>
      ((Ok success, l), if truthy success then without_job jobId s else Ok s)
  | (Thrown _, l) => ((Ok (JBool false), l), Ok s)
  end.

(** [job => job.id === jobId ? updatedJob : job] *)
Definition replaced (jobId : string) (updatedJob job : JsVal) : Res JsVal :=
  jobService.res_bind (id_is jobId job) (fun this =>
  Ok (if this : bool then updatedJob else job)).

Definition with_job (jobId : string) (updatedJob : JsVal) (s : State) : Res State :=
  jobService.res_bind (map_res (replaced jobId updatedJob) (st_jobs s)) (fun js =>
  jobService.res_bind (map_res (replaced jobId updatedJob) (st_userJobs s)) (fun us =>
  jobService.res_bind (map_res (replaced jobId updatedJob) (st_filteredJobs s))
    (fun fs => Ok (mkState js us fs)))).

Definition updateJob (env : Client) (jobId : string)
    (jobData : list (string * JsVal)) (s : State) : Sent JsVal * Res State :=
  match jobService_jobs.updateJob env jobId jobData with
  | (Ok updatedJob, l) =>
      ((Ok updatedJob, l),
       if truthy updatedJob then with_job jobId updatedJob s else Ok s)
  | (Thrown _, l) => ((Ok JNull, l), Ok s)
  end.

End JobContext.

(** A list the updaters do not throw on: no item is [undefined] or [null]. *)
Definition items (xs : list JsVal) : Prop :=
  Forall (fun x => nullish x = false) xs.

(** The ids of the items of a list held in member [name] of an object. *)
Definition ids_in (name : string) (v : JsVal) : list JsVal :=
  match jobService.opt_member v name with
  | JArr xs => map (fun x => jobService.opt_member x "id") xs
  | _ => []
  end.

(** Member [name] of an object, when there, is an array without [undefined]
    or [null]. *)
Definition holds_items (name : string) (v : JsVal) : Prop :=
  match jobService.opt_member v name with
  | JUndefined | JNull => True
  | JArr xs => items xs
  | _ => False
  end.

(** [x => x.id !== id], where [x] is not [undefined] or [null]. *)
Definition differs (id : string) (x : JsVal) : bool :=
  negb (is_string (jobService.opt_member x "id") id).

(** Four comments of three authors, as [CommentsList] holds them. *)
Definition demo_comments : list JsVal :=
  [ JObj [("id", JStr "c-A"); ("userId", JStr "alice")];
    JObj [("id", JStr "c-B"); ("userId", JStr "bob")];
    JObj [("id", JStr "c-C"); ("userId", JStr "alice");
          ("replies", JArr [JObj [("id", JStr "r-1")]])];
    JObj [("id", JStr "c-D"); ("userId", JStr "carol")] ].

(** A job as the context holds it: an object whose comments, if any, are an
    array without [undefined] or [null]. *)
Definition held_job (job : JsVal) : Prop :=
  is_object job = true /\ holds_items "comments" job.

(** Two objects with the same members, [name] apart. *)
Definition same_but (name : string) (v v' : JsVal) : Prop :=
  forall k, k <> name -> jobService.opt_member v' k = jobService.opt_member v k.

(** Three jobs, the second with two comments. *)
Definition demo_jobs : list JsVal :=
  [ JObj [("id", JStr "job-J"); ("comments", JArr [])];
    JObj [("id", JStr "job-K");
          ("comments", JArr [JObj [("id", JStr "c-A")]; JObj [("id", JStr "c-B")]])];
    JObj [("id", JStr "job-L")] ].

(** [job => job.id === jobId ? updatedJob : job], where [job] is not
    [undefined] or [null]. *)
Definition swap (jobId : string) (updatedJob job : JsVal) : JsVal :=
  if is_string (jobService.opt_member job "id") jobId then updatedJob else job.

(** The three lists of a state, each through [f]. *)
Definition on_lists (f : list JsVal -> list JsVal) (s : JobContext.State)
    : JobContext.State :=
  JobContext.mkState (f (JobContext.st_jobs s)) (f (JobContext.st_userJobs s))
                     (f (JobContext.st_filteredJobs s)).

Definition all_items (s : JobContext.State) : Prop :=
  items (JobContext.st_jobs s) /\ items (JobContext.st_userJobs s)
  /\ items (JobContext.st_filteredJobs s).

(** A browser whose every request is granted, and whose PUT returns the
    second demo job under a new title. *)
Definition obliging_client : Client :=
  mkClient
    (jobService.mkBrowser "http://localhost:5000/api"
       (fun _ => jobService.Resolved (JObj [("success", JBool true)]))
       (fun _ _ => jobService.Resolved (JObj [("success", JBool true)]))
       (Ok None) (fun _ => Thrown jobService.type_error)
       (Ok "9f1c") "2024-05-01T10:00:00.000Z" 1714557600000%float)
    (fun _ => jobService.Resolved (JObj [("success", JBool true)]))
    (fun _ _ => jobService.Resolved
                  (JObj [("success", JBool true);
                         ("job", JObj [("id", JStr "job-K");
                                       ("title", JStr "Renamed")])]))
    (fun _ => "2024-05-01T10:00:00.000Z")
    (fun _ => "2024-05-01T10:00:00.000Z")
    (fun _ => [])
    (fun _ => "[object Object]").

(** The same page and server, in a browser that denies the page its
    storage. *)
Definition private_client : Client :=
  mkClient
    (private_browser (jobService.Resolved (JObj [("success", JBool true)])))
    (axios_get obliging_client) (axios_put obliging_client)
    (created_default obliging_client) (updated_default obliging_client)
    (characters obliging_client) (String_of obliging_client).

(** pages/JobDetail *)
Module JobDetail.

(** [[x, ...(list || [])]] *)
Definition prepended (env : Client) (x list : JsVal) : Res JsVal :=
  match jsOr list (JArr []) with
  | JArr xs => Ok (JArr (x :: xs))
  | JStr s => Ok (JArr (x :: characters env s))
  | _ => Thrown jobService.type_error
  end.

(** [currentUser] and [job] are the ids of the user signed in and of the job
    shown, if any; the result is the list of comments once the updater
    queued by the handler, if any, has run, and the requests sent. *)
Definition handleSubmitComment (env : Client) (api : Api) (trim : string -> string)
    (currentUser job : option string) (commentText : string) (comments : JsVal)
    : Res JsVal * list Request :=
  if negb (truthy (JStr (trim commentText))) then (Ok comments, [])
  else
    match currentUser, job with
    | Some _, Some job_id =>
        match commentService.addComment api job_id commentText with
        | (Ok newComment, l) =>
            if truthy newComment
            then (prepended env newComment comments, l)
            else (Ok comments, l)
        | (Thrown _, l) => (Ok comments, l)
        end
    | _, _ => (Ok comments, [])
    end.

(** [refreshComments], which the page passes to [CommentsList] as
    [onRefresh]; [jobId] is the parameter of the route, if any.  It sets the
    list of the page to [updatedComments || []]. *)
Definition refreshComments (api : Api) (jobId : option string) : Refresh :=
  match jobId with
  | Some id =>
      if negb (truthy (JStr id)) then (None, [])
      else
        match commentService.getCommentsByJobId api id with
        | (Ok updatedComments, l) => (Some (jsOr updatedComments (JArr [])), l)
        | (Thrown _, l) => (None, l)
        end
  | None => (None, [])
  end.

End JobDetail.

(** What the refresh of the page fetches: the truthy [comments] of the
    response, and the empty array when there is none or the request fails. *)
Definition fetched (api : Api) (jobId : string) : JsVal :=
  match api_get api ("/jobs/" +:+ jobId +:+ "/comments") with
  | jobService.Resolved data =>
      if truthy data && truthy (jobService.opt_member data "comments")
      then jobService.opt_member data "comments"
      else JArr []
  | jobService.Rejected _ => JArr []
  end.

(** An [api] that refuses nothing and lists one comment. *)
Definition listing_api : Api :=
  mkApi (fun _ => jobService.Resolved
                    (JObj [("success", JBool true);
                           ("comments", JArr [JObj [("id", JStr "c-B")]])]))
        (fun _ _ => jobService.Resolved (JObj [("success", JBool true)]))
        (fun _ _ => jobService.Resolved (JObj [("success", JBool true)]))
        (fun _ => jobService.Resolved (JObj [("success", JBool true)])).

(** A comment as the page holds it: an object whose replies, if any, are an
    array without [undefined] or [null]. *)
Definition held_comment (comment : JsVal) : Prop :=
  is_object comment = true /\ holds_items "replies" comment.

(** An [api] whose POST returns a comment and a reply. *)
Definition replying_api : Api :=
  mkApi (fun _ => jobService.Resolved (JObj [("success", JBool true)]))
        (fun _ _ => jobService.Resolved
                      (JObj [("success", JBool true);
                             ("comment", JObj [("id", JStr "c-N")]);
                             ("reply", JObj [("id", JStr "r-N")])]))
        (fun _ _ => jobService.Resolved (JObj [("success", JBool true)]))
        (fun _ => jobService.Resolved (JObj [("success", JBool true)])).

(** ** routes/jobRoutes

    The router of the jobs: each route is a method, a path and the member of
    [jobController] named as its handler.  A path is taken as its segments;
    [:name] stands for any segment, and a literal segment is compared without
    regard to case, as Express does by default. *)
Module jobRoutes.

Inductive Method : Type := get | post | put | delete.

Inductive Piece : Type :=
| Lit (s : string)
| Param (name : string).

Record Route : Type := mkRoute {
  method : Method;
  pattern : list Piece;
  handler : string
}.

Definition routes : list Route :=
  [ mkRoute post [] "createJob";
    mkRoute get [] "getAllJobs";
    mkRoute get [Param "jobId"] "getJobById";
    mkRoute put [Param "jobId"] "updateJob";
    mkRoute delete [Param "jobId"] "deleteJob";
    mkRoute post [Param "jobId"; Lit "comments"] "addComment";
    mkRoute get [Param "jobId"; Lit "comments"] "getComments";
    mkRoute delete [Lit "comments"; Param "commentId"] "deleteComment";
    mkRoute post [Lit "comments"; Param "commentId"; Lit "replies"] "addReply";
    mkRoute get [Lit "comments"; Param "commentId"; Lit "replies"]
            "getRepliesByCommentId";
    mkRoute delete [Lit "replies"; Param "replyId"] "deleteReply" ].

(** The members of the object that jobController.js exports. *)
Definition jobController_members : list string :=
  [ "createJob"; "getAllJobs"; "getJobById"; "updateJob"; "deleteJob";
    "addComment"; "getComments"; "deleteComment"; "addReply"; "deleteReply" ].

Definition method_eqb (a b : Method) : bool :=
  match a, b with
  | get, get | post, post | put, put | delete, delete => true
  | _, _ => false
  end.

Definition lower (c : Ascii.ascii) : Ascii.ascii :=
  let n := Ascii.nat_of_ascii c in
  if (65 <=? n)%nat && (n <=? 90)%nat then Ascii.ascii_of_nat (n + 32) else c.

Fixpoint lowered (s : string) : string :=
  match s with
  | EmptyString => EmptyString
  | String c rest => String (lower c) (lowered rest)
  end.

Definition same (literal segment : string) : bool :=
  String.eqb (lowered literal) (lowered segment).

(** The parameters bound when the path matches the pattern; a path is the
    list of its segments, the pieces between the slashes. *)
Fixpoint matches (pattern : list Piece) (path : list string)
    : option (list (string * string)) :=
  match pattern, path with
  | [], [] => Some []
  | Lit s :: pattern', segment :: path' =>
      if same s segment then matches pattern' path' else None
  | Param name :: pattern', segment :: path' =>
      match matches pattern' path' with
      | Some bound => Some ((name, segment) :: bound)
      | None => None
      end
  | _, _ => None
  end.

Definition serves (m : Method) (path : list string) (r : Route) : bool :=
  method_eqb (method r) m && bool_decide (is_Some (matches (pattern r) path)).

(** The first route that matches, as the router tries them in order. *)
Definition dispatch (m : Method) (path : list string) : option Route :=
  List.find (serves m path) routes.

(** [router.METHOD(path, handler)]: Express refuses a handler that is not a
    function, so the module throws at the first route whose handler is not a
    member of the controller, that is, [undefined].  What is thrown is
    Express's own, [refused] of the method here. *)
Fixpoint register (refused : Method -> Error) (members : list string)
    (rs : list Route) : Res (list Route) :=
  match rs with
  | [] => Ok []
  | r :: rs' =>
      if has_key (handler r) members
      then jobService.res_bind (register refused members rs')
                               (fun done => Ok (r :: done))
      else Thrown (refused (method r))
  end.

End jobRoutes.

(** * Properties *)

(** ** JavaScript truthiness *)

Example truthy_examples :
  map truthy [JNum 0%float; JNum (-0)%float; JNum PrimFloat.nan; JStr EmptyString;
              JNull; JUndefined; JBool false]
    = [false; false; false; false; false; false; false]
  /\ map truthy [JNum 1%float; JStr "0"; JArr []; JObj []; JBool true]
    = [true; true; true; true; true].
Proof. split; reflexivity. Qed.

(** ** First-seen selection *)

Lemma has_key_app (k : string) (a b : list string) :
  has_key k (a ++ b) = has_key k a || has_key k b.
Proof. unfold has_key. apply existsb_app. Qed.

Lemma has_key_cons (k a : string) (l : list string) :
  has_key k (a :: l) = String.eqb k a || has_key k l.
Proof. reflexivity. Qed.

Lemma has_key_In (k : string) (l : list string) :
  has_key k l = true <-> In k l.
Proof.
  unfold has_key. rewrite existsb_exists. split.
  - intros (x & Hx & Heq). apply String.eqb_eq in Heq. now subst.
  - intros Hin. exists k. split; [assumption | apply String.eqb_refl].
Qed.

Lemma has_key_existsb {A : Type} (key : A -> string) (k : string) (l : list A) :
  existsb (fun x => String.eqb (key x) k) l = has_key k (map key l).
Proof.
  induction l as [|x l IH]; simpl; [reflexivity|].
  now rewrite IH, String.eqb_sym.
Qed.

Lemma first_seen_snoc {A : Type} (key : A -> string) (l : list A) :
  forall (seen : list string) (x : A),
    first_seen key seen (l ++ [x]) =
    first_seen key seen l ++
      (if has_key (key x) seen || has_key (key x) (map key l) then [] else [x]).
Proof.
  induction l as [|a l IH]; intros seen x; simpl.
  - rewrite orb_false_r. now destruct (has_key (key x) seen).
  - destruct (has_key (key a) seen) eqn:Ha.
    + rewrite IH. f_equal.
      destruct (String.eqb_spec (key x) (key a)) as [Heq|Hne]; simpl; [|reflexivity].
      rewrite Heq, Ha. reflexivity.
    + simpl. rewrite IH. f_equal. f_equal. rewrite !has_key_cons.
      destruct (String.eqb (key x) (key a)), (has_key (key x) seen),
        (has_key (key x) (map key l)); reflexivity.
Qed.

Lemma first_seen_fresh {A : Type} (key : A -> string) (l : list A) :
  forall (seen : list string) (x : A),
    In x (first_seen key seen l) -> has_key (key x) seen = false /\ In x l.
Proof.
  induction l as [|a l IH]; intros seen x Hin; simpl in *; [contradiction|].
  destruct (has_key (key a) seen) eqn:Ha.
  - destruct (IH _ _ Hin). auto.
  - destruct Hin as [<-|Hin]; [auto|].
    destruct (IH _ _ Hin) as [Hf ?]. split; [|auto].
    simpl in Hf. now apply orb_false_elim in Hf.
Qed.

Lemma first_seen_NoDup {A : Type} (key : A -> string) (l : list A) :
  forall seen : list string, NoDup (map key (first_seen key seen l)).
Proof.
  induction l as [|a l IH]; intros seen; simpl; [constructor|].
  destruct (has_key (key a) seen) eqn:Ha; [apply IH|].
  simpl. constructor; [|apply IH].
  rewrite list_elem_of_In, in_map_iff. intros (y & Hy & Hin).
  apply first_seen_fresh in Hin as [Hf _].
  simpl in Hf. rewrite Hy, String.eqb_refl in Hf. discriminate.
Qed.

Lemma first_seen_keys {A : Type} (key : A -> string) (k : string) (l : list A) :
  forall seen : list string,
    has_key k (map key (first_seen key seen l)) || has_key k seen =
    has_key k (map key l) || has_key k seen.
Proof.
  induction l as [|a l IH]; intros seen; simpl; [reflexivity|].
  destruct (has_key (key a) seen) eqn:Ha.
  - rewrite IH. destruct (String.eqb_spec k (key a)) as [->|]; simpl; [|reflexivity].
    rewrite Ha. now rewrite !orb_true_r.
  - simpl. specialize (IH (key a :: seen)). simpl in IH.
    destruct (String.eqb k (key a)); simpl; [reflexivity|]. exact IH.
Qed.

Lemma first_seen_has_key {A : Type} (key : A -> string) (k : string) (l : list A) :
  has_key k (map key (first_seen key [] l)) = has_key k (map key l).
Proof.
  pose proof (first_seen_keys key k l []) as Hk. simpl in Hk.
  now rewrite !orb_false_r in Hk.
Qed.

(** ** The grouping loop computes [grouped] *)

Lemma has_keyed (F : Row -> Comment) (k : string) (l : list Row) :
  CommentMap.has k (keyed F l) = has_key k (map r_id l).
Proof.
  unfold CommentMap.has, keyed. induction l as [|a l IH]; simpl; [reflexivity|].
  now rewrite IH, String.eqb_sym.
Qed.

Lemma get_keyed (F : Row -> Comment) (k : string) (l : list Row) :
  CommentMap.get k (keyed F l) =
  F <$> List.find (fun row => String.eqb (r_id row) k) l.
Proof.
  unfold CommentMap.get, keyed. induction l as [|a l IH]; simpl; [reflexivity|].
  destruct (String.eqb (r_id a) k); [reflexivity | exact IH].
Qed.

Lemma alter_keyed (f : Comment -> Comment) (F : Row -> Comment) (k : string)
    (l : list Row) :
  NoDup (map r_id l) ->
  CommentMap.alter f k (keyed F l) =
  keyed (fun row => if String.eqb (r_id row) k then f (F row) else F row) l.
Proof.
  unfold keyed. induction l as [|a l IH]; intros Hnd; simpl; [reflexivity|].
  inversion Hnd as [|? ? Hnotin Hnd']; subst.
  destruct (String.eqb_spec (r_id a) k) as [Heq|Hne].
  - f_equal. apply map_ext_in. intros row Hin.
    destruct (String.eqb_spec (r_id row) k) as [Heq'|]; [|reflexivity].
    exfalso. apply Hnotin. rewrite list_elem_of_In, in_map_iff.
    exists row. split; [congruence | assumption].
  - f_equal. apply IH, Hnd'.
Qed.

Lemma find_keyed_Some (k : string) (l : list Row) :
  has_key k (map r_id l) = true ->
  exists row0, List.find (fun row => String.eqb (r_id row) k) l = Some row0
               /\ r_id row0 = k.
Proof.
  induction l as [|a l IH]; [discriminate|].
  cbn [map List.find]. rewrite has_key_cons, String.eqb_sym.
  destruct (String.eqb_spec (r_id a) k) as [Heq|Hne]; simpl.
  - intros _. now exists a.
  - exact IH.
Qed.

Lemma carried_snoc (k : string) (rows : list Row) (r : Row) :
  carried k (rows ++ [r]) =
  carried k rows ++
    (if String.eqb (r_id r) k
     then match row_reply r with Some x => [x] | None => [] end
     else []).
Proof.
  unfold carried. rewrite omap_app. f_equal. simpl.
  destruct (String.eqb (r_id r) k); [|reflexivity].
  now destruct (row_reply r).
Qed.

Lemma carried_unseen (k : string) (rows : list Row) :
  has_key k (map r_id rows) = false -> carried k rows = [].
Proof.
  unfold carried. induction rows as [|a rows IH]; [reflexivity|].
  cbn [map omap list_omap]. rewrite has_key_cons. intros Hk. apply orb_false_elim in Hk as [Ha Hk].
  rewrite String.eqb_sym, Ha. simpl. now apply IH.
Qed.

Lemma replies_of_snoc (k : string) (rows : list Row) (r : Row) :
  replies_of k (rows ++ [r]) =
  replies_of k rows ++
    (if String.eqb (r_id r) k
     then match row_reply r with
          | Some x =>
              if has_key (rp_id x) (map rp_id (carried k rows)) then [] else [x]
          | None => []
          end
     else []).
Proof.
  unfold replies_of. rewrite carried_snoc.
  destruct (String.eqb (r_id r) k); [|now rewrite !app_nil_r].
  destruct (row_reply r) as [x|]; [|now rewrite !app_nil_r].
  now rewrite first_seen_snoc.
Qed.

Lemma with_replies_push (c : Comment) (rs : list Reply) (x : Reply) :
  with_replies c (rs ++ [x]) = push_reply x (with_replies c rs).
Proof. reflexivity. Qed.

Lemma grouped_entry_snoc (rows : list Row) (r row : Row) :
  grouped_entry (rows ++ [r]) row =
  if String.eqb (r_id row) (r_id r)
  then match row_reply r with
       | Some x =>
           if has_key (rp_id x) (map rp_id (carried (r_id r) rows))
           then grouped_entry rows row
           else push_reply x (grouped_entry rows row)
       | None => grouped_entry rows row
       end
  else grouped_entry rows row.
Proof.
  unfold grouped_entry. rewrite replies_of_snoc, (String.eqb_sym (r_id r)).
  destruct (String.eqb_spec (r_id row) (r_id r)) as [Heq|Hne];
    [|now rewrite app_nil_r].
  rewrite Heq. destruct (row_reply r) as [x|]; [|now rewrite app_nil_r].
  destruct (has_key _ _); [now rewrite app_nil_r|].
  apply with_replies_push.
Qed.

(** After the first half of the loop body the map holds one entry per comment
    seen so far, the row at hand included. *)
Lemma group_step_entry (rows : list Row) (r : Row) :
  (if negb (CommentMap.has (r_id r) (keyed (grouped_entry rows) (first_seen r_id [] rows)))
   then CommentMap.set (r_id r) (comment_of_row r)
          (keyed (grouped_entry rows) (first_seen r_id [] rows))
   else keyed (grouped_entry rows) (first_seen r_id [] rows)) =
  keyed (grouped_entry rows) (first_seen r_id [] (rows ++ [r])).
Proof.
  rewrite first_seen_snoc. simpl.
  unfold CommentMap.set. rewrite has_keyed, first_seen_has_key.
  destruct (has_key (r_id r) (map r_id rows)) eqn:Hseen; simpl.
  - now rewrite app_nil_r.
  - unfold keyed. rewrite map_app. simpl. f_equal.
    unfold grouped_entry, replies_of. rewrite (carried_unseen _ _ Hseen).
    reflexivity.
Qed.

Lemma row_reply_Some (r : Row) (x : Reply) :
  row_reply r = Some x ->
  exists replyId, r_replyId r = Some replyId
                  /\ truthy_id (Some replyId) = true
                  /\ x = reply_of_row replyId r.
Proof.
  unfold row_reply. destruct (r_replyId r) as [rid|]; [|discriminate].
  destruct (truthy_id (Some rid)) eqn:Ht; [|discriminate].
  intros [= <-]. now exists rid.
Qed.

Lemma group_step_grouped (rows : list Row) (r : Row) :
  group_step (keyed (grouped_entry rows) (first_seen r_id [] rows)) r =
  keyed (grouped_entry (rows ++ [r])) (first_seen r_id [] (rows ++ [r])).
Proof.
  unfold group_step. cbv zeta. rewrite group_step_entry.
  set (L1 := first_seen r_id [] (rows ++ [r])).
  assert (Hnd : NoDup (map r_id L1)) by apply first_seen_NoDup.
  assert (Hin : has_key (r_id r) (map r_id L1) = true).
  { unfold L1. rewrite first_seen_has_key, map_app, has_key_app. simpl.
    rewrite String.eqb_refl. now rewrite orb_true_r. }
  assert (Hext : forall G, (forall row, G row = grouped_entry (rows ++ [r]) row) ->
                   keyed G L1 = keyed (grouped_entry (rows ++ [r])) L1).
  { intros G HG. unfold keyed. apply map_ext. intros row. now rewrite HG. }
  destruct (row_reply r) as [x|] eqn:Hrr.
  - destruct (row_reply_Some _ _ Hrr) as (rid & Hrid & Ht & ->).
    rewrite Hrid, Ht, get_keyed.
    destruct (find_keyed_Some _ _ Hin) as (row0 & Hfind & Hk0).
    rewrite Hfind. simpl.
    rewrite has_key_existsb. unfold replies_of at 1.
    rewrite first_seen_has_key, Hk0.
    destruct (has_key rid (map rp_id (carried (r_id r) rows))) eqn:Hex; simpl.
    + apply Hext. intros row. rewrite grouped_entry_snoc, Hrr. simpl. rewrite Hex.
      now destruct (String.eqb _ _).
    + rewrite (alter_keyed _ _ _ _ Hnd). apply Hext. intros row.
      rewrite grouped_entry_snoc, Hrr. simpl. now rewrite Hex.
  - assert (Hsame : keyed (grouped_entry rows) L1 =
                    keyed (grouped_entry (rows ++ [r])) L1).
    { apply Hext. intros row. rewrite grouped_entry_snoc, Hrr.
      now destruct (String.eqb _ _). }
    unfold row_reply in Hrr. destruct (r_replyId r) as [rid|]; [|exact Hsame].
    destruct (truthy_id (Some rid)); [discriminate | exact Hsame].
Qed.

Lemma fold_group_step (rows : list Row) :
  fold_left group_step rows [] =
  keyed (grouped_entry rows) (first_seen r_id [] rows).
Proof.
  induction rows as [|r rows IH] using rev_ind; [reflexivity|].
  rewrite fold_left_app. simpl. rewrite IH. apply group_step_grouped.
Qed.

Lemma group_rows_grouped (rows : list Row) : group_rows rows = grouped rows.
Proof.
  unfold group_rows, grouped, CommentMap.values. rewrite fold_group_step.
  unfold keyed. rewrite map_map. reflexivity.
Qed.

Lemma grouped_ids (rows : list Row) :
  map c_id (grouped rows) = map r_id (first_seen r_id [] rows).
Proof. unfold grouped. rewrite map_map. reflexivity. Qed.

Lemma grouped_replies (rows : list Row) (c : Comment) :
  In c (grouped rows) -> c_replies c = replies_of (c_id c) rows.
Proof.
  unfold grouped. rewrite in_map_iff. intros (row & <- & _). reflexivity.
Qed.

(** C4: for every row sequence, duplicates included, the loop is one left
    fold over the rows whose result is [grouped rows]: one comment per comment
    id, built from the first row that mentions the id and placed in
    first-seen order, carrying the replies of its rows in first-seen order,
    a reply being attached only if its id is not attached yet.  Hence the
    comment ids are pairwise distinct and are exactly the ids the rows
    mention, and the reply ids of every comment are pairwise distinct. *)
Theorem group_rows_first_seen_distinct (rows : list Row) :
  group_rows rows = CommentMap.values (fold_left group_step rows [])
  /\ group_rows rows = grouped rows
  /\ map c_id (group_rows rows) = map r_id (first_seen r_id [] rows)
  /\ NoDup (map c_id (group_rows rows))
  /\ (forall k, In k (map c_id (group_rows rows)) <-> In k (map r_id rows))
  /\ (forall c, In c (group_rows rows) ->
        c_replies c = first_seen rp_id [] (carried (c_id c) rows)
        /\ NoDup (map rp_id (c_replies c))).
Proof.
  rewrite group_rows_grouped, grouped_ids.
  split; [symmetry; apply group_rows_grouped|].
  split; [reflexivity|]. split; [reflexivity|].
  split; [apply first_seen_NoDup|]. split.
  - intros k. rewrite <- !has_key_In. now rewrite first_seen_has_key.
  - intros c Hc. rewrite (grouped_replies _ _ Hc). split; [reflexivity|].
    apply first_seen_NoDup.
Qed.

(** Two identical joined rows, then a row of another comment, then the first
    comment again with a second reply. *)
Example group_rows_duplicates :
  let row c t r rt :=
    mkRow c (JStr "text") "u" "j" t t (Some r) (Some (JStr "re")) (Some "v")
          (Some c) (Some rt) (Some rt) in
  map (fun c => (c_id c, map rp_id (c_replies c)))
      (group_rows [row "A" 5 "r1" 6; row "A" 5 "r1" 6; row "B" 4 "r3" 9;
                   row "A" 5 "r2" 7])
  = [("A", ["r1"; "r2"]); ("B", ["r3"])].
Proof. reflexivity. Qed.

(** ** The effect monad *)

(** A handler that only rethrows is transparent. *)
Lemma try_catch_rethrow {A : Type} (m : M A) (w : World) :
  try_catch m (fun error => throw error) w = m w.
Proof.
  unfold try_catch, throw. destruct (m w) as [[[a|e] w1] l1]; [reflexivity|].
  now rewrite app_nil_r.
Qed.

Lemma insert_sorted_perm {A : Type} (le : A -> A -> bool) (x : A) (l : list A) :
  Permutation (insert_sorted le x l) (x :: l).
Proof.
  induction l as [|y l IH]; simpl; [reflexivity|].
  destruct (le x y); [reflexivity|].
  rewrite IH. apply perm_swap.
Qed.

Lemma insertion_sort_permutes : sorter_permutes insertion_sort.
Proof.
  intros A le l. unfold insertion_sort.
  induction l as [|x l IH]; simpl; [reflexivity|].
  now rewrite insert_sorted_perm, IH.
Qed.

Lemma insert_sorted_sorted {A : Type} (le : A -> A -> bool) (x : A) (l : list A) :
  (forall x y, le x y = true \/ le y x = true) ->
  (forall x y z, le x y = true -> le y z = true -> le x z = true) ->
  StronglySorted (fun x y => le x y = true) l ->
  StronglySorted (fun x y => le x y = true) (insert_sorted le x l).
Proof.
  intros Htot Htrans. induction l as [|y l IH]; intros Hs; simpl.
  - repeat constructor.
  - inversion Hs as [|? ? Hs' Hall]; subst.
    destruct (le x y) eqn:Hxy.
    + constructor; [assumption|]. constructor; [assumption|].
      eapply Forall_impl; [exact Hall|]. intros z Hz. simpl in Hz. eauto.
    + constructor; [now apply IH|].
      assert (Hyx : le y x = true) by (destruct (Htot x y); congruence).
      rewrite Forall_forall. intros z Hz.
      rewrite list_elem_of_In in Hz.
      apply (Permutation_in _ (insert_sorted_perm le x l)) in Hz.
      destruct Hz as [<-|Hz]; [assumption|].
      rewrite Forall_forall in Hall. apply Hall. now rewrite list_elem_of_In.
Qed.

Lemma insertion_sort_sorts : sorter_sorts insertion_sort.
Proof.
  intros A le l Htot Htrans. unfold insertion_sort.
  induction l as [|x l IH]; simpl; [constructor|].
  now apply insert_sorted_sorted.
Qed.

(** ** Failures of the read path *)

Lemma sorter_nil (sorter : forall A : Type, (A -> A -> bool) -> list A -> list A)
    (A : Type) (le : A -> A -> bool) :
  sorter_permutes sorter -> sorter A le [] = [].
Proof. intros Hperm. apply Permutation_nil. symmetry. apply Hperm. Qed.

(** Unfolds a call of [commentModel] down to the tables. *)
Ltac run_model :=
  unfold commentModel.findByJobId, commentModel.findById, commentModel.delete,
    commentModel.create, commentModel.addReply, commentModel.findReplyById,
    commentModel.deleteReply, commentModel.ensureTable,
    commentModel.ensureRepliesTable,
    try_catch, bind, ret, throw, db_query,
    Sql.table_exists, Sql.create_table, Sql.select_comments_with_replies,
    Sql.select_comment, Sql.select_replies_of, Sql.delete_replies_of,
    Sql.delete_comment, Sql.insert_comment, Sql.insert_reply, Sql.select_reply,
    Sql.delete_reply, Sql.present, set_faults, set_comments, set_replies;
  cbn.

(** Case analysis on the store: which of the first five queries fail, and
    which tables exist. *)
Ltac split_world w :=
  destruct w as [cs rs js us fs dt];
  destruct fs as [|[|] [|[|] [|[|] [|[|] [|[|] fs]]]]];
  destruct cs as [cs|], rs as [rs|].

(** Case analysis on the tests a statement makes on the tables. *)
Ltac branches :=
  repeat match goal with
         | |- context [match Sql.text_of ?w ?v with _ => _ end] =>
             destruct (Sql.text_of w v) eqn:?; cbn
         | |- context [if ?b then _ else _] => destruct b eqn:?; cbn
         | |- context [match List.filter ?f ?l with _ => _ end] =>
             destruct (List.filter f l) eqn:?; cbn
         end.

Lemma findByJobId_total
    (sorter : forall A : Type, (A -> A -> bool) -> list A -> list A)
    (jobId : string) (w : World) :
  exists cs w' l,
    commentModel.findByJobId sorter jobId w = (Ok cs, w', l)
    /\ (failed_query l = true -> cs = []).
Proof.
  destruct w as [cs rs js us fs dt].
  destruct fs as [|[|] [|[|] [|[|] fs]]]; destruct cs as [cs|], rs as [rs|];
    run_model; do 3 eexists; (split; [reflexivity|]); cbn; congruence.
Qed.

(** ** Ownership-gated handlers *)

Section Guards.

Variable sorter : forall A : Type, (A -> A -> bool) -> list A -> list A.
Context `{Models}.
Variable parseFloat : JsVal -> float.





End Guards.

(** ** Loading a comment or a reply writes nothing when it finds one *)

Lemma filter_head {A : Type} (f : A -> bool) (l : list A) (x : A) (rest : list A) :
  List.filter f l = x :: rest -> In x l /\ f x = true.
Proof.
  intros Hf. apply filter_In. rewrite Hf. now left.
Qed.

Lemma findById_Some
    (sorter : forall A : Type, (A -> A -> bool) -> list A -> list A)
    (commentId : string) (w w1 : World) (l1 : list Call)
    (comment : CommentRow) (replyRows : list ReplyRow) :
  commentModel.findById sorter commentId w = (Ok (Some (comment, replyRows)), w1, l1) ->
  read_only l1 = true /\ failed_query l1 = false
  /\ comments w1 = comments w /\ replies w1 = replies w
  /\ jobs w1 = jobs w /\ users w1 = users w
  /\ exists cs, comments w = Some cs /\ In comment cs /\ cr_id comment = commentId.
Proof.
  destruct w as [cs rs js us fs dt].
  destruct fs as [|[|] [|[|] [|[|] fs]]]; destruct cs as [cs|], rs as [rs|];
    run_model; try discriminate;
    try (destruct (List.filter _ cs) as [|row0 rows] eqn:Hf; cbn; try discriminate;
         intros [= <- <- <- <-]; cbn; apply filter_head in Hf as [Hin Heq];
         apply String.eqb_eq in Heq; repeat split; eauto).
Qed.




(** With the tables in place and no fault on the way, the load finds what is
    stored. *)
Lemma findById_healthy
    (sorter : forall A : Type, (A -> A -> bool) -> list A -> list A)
    (commentId : string) (w : World) (cs : list CommentRow) (rs : list ReplyRow)
    (c : CommentRow) (more : list CommentRow) :
  comments w = Some cs -> replies w = Some rs -> faults w = [] ->
  List.filter (fun c' => String.eqb (cr_id c') commentId) cs = c :: more ->
  commentModel.findById sorter commentId w
  = (Ok (Some (c, sorter ReplyRow Sql.reply_leb (replies_of_comment commentId rs))),
     w,
     [DbQuery (TableExists Comments) false; DbQuery (SelectComment commentId) false;
      DbQuery (SelectRepliesOf commentId) false]).
Proof.
  destruct w as [cs0 rs0 js us fs]. cbn. intros -> -> -> Hf.
  run_model. rewrite Hf. reflexivity.
Qed.

Lemma findReplyById_healthy (replyId : string) (w : World) (rs : list ReplyRow)
    (r : ReplyRow) (more : list ReplyRow) :
  replies w = Some rs -> faults w = [] ->
  List.filter (fun r' => String.eqb (rr_id r') replyId) rs = r :: more ->
  commentModel.findReplyById replyId w
  = (Ok (Some r), w,
     [DbQuery (TableExists Replies) false; DbQuery (SelectReply replyId) false]).
Proof.
  destruct w as [cs0 rs0 js us fs]. cbn. intros -> -> Hf.
  run_model. rewrite Hf. reflexivity.
Qed.


Section Ownership.

Variable sorter : forall A : Type, (A -> A -> bool) -> list A -> list A.
Context `{Models}.
Variable parseFloat : JsVal -> float.




End Ownership.



(** ** Validation of job creation *)

Lemma field_missing (req : Req) (name : string) :
  body req !! name = None -> truthy (field req name) = false.
Proof. unfold field. now intros ->. Qed.

Lemma createJob_falsy `{Models} (parseFloat : JsVal -> float) (req : Req) (w : World) :
  truthy (field req "title") && truthy (field req "description")
  && truthy (field req "budget") && truthy (field req "category") = false ->
  jobController.createJob parseFloat req w =
    (Ok (failure 400 "Missing required fields (title, description, budget, category)"),
     w, []).
Proof.
  intros Hf. unfold jobController.createJob, try_catch.
  destruct (truthy (field req "title")), (truthy (field req "description")),
    (truthy (field req "budget")), (truthy (field req "category"));
    try discriminate; reflexivity.
Qed.

(** C5: a job-creation request whose body lacks title, description, budget or
    category is answered 400; the handler makes no call at all, so
    [jobModel.create] is not invoked, and the store is as before. *)
Theorem createJob_missing_field `{Models} (parseFloat : JsVal -> float)
    (req : Req) (w : World) :
  (exists name, In name required /\ body req !! name = None) ->
  jobController.createJob parseFloat req w =
    (Ok (failure 400 "Missing required fields (title, description, budget, category)"),
     w, []).
Proof.
  intros (name & Hin & Hmiss). apply createJob_falsy.
  apply field_missing in Hmiss.
  simpl in Hin. destruct Hin as [<-|[<-|[<-|[<-|[]]]]]; rewrite Hmiss;
    now rewrite ?andb_false_r.
Qed.

(** The scenario of the specification: a job without [budget]. *)
Lemma createJob_missing_field_witness :
  jobController.createJob (H := spec_models) parseFloat_number
    (demo_req "alice" [("title", JStr "Logo"); ("description", JStr "Design a logo");
                       ("category", JStr "design")])
    demo_world =
    (Ok (failure 400 "Missing required fields (title, description, budget, category)"),
     demo_world, []).
Proof.
  apply (createJob_missing_field (H := spec_models)).
  exists "budget". split; [simpl; tauto | reflexivity].
Defined.

(** ** The update object *)

Lemma lookup_cond_insert (b : bool) (name k : string) (v : JsVal)
    (m : gmap string JsVal) :
  (if b then <[name := v]> m else m) !! k =
  if String.eqb name k then (if b then Some v else m !! k) else m !! k.
Proof.
  destruct (String.eqb_spec name k) as [->|Hne]; destruct b; try reflexivity.
  - apply lookup_insert_eq.
  - now apply lookup_insert_ne.
Qed.

Lemma updatedData_lookup (parseFloat : JsVal -> float) (req : Req) (k : string) :
  jobController.updatedData_of parseFloat req !! k =
  if has_key k updatable && truthy (field req k)
  then Some (written_value parseFloat k (field req k))
  else None.
Proof.
  unfold jobController.updatedData_of. cbv zeta.
  rewrite !lookup_cond_insert, lookup_empty.
  unfold updatable, written_value. rewrite !has_key_cons.
  rewrite !(String.eqb_sym k).
  destruct (String.eqb_spec "status" k) as [<-|]; [cbn; now destruct (truthy _)|].
  destruct (String.eqb_spec "skills" k) as [<-|]; [cbn; now destruct (truthy _)|].
  destruct (String.eqb_spec "category" k) as [<-|]; [cbn; now destruct (truthy _)|].
  destruct (String.eqb_spec "budget" k) as [<-|]; [cbn; now destruct (truthy _)|].
  destruct (String.eqb_spec "description" k) as [<-|]; [cbn; now destruct (truthy _)|].
  destruct (String.eqb_spec "title" k) as [<-|]; [cbn; now destruct (truthy _)|].
  reflexivity.
Qed.

Lemma apply_update_stored (updatedData : gmap string JsVal) (j : Job) (k : string) :
  updatedData !! k = None -> stored k (apply_update updatedData j) = stored k j.
Proof.
  intros Hk. unfold stored, apply_update.
  destruct (String.eqb_spec k "title") as [->|]; [cbn; now rewrite Hk|].
  destruct (String.eqb_spec k "description") as [->|]; [cbn; now rewrite Hk|].
  destruct (String.eqb_spec k "budget") as [->|]; [cbn; now rewrite Hk|].
  destruct (String.eqb_spec k "category") as [->|]; [cbn; now rewrite Hk|].
  destruct (String.eqb_spec k "skills") as [->|]; [cbn; now rewrite Hk|].
  destruct (String.eqb_spec k "status") as [->|]; [cbn; now rewrite Hk|].
  reflexivity.
Qed.

(** C10: the update object holds a member exactly when it is one of title,
    description, budget, category, skills, status and its value in the body
    is truthy, so an absent or falsy member is left out and no other member
    is ever passed on; the owner's request hands exactly this object to
    [jobModel.update], the only write of the handler; and an update that
    writes the members of the object leaves every other stored field as it
    was. *)
Theorem updateJob_truthy_fields_only `{Models} (parseFloat : JsVal -> float)
    (req : Req) :
  (forall k,
      jobController.updatedData_of parseFloat req !! k =
      if has_key k updatable && truthy (field req k)
      then Some (written_value parseFloat k (field req k))
      else None)
  /\ (forall w, exists r w' l,
        jobController.updateJob parseFloat req w = (r, w', l)
        /\ forall c, In c l -> call_writes c = true ->
             c = JobUpdate (params_jobId req)
                           (jobController.updatedData_of parseFloat req))
  /\ (forall k job,
        truthy (field req k) = false ->
        stored k (apply_update (jobController.updatedData_of parseFloat req) job)
        = stored k job).
Proof.
  split; [apply updatedData_lookup|]. split.
  - intros w.
    unfold jobController.updateJob, jobModel.findById,
      jobModel.update, userModel.findById,
      try_catch, bind, ret, call.
    destruct (jobModel_findById (params_jobId req) w) as [[[job|]|e] w1]; cbn.
    + destruct (String.eqb (j_userId job) (user_userId req)); cbn.
      * destruct (jobModel_update _ _ w1) as [[updated|e] wm]; cbn;
          [destruct (userModel_findById _ wm) as [[user|e] w2]; cbn|];
          do 3 eexists; (split; [reflexivity|]);
          intros c Hin Hw; cbn in Hin; intuition (subst; try discriminate; auto).
      * do 3 eexists; (split; [reflexivity|]);
          intros c Hin Hw; cbn in Hin; intuition (subst; try discriminate; auto).
    + do 3 eexists; (split; [reflexivity|]);
        intros c Hin Hw; cbn in Hin; intuition (subst; try discriminate; auto).
    + do 3 eexists; (split; [reflexivity|]);
        intros c Hin Hw; cbn in Hin; intuition (subst; try discriminate; auto).
  - intros k job Hf. apply apply_update_stored.
    rewrite updatedData_lookup, Hf. now rewrite andb_false_r.
Qed.

(** An update that sets a new title, an empty description and budget 0. *)
Example updatedData_example :
  let req := demo_req "alice" [("title", JStr "New"); ("description", JStr EmptyString);
                               ("budget", JNum 0%float); ("owner", JStr "bob")] in
  map_to_list (jobController.updatedData_of parseFloat_number req)
  = [("title", JStr "New")].
Proof. vm_compute. reflexivity. Qed.

(** ** The client-side service *)

(** The envelope prescribes a boolean [success]; the service does not check
    it, and hands a truthy [success] on as it is. *)
Lemma deleteComment_passes_success_on :
  jobService.deleteComment yes_browser "c-A" = Ok (JStr "yes")
  /\ JStr "yes" <> JBool true.
Proof. split; [reflexivity | discriminate]. Qed.

(** C8: [jobService.deleteComment] never rejects and its result is truthy for
    every input: it is [true] when the token cannot be read or the request
    fails (the catch branch), and when the response has no truthy [success];
    a truthy [success] of the response is returned as it is, which is [true]
    for the boolean the envelope prescribes.  A failed deletion is therefore
    not observable in the result. *)
Theorem deleteComment_never_fails (env : jobService.Browser) (commentId : string) :
  let outcome := jobService.axios_delete env
                   (jobService.delete_comment_url env commentId) in
  jobService.deleteComment env commentId
  = Ok match jobService.localStorage_getItem env, outcome with
       | Ok _, jobService.Resolved data =>
           jsOr (jobService.opt_member data "success") (JBool true)
       | _, _ => JBool true
       end
  /\ (exists v, jobService.deleteComment env commentId = Ok v /\ truthy v = true)
  /\ ((exists e, jobService.localStorage_getItem env = Thrown e)
      \/ (exists e, outcome = jobService.Rejected e)
      \/ boolean_success outcome ->
      jobService.deleteComment env commentId = Ok (JBool true)).
Proof.
  cbv zeta.
  unfold jobService.deleteComment, jobService.delete_comment_url, boolean_success,
    jobService.opt_member.
  destruct (jobService.localStorage_getItem env) as [token|e0]; cbn.
  - destruct (jobService.axios_delete env _) as [data|e]; cbn.
    + destruct (jobService.member data "success") as [s|e]; cbn.
      * unfold jsOr. destruct (truthy s) eqn:Hs.
        -- split; [reflexivity|]. split; [eauto|].
           intros [[e He]|[[e He]|Hb]]; try discriminate.
           destruct s; try contradiction; cbn in Hs; try discriminate.
           now rewrite Hs.
        -- split; [reflexivity|]. split; [eauto|]. reflexivity.
      * split; [reflexivity|]. split; [eauto|]. reflexivity.
    + split; [reflexivity|]. split; [eauto|]. reflexivity.
  - split; [reflexivity|]. split; [eauto|]. reflexivity.
Qed.

Example deleteComment_offline :
  jobService.deleteComment offline_browser "c-A" = Ok (JBool true)
  /\ jobService.deleteComment
       (private_browser (jobService.Resolved (JObj [("success", JBool false)])))
       "c-A" = Ok (JBool true).
Proof. split; reflexivity. Qed.

Lemma newComment_members (env : jobService.Browser) (token : option string)
    (id jobId content : string) :
  jobService.member (jobService.newComment env token id jobId content) "id"
    = Ok (JStr id)
  /\ jobService.member (jobService.newComment env token id jobId content) "createdAt"
    = Ok (JStr (jobService.now_iso env))
  /\ jobService.member (jobService.newComment env token id jobId content) "timestamp"
    = Ok (JNum (jobService.now_ms env))
  /\ jobService.member (jobService.newComment env token id jobId content) "replies"
    = Ok (JArr []).
Proof. repeat split. Qed.

(** What [jobService.addComment] settles with, case by case. *)
Lemma addComment_cases (env : jobService.Browser) (jobId content : string) :
  jobService.addComment env jobId content
  = match jobService.localStorage_getItem env with
    | Thrown e => Thrown e
    | Ok token =>
        match jobService.axios_post env (jobService.post_comment_url env jobId)
                (JObj [("content", JStr content)]) with
        | jobService.Resolved data =>
            if truthy data && truthy (jobService.opt_member data "comment")
            then Ok (jobService.opt_member data "comment")
            else jobService.res_bind (jobService.uuidv4 env)
                   (fun id => Ok (jobService.newComment env token id jobId content))
        | jobService.Rejected _ =>
            jobService.res_bind (jobService.uuidv4 env)
              (fun id => Ok (jobService.newComment env token id jobId content))
        end
    end.
Proof.
  unfold jobService.addComment, jobService.fabricated, jobService.opt_member.
  destruct (jobService.localStorage_getItem env) as [token|e0]; cbn;
    [|reflexivity].
  destruct (jobService.axios_post env _ _) as [data|e]; cbn.
  - destruct (truthy data) eqn:Hd; cbn.
    + destruct (jobService.member data "comment") as [c|e] eqn:Hm; cbn.
      * destruct (truthy c); cbn; [reflexivity|].
        now destruct (jobService.uuidv4 env).
      * destruct data; cbn in Hd, Hm; discriminate.
    + now destruct (jobService.uuidv4 env).
  - now destruct (jobService.uuidv4 env).
Qed.

(** With the storage denied the fallback throws too, and the call rejects,
    also when the server answered. *)
Lemma addComment_rejects_without_storage :
  jobService.addComment (private_browser (jobService.Rejected connection_error))
    "job-J" "hello" = Thrown security_error
  /\ jobService.addComment
       (private_browser (jobService.Resolved
                           (JObj [("success", JBool true);
                                  ("comment", JObj [("id", JStr "c-N")])])))
       "job-J" "hello" = Thrown security_error.
Proof. split; reflexivity. Qed.

(** C9: [jobService.addComment] rejects only where the browser itself
    fails: when [localStorage.getItem] throws, or when the comment has to be
    built on the client and [uuidv4] throws.  Otherwise it returns the
    server's comment when the response carries one, and whenever the request
    fails or the response carries no comment it returns the comment built on
    the client, whose id is the fresh uuid, whose timestamps are the current
    time and whose replies are empty.  A returned comment therefore does not
    show that the server stored one. *)
Theorem addComment_rejects_only_with_the_browser
    (env : jobService.Browser) (jobId content : string) :
  let outcome := jobService.axios_post env (jobService.post_comment_url env jobId)
                   (JObj [("content", JStr content)]) in
  (forall e, jobService.localStorage_getItem env = Thrown e ->
             jobService.addComment env jobId content = Thrown e)
  /\ (forall token,
        jobService.localStorage_getItem env = Ok token ->
        (carries_comment outcome = true ->
         exists data, outcome = jobService.Resolved data
           /\ jobService.addComment env jobId content
              = Ok (jobService.opt_member data "comment"))
        /\ (carries_comment outcome = false ->
            (forall id, jobService.uuidv4 env = Ok id ->
               jobService.addComment env jobId content
               = Ok (jobService.newComment env token id jobId content))
            /\ (forall e, jobService.uuidv4 env = Thrown e ->
                  jobService.addComment env jobId content = Thrown e)))
  /\ (forall token id,
        jobService.member (jobService.newComment env token id jobId content) "id"
          = Ok (JStr id)
        /\ jobService.member (jobService.newComment env token id jobId content)
             "createdAt" = Ok (JStr (jobService.now_iso env))
        /\ jobService.member (jobService.newComment env token id jobId content)
             "timestamp" = Ok (JNum (jobService.now_ms env))
        /\ jobService.member (jobService.newComment env token id jobId content)
             "replies" = Ok (JArr [])).
Proof.
  cbv zeta. rewrite addComment_cases. unfold carries_comment.
  split; [|split].
  - intros e ->. reflexivity.
  - intros token ->.
    destruct (jobService.axios_post env _ _) as [data|e0].
    + destruct (truthy data && truthy (jobService.opt_member data "comment")).
      * split; [eauto | discriminate].
      * split; [discriminate|]. intros _. split.
        -- now intros id ->.
        -- now intros e ->.
    + split; [discriminate|]. intros _. split.
      * now intros id ->.
      * now intros e ->.
  - intros token id. apply newComment_members.
Qed.

(** With the network down a comment is returned all the same. *)
Example addComment_offline :
  jobService.addComment offline_browser "job-J" "hello"
  = Ok (jobService.newComment offline_browser (Some "not-a-token") "9f1c"
          "job-J" "hello")
  /\ jobService.opt_member
       (jobService.newComment offline_browser (Some "not-a-token") "9f1c"
          "job-J" "hello")
       "userId" = JStr "unknown".
Proof. split; reflexivity. Qed.

(** ** What [findByJobId] returns *)

Lemma filter_none {A : Type} (f : A -> bool) (l : list A) :
  (forall x, In x l -> f x = false) -> List.filter f l = [].
Proof.
  induction l as [|a l IH]; intros Hf; simpl; [reflexivity|].
  rewrite (Hf a) by now left. apply IH. intros x Hx. apply Hf. now right.
Qed.

Lemma left_join_no_comment (jobId : string) (cs : list CommentRow)
    (rs : list ReplyRow) :
  (forall c, In c cs -> cr_jobId c <> jobId) -> Sql.left_join jobId cs rs = [].
Proof.
  intros Hno. unfold Sql.left_join. rewrite filter_none; [reflexivity|].
  intros c Hc. apply String.eqb_neq. now apply Hno.
Qed.

(** With both tables in place and no fault on the way, the result is the
    grouping of the ordered join, after two queries. *)
Lemma findByJobId_healthy
    (sorter : forall A : Type, (A -> A -> bool) -> list A -> list A)
    (jobId : string) (w : World) (cs : list CommentRow) (rs : list ReplyRow) :
  comments w = Some cs -> replies w = Some rs -> faults w = [] ->
  commentModel.findByJobId sorter jobId w =
    (Ok (group_rows (sorter Row Sql.row_leb (Sql.left_join jobId cs rs))), w,
     [DbQuery (TableExists Comments) false;
      DbQuery (SelectCommentsWithReplies jobId) false]).
Proof.
  destruct w as [cs0 rs0 js us fs]. cbn. intros -> -> ->. reflexivity.
Qed.

(** Whatever happens, the result is empty or the grouping of the ordered join
    of the tables as they are. *)
Lemma findByJobId_result
    (sorter : forall A : Type, (A -> A -> bool) -> list A -> list A)
    (jobId : string) (w : World) :
  exists out w' l,
    commentModel.findByJobId sorter jobId w = (Ok out, w', l)
    /\ (out = []
        \/ exists rs, replies w = Some rs
             /\ out = group_rows (sorter Row Sql.row_leb
                                    (Sql.left_join jobId (default [] (comments w)) rs))).
Proof.
  destruct w as [cs rs js us fs dt].
  destruct fs as [|[|] [|[|] [|[|] fs]]]; destruct cs as [cs|], rs as [rs|];
    run_model; do 3 eexists; (split; [reflexivity|]); eauto.
Qed.

(** C3: [commentModel.findByJobId] never throws; as soon as one of its
    queries fails it returns the empty list.  The same empty list, with no
    failed query, is the answer for a job that has no comment, so the result
    does not tell the two apart. *)
Theorem findByJobId_swallows_errors
    (sorter : forall A : Type, (A -> A -> bool) -> list A -> list A)
    (jobId : string) (w : World) :
  (exists cs w' l,
      commentModel.findByJobId sorter jobId w = (Ok cs, w', l)
      /\ (failed_query l = true -> cs = []))
  /\ (sorter_permutes sorter ->
      forall cs rs,
        comments w = Some cs -> replies w = Some rs -> faults w = [] ->
        (forall c, In c cs -> cr_jobId c <> jobId) ->
        exists l, commentModel.findByJobId sorter jobId w = (Ok [], w, l)
                  /\ failed_query l = false).
Proof.
  split; [apply findByJobId_total|].
  intros Hperm cs rs Hcs Hrs Hfs Hno.
  rewrite (findByJobId_healthy _ _ _ _ _ Hcs Hrs Hfs).
  rewrite (left_join_no_comment _ _ _ Hno), (sorter_nil _ _ _ Hperm).
  eexists. split; reflexivity.
Qed.

(** The demo job has a comment, yet a dropped connection, or a "Replies"
    table that was never created, gives the answer of a job without
    comments. *)
Example findByJobId_failures_look_empty :
  fst (fst (commentModel.findByJobId insertion_sort "job-J"
              (set_faults [true] demo_world))) = Ok []
  /\ fst (fst (commentModel.findByJobId insertion_sort "job-J"
                 (set_replies None demo_world))) = Ok []
  /\ fst (fst (commentModel.findByJobId insertion_sort "job-none" demo_world)) = Ok []
  /\ map c_id (match fst (fst (commentModel.findByJobId insertion_sort "job-J"
                                 demo_world)) with
               | Ok cs => cs
               | Thrown _ => []
               end) = ["c-A"].
Proof. repeat split. Qed.

(** ** Rows of the join, comments and replies of the result *)

Lemma left_join_one_In (rs : list ReplyRow) (c : CommentRow) (row : Row) :
  In row (Sql.left_join_one rs c) <->
  (row = Sql.null_row c /\ forall r, In r rs -> rr_commentId r <> cr_id c)
  \/ (exists r, In r rs /\ rr_commentId r = cr_id c /\ row = Sql.join_row c r).
Proof.
  unfold Sql.left_join_one.
  destruct (List.filter _ rs) as [|r0 matches] eqn:Hf.
  - split.
    + intros [<-|[]]. left. split; [reflexivity|]. intros r Hr Heq.
      assert (Hin : In r (List.filter (fun r => String.eqb (cr_id c) (rr_commentId r)) rs)).
      { apply filter_In. split; [assumption|]. rewrite Heq. apply String.eqb_refl. }
      rewrite Hf in Hin. contradiction.
    + intros [[-> _]|(r & Hr & Heq & _)]; [now left|].
      assert (Hin : In r (List.filter (fun r => String.eqb (cr_id c) (rr_commentId r)) rs)).
      { apply filter_In. split; [assumption|]. rewrite Heq. apply String.eqb_refl. }
      rewrite Hf in Hin. contradiction.
  - rewrite <- Hf. rewrite in_map_iff. split.
    + intros (r & <- & Hr). apply filter_In in Hr as [Hr Heq].
      apply String.eqb_eq in Heq. right. exists r. auto.
    + intros [[_ Hno]|(r & Hr & Heq & ->)].
      * exfalso. apply (Hno r0).
        -- apply (filter_head _ _ _ _ Hf).
        -- destruct (filter_head _ _ _ _ Hf) as [_ Heq].
           apply String.eqb_eq in Heq. now symmetry.
      * exists r. split; [reflexivity|]. apply filter_In. split; [assumption|].
        rewrite Heq. apply String.eqb_refl.
Qed.

Lemma left_join_In (jobId : string) (cs : list CommentRow) (rs : list ReplyRow)
    (row : Row) :
  In row (Sql.left_join jobId cs rs) <->
  exists c, In c cs /\ cr_jobId c = jobId
    /\ ((row = Sql.null_row c /\ forall r, In r rs -> rr_commentId r <> cr_id c)
        \/ (exists r, In r rs /\ rr_commentId r = cr_id c /\ row = Sql.join_row c r)).
Proof.
  unfold Sql.left_join. rewrite in_flat_map. split.
  - intros (c & Hc & Hrow). apply filter_In in Hc as [Hc Hj].
    apply String.eqb_eq in Hj. apply left_join_one_In in Hrow. eauto.
  - intros (c & Hc & Hj & Hrow). exists c. split.
    + apply filter_In. split; [assumption|]. now apply String.eqb_eq.
    + now apply left_join_one_In.
Qed.

Lemma grouped_In (rows : list Row) (c : Comment) :
  In c (grouped rows) ->
  exists row, In row rows /\ c = grouped_entry rows row.
Proof.
  unfold grouped. rewrite in_map_iff. intros (row & <- & Hin).
  apply first_seen_fresh in Hin as [_ Hin]. eauto.
Qed.

Lemma carried_In (k : string) (rows : list Row) (x : Reply) :
  In x (carried k rows) <->
  exists row, In row rows /\ r_id row = k /\ row_reply row = Some x.
Proof.
  unfold carried. induction rows as [|a rows IH]; simpl.
  - split; [contradiction | intros (? & [] & _)].
  - destruct (String.eqb_spec (r_id a) k) as [Heq|Hne].
    + destruct (row_reply a) as [y|] eqn:Hy; simpl; rewrite IH; split.
      * intros [<-|(row & ? & ? & ?)]; eauto 6.
      * intros (row & [<-|Hin] & Hk & Hr); [left; congruence | eauto].
      * intros (row & ? & ? & ?); eauto 6.
      * intros (row & [<-|Hin] & Hk & Hr); [congruence | eauto].
    + rewrite IH. split.
      * intros (row & ? & ? & ?); eauto 6.
      * intros (row & [<-|Hin] & Hk & Hr); [congruence | eauto].
Qed.

Lemma replies_of_In (k : string) (rows : list Row) (x : Reply) :
  In x (replies_of k rows) ->
  exists row, In row rows /\ r_id row = k /\ row_reply row = Some x.
Proof.
  unfold replies_of. intros Hin. apply first_seen_fresh in Hin as [_ Hin].
  now apply carried_In.
Qed.

Lemma row_reply_join (c : CommentRow) (r : ReplyRow) (x : Reply) :
  row_reply (Sql.join_row c r) = Some x ->
  rp_id x = rr_id r /\ rp_commentId x = Some (rr_commentId r)
  /\ rp_createdAt x = Some (rr_createdAt r).
Proof.
  intros Hx. apply row_reply_Some in Hx as (rid & Hrid & _ & ->).
  cbn in Hrid. injection Hrid as <-. repeat split.
Qed.

Lemma row_reply_null (c : CommentRow) : row_reply (Sql.null_row c) = None.
Proof. reflexivity. Qed.

(** ** Deleting a comment *)

Lemma filter_idem {A : Type} (f : A -> bool) (l : list A) :
  List.filter f (List.filter f l) = List.filter f l.
Proof.
  induction l as [|a l IH]; simpl; [reflexivity|].
  destruct (f a) eqn:Ha; simpl; [rewrite Ha; now f_equal | exact IH].
Qed.

Lemma delete_Ok (commentId : string) (w w1 : World) (b : bool) (l : list Call) :
  commentModel.delete commentId w = (Ok b, w1, l) ->
  b = true /\ failed_query l = false
  /\ exists rs, replies w = Some rs
       /\ comments w1 =
          Some (List.filter (fun c => negb (String.eqb (cr_id c) commentId))
                            (default [] (comments w)))
       /\ replies w1 =
          Some (List.filter (fun r => negb (String.eqb (rr_commentId r) commentId)) rs)
       /\ jobs w1 = jobs w /\ users w1 = users w.
Proof.
  destruct w as [cs rs js us fs dt].
  destruct fs as [|[|] [|[|] [|[|] [|[|] fs]]]]; destruct cs as [cs|], rs as [rs|];
    run_model; try discriminate;
    intros [= <- <- <-]; cbn; rewrite ?filter_idem; eauto 10.
Qed.

Lemma NoDup_key_inj {A : Type} (key : A -> string) (l : list A) (x y : A) :
  NoDup (map key l) -> In x l -> In y l -> key x = key y -> x = y.
Proof.
  induction l as [|a l IH]; simpl; [contradiction|].
  intros Hnd Hx Hy Heq. inversion Hnd as [|? ? Hnotin Hnd']; subst.
  rewrite list_elem_of_In in Hnotin.
  destruct Hx as [<-|Hx], Hy as [<-|Hy]; auto.
  - exfalso. apply Hnotin. rewrite Heq. now apply in_map.
  - exfalso. apply Hnotin. rewrite <- Heq. now apply in_map.
Qed.

Section Deletion.

Variable sorter : forall A : Type, (A -> A -> bool) -> list A -> list A.
Hypothesis sorter_perm : sorter_permutes sorter.

Lemma sorter_In {A : Type} (le : A -> A -> bool) (l : list A) (x : A) :
  In x (sorter A le l) <-> In x l.
Proof.
  split; apply Permutation_in; [apply sorter_perm | symmetry; apply sorter_perm].
Qed.

(** Comments and replies of a result come from the rows of the tables. *)
Lemma findByJobId_sources (jobId : string) (w w' : World) (l : list Call)
    (out : list Comment) (c : Comment) :
  commentModel.findByJobId sorter jobId w = (Ok out, w', l) ->
  In c out ->
  (exists cr, In cr (default [] (comments w)) /\ cr_id cr = c_id c
              /\ cr_jobId cr = jobId)
  /\ forall x, In x (c_replies c) ->
       exists rs rr, replies w = Some rs /\ In rr rs
                     /\ rr_id rr = rp_id x
                     /\ rr_commentId rr = c_id c
                     /\ rp_commentId x = Some (rr_commentId rr).
Proof.
  intros Hrun Hin.
  destruct (findByJobId_result sorter jobId w) as (out' & w'' & l' & Hrun' & Hout).
  rewrite Hrun in Hrun'. injection Hrun' as <- <- <-.
  destruct Hout as [->|(rs & Hrs & ->)]; [contradiction|].
  rewrite group_rows_grouped in Hin.
  apply grouped_In in Hin as (row & Hrow & ->).
  split.
  - apply sorter_In, left_join_In in Hrow as (cr & Hcr & Hj & Hshape).
    exists cr. split; [assumption|]. split; [|assumption].
    destruct Hshape as [[-> _]|(r & _ & _ & ->)]; reflexivity.
  - cbn. intros x Hx. apply replies_of_In in Hx as (row' & Hrow' & Hid & Hx).
    apply sorter_In, left_join_In in Hrow' as (cr & Hcr & Hj & Hshape).
    destruct Hshape as [[-> _]|(r & Hr & Hfk & ->)].
    + rewrite row_reply_null in Hx. discriminate.
    + apply row_reply_join in Hx as (Hxid & Hxc & _).
      exists rs, r. cbn in Hid. repeat split; auto; congruence.
Qed.

End Deletion.

(** ** Order and completeness of the aggregation *)









Lemma NoDup_map_filter {A : Type} (key : A -> string) (f : A -> bool) (l : list A) :
  NoDup (map key l) -> NoDup (map key (List.filter f l)).
Proof.
  induction l as [|a l IH]; simpl; intros Hnd; [constructor|].
  inversion Hnd as [|? ? Hnotin Hnd']; subst.
  destruct (f a); simpl; [|now apply IH].
  constructor; [|now apply IH].
  rewrite list_elem_of_In in *. rewrite in_map_iff in *.
  intros (x & Hx & Hin). apply Hnotin. exists x. split; [assumption|].
  now apply filter_In in Hin as [Hin _].
Qed.




Section Aggregation.

Variable sorter : forall A : Type, (A -> A -> bool) -> list A -> list A.
Hypothesis sorter_perm : sorter_permutes sorter.
Hypothesis sorter_sorted : sorter_sorts sorter.

Variable jobId : string.
Variable cs : list CommentRow.
Variable rs : list ReplyRow.
Hypothesis keys : keys_ok cs rs.

Let rows : list Row := sorter Row Sql.row_leb (Sql.left_join jobId cs rs).








End Aggregation.

(** ** What [getComments] serves *)



Section Serving.

Variable sorter : forall A : Type, (A -> A -> bool) -> list A -> list A.
Context `{Models}.





(** [addReply] likewise stores the reply through [commentModel.addReply],
    once the comment was found. *)
Lemma addReply_adds (req : Req) (w w1 : World) (l1 : list Call)
    (found : CommentRow * list ReplyRow) :
  truthy (field req "content") = true ->
  commentModel.findById sorter (params_commentId req) w = (Ok (Some found), w1, l1) ->
  match commentModel.addReply (params_commentId req)
          (mkReplyRow (uuidv4 req) (field req "content") (user_userId req)
                      (params_commentId req) (now req) (now req)) w1 with
  | (Ok saved, w2, l2) =>
      exists resp w3 l3,
        jobController.addReply sorter req w = (Ok resp, w3, l1 ++ l2 ++ l3)
        /\ read_only l3 = true
        /\ (status resp = 201 \/ status resp = 500)
  | (Thrown e, w2, l2) =>
      jobController.addReply sorter req w =
        (Ok (failure_with 500 "Error adding reply" e), w2, l1 ++ l2)
  end.
Proof.
  intros Hcontent Hload.
  unfold jobController.addReply, userModel.findById,
    try_catch, bind, ret, call. cbv beta.
  rewrite Hcontent. cbn. rewrite Hload. cbn.
  destruct (commentModel.addReply _ _ w1) as [[[saved|e] w2] l2]; cbn.
  - destruct (userModel_findById _ w2) as [[user|e] w3]; cbn.
    + eexists _, _, [UserFindById _]. rewrite ?app_nil_r.
      split; [reflexivity|]. cbn. auto.
    + eexists _, _, [UserFindById _]. rewrite ?app_nil_r.
      split; [reflexivity|]. cbn. auto.
  - now rewrite ?app_nil_r.
Qed.




End Serving.

(** ** The scenario: comments A then B, replies R1 then R2 *)

Lemma existsb_none {A : Type} (f : A -> bool) (l : list A) :
  (forall x, In x l -> f x = false) -> existsb f l = false.
Proof.
  induction l as [|a l IH]; intros Hf; simpl; [reflexivity|].
  rewrite (Hf a) by now left. apply IH. intros x Hx. apply Hf. now right.
Qed.

Lemma existsb_false_In {A : Type} (f : A -> bool) (l : list A) (x : A) :
  existsb f l = false -> In x l -> f x = false.
Proof.
  intros Hex Hin. destruct (f x) eqn:Hf; [|reflexivity].
  rewrite <- Hex. symmetry. apply existsb_exists. eauto.
Qed.

(** What a returned insertion has done. *)
Lemma create_Ok (c row : CommentRow) (w w1 : World) (l : list Call) :
  commentModel.create c w = (Ok row, w1, l) ->
  (exists text,
      Sql.text_of (driver_text w) (cr_content c) = Some text
      /\ row = Sql.stored_comment text c)
  /\ comments w1 = Some (default [] (comments w) ++ [row])
  /\ replies w1 = replies w /\ jobs w1 = jobs w /\ users w1 = users w
  /\ existsb (fun c' => String.eqb (cr_id c') (cr_id row)) (default [] (comments w))
     = false.
Proof.
  split_world w; run_model; branches; try discriminate;
    intros [= <- <- <-]; cbn; eauto 10.
Qed.

Lemma addReply_Ok (commentId : string) (r row : ReplyRow) (w w1 : World)
    (l : list Call) :
  commentModel.addReply commentId r w = (Ok row, w1, l) ->
  (exists text,
      Sql.text_of (driver_text w) (rr_content r) = Some text
      /\ row = Sql.stored_reply text (reply_under commentId r))
  /\ replies w1 = Some (default [] (replies w) ++ [row])
  /\ comments w1 = comments w /\ jobs w1 = jobs w /\ users w1 = users w
  /\ existsb (fun r' => String.eqb (rr_id r') (rr_id row)) (default [] (replies w))
     = false
  /\ existsb (fun c => String.eqb (cr_id c) commentId) (default [] (comments w))
     = true.
Proof.
  split_world w; run_model; branches; try discriminate;
    intros [= <- <- <-]; cbn; eauto 10.
Qed.



Section Scenario.

Variable sorter : forall A : Type, (A -> A -> bool) -> list A -> list A.
Hypothesis sorter_perm : sorter_permutes sorter.
Hypothesis sorter_sorted : sorter_sorts sorter.


Variable J : string.
Variables A B : CommentRow.
Variables R1 R2 : ReplyRow.
Variable cs0 : list CommentRow.
Variable rs0 : list ReplyRow.

Hypothesis A_job : cr_jobId A = J.
Hypothesis B_job : cr_jobId B = J.
Hypothesis A_then_B : cr_createdAt A < cr_createdAt B.
Hypothesis AB_ids : cr_id A <> cr_id B.
Hypothesis new_job : forall c, In c cs0 -> cr_jobId c <> J.
Hypothesis fresh_comments :
  forall c, In c cs0 -> cr_id c <> cr_id A /\ cr_id c <> cr_id B.
Hypothesis no_orphans :
  forall r, In r rs0 -> rr_commentId r <> cr_id A /\ rr_commentId r <> cr_id B.
Hypothesis R1_then_R2 : rr_createdAt R1 < rr_createdAt R2.
Hypothesis R_ids : rr_id R1 <> rr_id R2.
Hypothesis R_uuids : rr_id R1 <> EmptyString /\ rr_id R2 <> EmptyString.
Hypothesis fresh_replies :
  forall r, In r rs0 -> rr_id r <> rr_id R1 /\ rr_id r <> rr_id R2.









End Scenario.


(** The same scenario through the handlers: two [addComment] requests, then
    two [addReply] requests, each followed by [getComments]. *)
Example handlers_scenario :
  let addA := jobController.addComment (H := spec_models)
                (scenario_req "alice" EmptyString "first" "c-A" 10) in
  let addB := jobController.addComment (H := spec_models)
                (scenario_req "bob" EmptyString "second" "c-B" 20) in
  let addR1 := jobController.addReply insertion_sort (H := spec_models)
                 (scenario_req "bob" "c-A" "one" "r-1" 30) in
  let addR2 := jobController.addReply insertion_sort (H := spec_models)
                 (scenario_req "alice" "c-A" "two" "r-2" 40) in
  let get := jobController.getComments insertion_sort (H := spec_models)
               (scenario_req "bob" EmptyString EmptyString EmptyString 50) in
  served_ids (fst (serve [addA; addB; get] fresh_world))
    = [("c-B", []); ("c-A", [])]
  /\ served_ids (fst (serve [addA; addB; addR1; addR2; get] fresh_world))
    = [("c-B", []); ("c-A", ["r-1"; "r-2"])].
Proof. vm_compute. split; reflexivity. Qed.


Section Aggregated.

Variable sorter : forall A : Type, (A -> A -> bool) -> list A -> list A.
Hypothesis sorter_perm : sorter_permutes sorter.
Hypothesis sorter_sorted : sorter_sorts sorter.


End Aggregated.



(** ** Once deleted, a comment stays away *)

Lemma existsb_parent (k deleted : string) (cs : list CommentRow) :
  existsb (fun c => String.eqb (cr_id c) k) cs = true ->
  (forall c, In c cs -> cr_id c <> deleted) -> k <> deleted.
Proof.
  intros Hex Hcs. apply existsb_exists in Hex as (c & Hc & Heq).
  apply String.eqb_eq in Heq. subst k. now apply Hcs.
Qed.

(** Membership in the tables a call leaves: appended, filtered or as before. *)
Ltac gone_members :=
  repeat match goal with
         | H : In _ (_ ++ _) |- _ => apply in_app_or in H as [H|H]
         | H : In _ (List.filter _ _) |- _ => apply filter_In in H as [H _]
         | H : In _ [_] |- _ => destruct H as [<-|[]]
         | H : In _ [] |- _ => destruct H
         | H : _ = _ \/ False |- _ => destruct H as [<-|[]]
         | H : False |- _ => destruct H
         end.

Ltac gone_solve :=
  unfold gone in *; cbn in *;
  match goal with
  | Hg : _ /\ _ |- _ =>
      destruct Hg as [Hgc Hgr]; split; intros x Hx; gone_members; cbn in *;
      eauto using existsb_parent
  end.

Lemma create_gone (deleted : string) (c : CommentRow) (w : World) :
  cr_id c <> deleted -> gone deleted w ->
  gone deleted (world_after (commentModel.create c w)).
Proof.
  intros Hc Hg. unfold world_after. split_world w; run_model; branches; gone_solve.
Qed.

Lemma addReply_gone (deleted commentId : string) (r : ReplyRow) (w : World) :
  gone deleted w ->
  gone deleted (world_after (commentModel.addReply commentId r w)).
Proof.
  intros Hg. unfold world_after. split_world w; run_model; branches; gone_solve.
Qed.

Lemma delete_gone (deleted commentId : string) (w : World) :
  gone deleted w ->
  gone deleted (world_after (commentModel.delete commentId w)).
Proof.
  intros Hg. unfold world_after. split_world w; run_model; branches; gone_solve.
Qed.

Lemma deleteReply_gone (deleted replyId : string) (w : World) :
  gone deleted w ->
  gone deleted (world_after (commentModel.deleteReply replyId w)).
Proof.
  intros Hg. unfold world_after. split_world w; run_model; branches; gone_solve.
Qed.

Lemma findByJobId_gone
    (sorter : forall A : Type, (A -> A -> bool) -> list A -> list A)
    (deleted jobId : string) (w : World) :
  gone deleted w ->
  gone deleted (world_after (commentModel.findByJobId sorter jobId w)).
Proof.
  intros Hg. unfold world_after. split_world w; run_model; branches; gone_solve.
Qed.

Lemma findById_gone
    (sorter : forall A : Type, (A -> A -> bool) -> list A -> list A)
    (deleted commentId : string) (w : World) :
  gone deleted w ->
  gone deleted (world_after (commentModel.findById sorter commentId w)).
Proof.
  intros Hg. unfold world_after. split_world w; run_model; branches; gone_solve.
Qed.

Lemma findReplyById_gone (deleted replyId : string) (w : World) :
  gone deleted w ->
  gone deleted (world_after (commentModel.findReplyById replyId w)).
Proof.
  intros Hg. unfold world_after. split_world w; run_model; branches; gone_solve.
Qed.

Lemma later_gone
    (sorter : forall A : Type, (A -> A -> bool) -> list A -> list A)
    (deleted : string) (w w' : World) :
  later sorter deleted w w' -> gone deleted w -> gone deleted w'.
Proof.
  intros Hlater Hg. unfold later in Hlater. revert w' Hlater.
  apply rtc_ind_r; [assumption|]. intros w1 w2 _ Hstep IH.
  inversion Hstep; subst.
  - now apply create_gone.
  - now apply addReply_gone.
  - now apply delete_gone.
  - now apply deleteReply_gone.
  - now apply findByJobId_gone.
  - now apply findById_gone.
  - now apply findReplyById_gone.
  - assumption.
Qed.

(** ** The keys stay keys *)

Lemma NoDup_snoc_key {A : Type} (key : A -> string) (l : list A) (x : A) :
  NoDup (map key l) ->
  existsb (fun y => String.eqb (key y) (key x)) l = false ->
  NoDup (map key (l ++ [x])).
Proof.
  intros Hnd Hfresh. rewrite map_app. apply NoDup_app. split; [assumption|].
  split; [|apply NoDup_singleton].
  intros k Hk Hx. apply list_elem_of_singleton in Hx. subst k.
  rewrite list_elem_of_In, in_map_iff in Hk. destruct Hk as (y & Hy & Hin).
  assert (Hex : existsb (fun y => String.eqb (key y) (key x)) l = true).
  { apply existsb_exists. exists y. split; [assumption|]. now apply String.eqb_eq. }
  congruence.
Qed.

Ltac keys_solve :=
  unfold keys_ok_in, keys_ok in *; cbn in *;
  match goal with
  | Hk : _ /\ _ /\ _ |- _ =>
      destruct Hk as (Hkc & Hkr & Hke);
      repeat split;
      try (intros x Hx; gone_members; cbn in *);
      eauto using NoDup_snoc_key, NoDup_map_filter, NoDup_nil_2, NoDup_singleton
  end.

Lemma create_keys (c : CommentRow) (w : World) :
  keys_ok_in w -> keys_ok_in (world_after (commentModel.create c w)).
Proof.
  intros Hk. unfold world_after. split_world w; run_model; branches; keys_solve.
Qed.

Lemma addReply_keys (commentId : string) (r : ReplyRow) (w : World) :
  rr_id r <> EmptyString ->
  keys_ok_in w -> keys_ok_in (world_after (commentModel.addReply commentId r w)).
Proof.
  intros Hr Hk. unfold world_after. split_world w; run_model; branches; keys_solve.
Qed.

Lemma delete_keys (commentId : string) (w : World) :
  keys_ok_in w -> keys_ok_in (world_after (commentModel.delete commentId w)).
Proof.
  intros Hk. unfold world_after. split_world w; run_model; branches; keys_solve.
Qed.

Lemma deleteReply_keys (replyId : string) (w : World) :
  keys_ok_in w -> keys_ok_in (world_after (commentModel.deleteReply replyId w)).
Proof.
  intros Hk. unfold world_after. split_world w; run_model; branches; keys_solve.
Qed.

Lemma findByJobId_keys
    (sorter : forall A : Type, (A -> A -> bool) -> list A -> list A)
    (jobId : string) (w : World) :
  keys_ok_in w -> keys_ok_in (world_after (commentModel.findByJobId sorter jobId w)).
Proof.
  intros Hk. unfold world_after. split_world w; run_model; branches; keys_solve.
Qed.

Lemma findById_keys
    (sorter : forall A : Type, (A -> A -> bool) -> list A -> list A)
    (commentId : string) (w : World) :
  keys_ok_in w -> keys_ok_in (world_after (commentModel.findById sorter commentId w)).
Proof.
  intros Hk. unfold world_after. split_world w; run_model; branches; keys_solve.
Qed.

Lemma findReplyById_keys (replyId : string) (w : World) :
  keys_ok_in w -> keys_ok_in (world_after (commentModel.findReplyById replyId w)).
Proof.
  intros Hk. unfold world_after. split_world w; run_model; branches; keys_solve.
Qed.

(** Primary keys stay unique and reply ids stay non-empty on every store a
    deployment reaches. *)
Lemma reachable_keys
    (sorter : forall A : Type, (A -> A -> bool) -> list A -> list A)
    (w w' : World) :
  reachable sorter w w' -> keys_ok_in w -> keys_ok_in w'.
Proof.
  intros Hreach Hk. unfold reachable in Hreach. revert w' Hreach.
  apply rtc_ind_r; [assumption|]. intros w1 w2 _ Hstep IH.
  inversion Hstep; subst.
  - now apply create_keys.
  - now apply addReply_keys.
  - now apply delete_keys.
  - now apply deleteReply_keys.
  - now apply findByJobId_keys.
  - now apply findById_keys.
  - now apply findReplyById_keys.
  - assumption.
Qed.

(** A 200 answer of [deleteComment] means that [commentModel.delete] returned,
    on the store the load had left, and the store is the one it left. *)
Lemma deleteComment_200
    (sorter : forall A : Type, (A -> A -> bool) -> list A -> list A)
    (req : Req) (w w' : World) (resp : Response) (l : list Call) :
  jobController.deleteComment sorter req w = (Ok resp, w', l) ->
  status resp = 200 ->
  exists w1 b l2,
    commentModel.delete (params_commentId req) w1 = (Ok b, w', l2).
Proof.
  unfold jobController.deleteComment, try_catch, bind, ret. cbv beta.
  destruct (commentModel.findById sorter (params_commentId req) w)
    as [[[[[comment replyRows]|]|e] w1] l1]; cbn.
  - destruct (String.eqb (cr_userId comment) (user_userId req)); cbn.
    + destruct (commentModel.delete (params_commentId req) w1)
        as [[[b|e] wm] lm] eqn:Hdel; cbn.
      * intros [= <- <- <-] _. eauto.
      * intros [= <- <- <-]. cbn. discriminate.
    + intros [= <- <- <-]. cbn. discriminate.
  - intros [= <- <- <-]. cbn. discriminate.
  - intros [= <- <- <-]. cbn. discriminate.
Qed.

(** C6: once [commentModel.delete] has returned, both tables exist, the
    "Comments" table holds no comment with that id and the "Replies" table no
    reply to it.  From then on, whatever [commentModel] is asked to do (short
    of creating a comment under the very same id), every [findByJobId], for
    whichever job, returns neither the comment nor a reply to it; and, reply
    ids being a primary key, the result on the store the deletion left holds
    no reply with the id of one of its former replies.  A 200 answer of the
    handler [deleteComment] is such a return of [commentModel.delete]. *)
Theorem delete_removes_comment_and_replies
    (sorter : forall A : Type, (A -> A -> bool) -> list A -> list A) :
  sorter_permutes sorter ->
  (forall commentId w w1 b l,
      commentModel.delete commentId w = (Ok b, w1, l) ->
      (exists cs1 rs1,
          comments w1 = Some cs1 /\ replies w1 = Some rs1
          /\ (forall c, In c cs1 -> cr_id c <> commentId)
          /\ (forall r, In r rs1 -> rr_commentId r <> commentId))
      /\ (forall w2 jobId,
            later sorter commentId w1 w2 ->
            exists out w3 l3,
              commentModel.findByJobId sorter jobId w2 = (Ok out, w3, l3)
              /\ forall c, In c out ->
                   c_id c <> commentId
                   /\ forall x, In x (c_replies c) ->
                        rp_commentId x <> Some commentId)
      /\ (forall rs r jobId out w3 l3 c,
            replies w = Some rs -> NoDup (map rr_id rs) ->
            In r rs -> rr_commentId r = commentId ->
            commentModel.findByJobId sorter jobId w1 = (Ok out, w3, l3) ->
            In c out -> ~ In (rr_id r) (map rp_id (c_replies c))))
  /\ (forall req w w' resp l,
        jobController.deleteComment sorter req w = (Ok resp, w', l) ->
        status resp = 200 ->
        exists w1 b l2,
          commentModel.delete (params_commentId req) w1 = (Ok b, w', l2)).
Proof.
  intros Hperm. split; [|intros req w w' resp l; apply deleteComment_200].
  intros commentId w w1 b l Hdel.
  destruct (delete_Ok _ _ _ _ _ Hdel) as (_ & _ & rs & Hrs & Hc1 & Hr1 & _).
  assert (Hrs1 : forall r, In r (List.filter (fun r => negb (String.eqb (rr_commentId r) commentId)) rs)
                   -> In r rs /\ rr_commentId r <> commentId).
  { intros r Hr. apply filter_In in Hr as [Hin Hr].
    apply negb_true_iff, String.eqb_neq in Hr. auto. }
  assert (Hgone : gone commentId w1).
  { unfold gone. rewrite Hc1, Hr1. cbn. split.
    - intros c Hc. apply filter_In in Hc as [_ Hc].
      now apply negb_true_iff, String.eqb_neq in Hc.
    - intros r Hr. now apply Hrs1. }
  split; [|split].
  - destruct Hgone as [Hgc Hgr]. rewrite Hc1 in Hgc. rewrite Hr1 in Hgr.
    eexists _, _. split; [exact Hc1|]. split; [exact Hr1|]. split; assumption.
  - intros w2 jobId Hlater.
    destruct (later_gone _ _ _ _ Hlater Hgone) as [Hgc Hgr].
    destruct (findByJobId_total sorter jobId w2) as (out & w3 & l3 & Hrun & _).
    exists out, w3, l3. split; [exact Hrun|]. intros c Hc.
    destruct (findByJobId_sources sorter Hperm _ _ _ _ _ _ Hrun Hc)
      as [(cr & Hcr & Hid & _) Hreplies].
    split; [rewrite <- Hid; now apply Hgc|].
    intros x Hx. destruct (Hreplies x Hx) as (rs' & rr & Hrs' & Hrr & _ & _ & ->).
    rewrite Hrs' in Hgr. cbn in Hgr. specialize (Hgr rr Hrr). congruence.
  - intros rs0 r jobId out w3 l3 c Hrs0 Hnd Hr Hparent Hrun Hc Hin.
    rewrite Hrs in Hrs0. injection Hrs0 as <-.
    destruct (findByJobId_sources sorter Hperm _ _ _ _ _ _ Hrun Hc) as [_ Hreplies].
    apply in_map_iff in Hin as (x & Hxid & Hx).
    destruct (Hreplies x Hx) as (rs' & rr & Hrs' & Hrr & Hrrid & _ & _).
    rewrite Hr1 in Hrs'. injection Hrs' as <-.
    apply Hrs1 in Hrr as [Hrrin Hne].
    assert (rr = r).
    { apply (NoDup_key_inj rr_id rs); auto. congruence. }
    subst rr. contradiction.
Qed.

(** Alice deletes her demo comment, which has one reply; Bob then adds a
    comment. *)
Lemma delete_removes_comment_and_replies_witness :
  let w1 := world_after (jobController.deleteComment insertion_sort
                           (demo_req "alice" []) demo_world) in
  let w2 := world_after (commentModel.create comment_B w1) in
  comments w1 = Some [] /\ replies w1 = Some []
  /\ (forall jobId,
        exists out w3 l3,
          commentModel.findByJobId insertion_sort jobId w2 = (Ok out, w3, l3)
          /\ forall c, In c out ->
               c_id c <> "c-A"
               /\ forall x, In x (c_replies c) -> rp_commentId x <> Some "c-A")
  /\ value (commentModel.findByJobId insertion_sort "job-J" w2)
     = Ok [comment_object comment_B []].
Proof.
  destruct (delete_removes_comment_and_replies insertion_sort insertion_sort_permutes)
    as [Hmodel _].
  destruct (Hmodel "c-A" demo_world
              (world_after (commentModel.delete "c-A" demo_world)) true
              (snd (commentModel.delete "c-A" demo_world)) eq_refl)
    as (_ & Hlater & _).
  split; [reflexivity|]. split; [reflexivity|]. split; [|reflexivity].
  intros jobId. apply Hlater. apply rtc_once. apply step_create. discriminate.
Defined.

(** * Further properties of the code *)

(** ** [commentModel]: what each call stores *)



Lemma existsb_id_In {A : Type} (key : A -> string) (k : string) (l : list A) :
  existsb (fun x => String.eqb (key x) k) l = true ->
  exists x, In x l /\ key x = k.
Proof.
  intros Hex. apply existsb_exists in Hex as (x & Hx & Heq).
  apply String.eqb_eq in Heq. eauto.
Qed.



(** ** Lazy creation of the tables *)

(** X3: [ensureTable] and [ensureRepliesTable] create their table only when
    it is missing and never touch a row: when they return, the table exists
    with the rows it had, and the other table is as it was; when they throw,
    both tables are as they were.  "Replies" references "Comments", so
    [ensureRepliesTable] creates it only where "Comments" exists.  Once a table
    exists a further call is a single read. *)
Theorem ensure_tables_lazy (w : World) :
  match commentModel.ensureTable w with
  | (Ok _, w1, l) =>
      comments w1 = Some (default [] (comments w)) /\ replies w1 = replies w
      /\ (faults w1 = [] ->
          commentModel.ensureTable w1
          = (Ok tt, w1, [DbQuery (TableExists Comments) false]))
  | (Thrown e, w1, l) => comments w1 = comments w /\ replies w1 = replies w
  end
  /\ match commentModel.ensureRepliesTable w with
     | (Ok _, w1, l) =>
         replies w1 = Some (default [] (replies w)) /\ comments w1 = comments w
         /\ (replies w = None -> comments w <> None)
         /\ (faults w1 = [] ->
             commentModel.ensureRepliesTable w1
             = (Ok tt, w1, [DbQuery (TableExists Replies) false]))
     | (Thrown e, w1, l) => comments w1 = comments w /\ replies w1 = replies w
     end.
Proof.
  split.
  - split_world w; run_model; repeat split; try reflexivity;
      intros Hfs; cbn in Hfs; try discriminate; subst; reflexivity.
  - split_world w; run_model; repeat split; try reflexivity;
      intros Hfs; cbn in Hfs; try discriminate Hfs; subst; try reflexivity;
      intros Hcs; discriminate Hcs.
Qed.

Lemma filter_out_then_in {A : Type} (key : A -> string) (k : string) (l : list A) :
  List.filter (fun x => String.eqb (key x) k)
              (List.filter (fun x => negb (String.eqb (key x) k)) l) = [].
Proof.
  induction l as [|a l IH]; simpl; [reflexivity|].
  destruct (String.eqb (key a) k) eqn:Ha; simpl; [exact IH|].
  rewrite Ha. exact IH.
Qed.

(** X4: when [commentModel.deleteReply] returns, the table holds the replies
    it held, in their order, except those with that id, the comments are as
    they were, and from then on [findReplyById] answers [null] for that id
    whatever faults occur; when it throws, the rows of both tables are as
    before. *)
Theorem deleteReply_removes_only (replyId : string) (w : World) :
  match commentModel.deleteReply replyId w with
  | (Ok b, w1, l) =>
      b = true
      /\ replies w1
         = Some (List.filter (fun r => negb (String.eqb (rr_id r) replyId))
                             (default [] (replies w)))
      /\ comments w1 = comments w
      /\ forall fs,
           value (commentModel.findReplyById replyId (set_faults fs w1)) = Ok None
  | (Thrown e, w1, l) => rows_of w1 = rows_of w
  end.
Proof.
  unfold rows_of, value.
  split_world w; run_model; repeat split; try reflexivity;
    intros [|[|] [|[|] [|[|] fs']]]; cbn; rewrite ?filter_out_then_in; reflexivity.
Qed.

(** ** Deleting a comment is two statements *)

(** X5: [commentModel.delete] removes nothing but the comment and its
    replies: when it returns, the tables hold the other rows, in their order.
    It is not atomic: when it throws the comment is still stored, while its
    replies are either all still there or all gone already, the latter when
    the connection fails between the two DELETE statements. *)
Theorem delete_keeps_the_rest (commentId : string) (w : World) :
  match commentModel.delete commentId w with
  | (Ok b, w1, l) =>
      comments w1
      = Some (List.filter (fun c => negb (String.eqb (cr_id c) commentId))
                          (default [] (comments w)))
      /\ replies w1
         = Some (List.filter (fun r => negb (String.eqb (rr_commentId r) commentId))
                             (default [] (replies w)))
  | (Thrown e, w1, l) =>
      default [] (comments w1) = default [] (comments w)
      /\ (default [] (replies w1) = default [] (replies w)
          \/ default [] (replies w1)
             = List.filter (fun r => negb (String.eqb (rr_commentId r) commentId))
                           (default [] (replies w)))
  end
  /\ forall cs rs,
       comments w = Some cs -> replies w = Some rs ->
       faults w = [false; false; true] ->
       exists w1 l,
         commentModel.delete commentId w = (Thrown connection_error, w1, l)
         /\ comments w1 = Some cs
         /\ replies w1
            = Some (List.filter (fun r => negb (String.eqb (rr_commentId r) commentId))
                                rs).
Proof.
  split.
  - split_world w; run_model; rewrite ?filter_idem; auto.
  - intros cs rs Hcs Hrs Hfs. destruct w as [cs0 rs0 js us fs]. cbn in *. subst.
    run_model. eauto.
Qed.

(** ** Loading what is stored *)

Lemma reply_leb_total (a b : ReplyRow) :
  Sql.reply_leb a b = true \/ Sql.reply_leb b a = true.
Proof. unfold Sql.reply_leb. destruct (Z.leb_spec (rr_createdAt a) (rr_createdAt b)); [auto|right; lia]. Qed.

Lemma reply_leb_trans (a b c : ReplyRow) :
  Sql.reply_leb a b = true -> Sql.reply_leb b c = true -> Sql.reply_leb a c = true.
Proof. unfold Sql.reply_leb. lia. Qed.

Lemma sorted_replies
    (sorter : forall A : Type, (A -> A -> bool) -> list A -> list A)
    (l : list ReplyRow) :
  sorter_sorts sorter ->
  StronglySorted (fun a b => rr_createdAt a <= rr_createdAt b)
                 (sorter ReplyRow Sql.reply_leb l).
Proof.
  intros Hsorts.
  pose proof (Hsorts ReplyRow Sql.reply_leb l reply_leb_total reply_leb_trans) as Hs.
  induction Hs as [|a l' Hs IH Hall]; constructor; [assumption|].
  eapply Forall_impl; [exact Hall|]. intros b Hb. cbn in Hb.
  unfold Sql.reply_leb in Hb. lia.
Qed.

(** X6: with both tables in place and no fault on the way,
    [commentModel.findById] finds a comment exactly when one is stored under
    that id: it then returns a stored comment of that id together with
    precisely the replies stored for it, oldest first, and otherwise [null].
    It makes no write and leaves the store as it is. *)
Theorem findById_finds_the_stored
    (sorter : forall A : Type, (A -> A -> bool) -> list A -> list A)
    (commentId : string) (w : World) (cs : list CommentRow) (rs : list ReplyRow) :
  sorter_permutes sorter -> sorter_sorts sorter ->
  comments w = Some cs -> replies w = Some rs -> faults w = [] ->
  exists found l,
    commentModel.findById sorter commentId w = (Ok found, w, l)
    /\ read_only l = true /\ failed_query l = false
    /\ match found with
       | Some (c, replyRows) =>
           In c cs /\ cr_id c = commentId
           /\ Permutation replyRows (replies_of_comment commentId rs)
           /\ StronglySorted (fun a b => rr_createdAt a <= rr_createdAt b) replyRows
       | None => forall c, In c cs -> cr_id c <> commentId
       end.
Proof.
  intros Hperm Hsorts Hcs Hrs Hfs.
  destruct w as [cs0 rs0 js us fs]. cbn in Hcs, Hrs, Hfs. subst.
  run_model.
  destruct (List.filter (fun c => String.eqb (cr_id c) commentId) cs)
    as [|row0 rows] eqn:Hf; cbn.
  - eexists _, _. split; [reflexivity|]. repeat split.
    intros c Hc Heq.
    assert (Hin : In c (List.filter (fun c => String.eqb (cr_id c) commentId) cs)).
    { apply filter_In. split; [assumption|]. now apply String.eqb_eq. }
    rewrite Hf in Hin. destruct Hin.
  - apply filter_head in Hf as [Hin Heq]. apply String.eqb_eq in Heq.
    eexists _, _. split; [reflexivity|]. repeat split; auto;
      solve [apply Hperm | now apply sorted_replies].
Qed.

(** The comment and the replies of the demo deployment. *)
Lemma findById_finds_the_stored_witness :
  exists found l,
    commentModel.findById insertion_sort "c-A" demo_world = (Ok found, demo_world, l)
    /\ read_only l = true /\ failed_query l = false
    /\ match found with
       | Some (c, replyRows) =>
           In c [demo_comment] /\ cr_id c = "c-A"
           /\ Permutation replyRows (replies_of_comment "c-A" [demo_reply])
           /\ StronglySorted (fun a b => rr_createdAt a <= rr_createdAt b) replyRows
       | None => forall c, In c [demo_comment] -> cr_id c <> "c-A"
       end.
Proof.
  apply (findById_finds_the_stored insertion_sort "c-A" demo_world
           [demo_comment] [demo_reply] insertion_sort_permutes insertion_sort_sorts);
    reflexivity.
Defined.

(** ** Round trips *)

Lemma filter_snoc_fresh {A : Type} (key : A -> string) (k : string) (l : list A)
    (x : A) :
  key x = k ->
  existsb (fun y => String.eqb (key y) k) l = false ->
  List.filter (fun y => String.eqb (key y) k) (l ++ [x]) = [x].
Proof.
  intros Hx Hfresh. rewrite List.filter_app. simpl. rewrite Hx, String.eqb_refl.
  rewrite filter_none; [reflexivity|].
  intros y Hy. now apply (existsb_false_In _ _ y) in Hfresh.
Qed.

(** X7: what was stored is found.  A comment that [commentModel.create]
    returned is what [findById] returns for its id, and a reply that
    [addReply] returned is what [findReplyById] returns for its id and is
    among the replies [findById] lists for its comment, as long as no fault
    occurs (and, for a comment, the "Replies" table exists: [findById] reads
    it, and answers [null] without it). *)
Theorem stored_is_found
    (sorter : forall A : Type, (A -> A -> bool) -> list A -> list A) :
  sorter_permutes sorter ->
  (forall c row w w1 l rs,
      commentModel.create c w = (Ok row, w1, l) ->
      replies w = Some rs ->
      value (commentModel.findById sorter (cr_id c) (set_faults [] w1))
      = Ok (Some (row, sorter ReplyRow Sql.reply_leb
                          (replies_of_comment (cr_id c) rs))))
  /\ (forall c row w w1 l,
        commentModel.create c w = (Ok row, w1, l) ->
        replies w = None ->
        value (commentModel.findById sorter (cr_id c) (set_faults [] w1)) = Ok None)
  /\ (forall commentId r row w w1 l,
        commentModel.addReply commentId r w = (Ok row, w1, l) ->
        value (commentModel.findReplyById (rr_id r) (set_faults [] w1))
        = Ok (Some row)
        /\ exists c replyRows,
             value (commentModel.findById sorter commentId (set_faults [] w1))
             = Ok (Some (c, replyRows))
             /\ In row replyRows).
Proof.
  intros Hperm. split; [|split].
  - intros c row w w1 l rs Hrun Hrs.
    apply create_Ok in Hrun as ((text & _ & ->) & Hc1 & Hr1 & _ & _ & Hfresh).
    destruct w1 as [cs1 rs1 js1 us1 fs1 dt1]. cbn in Hc1, Hr1, Hfresh. subst.
    unfold value. run_model. rewrite Hrs. cbn.
    rewrite (filter_snoc_fresh cr_id (cr_id c) _ (Sql.stored_comment text c)
               eq_refl Hfresh).
    reflexivity.
  - intros c row w w1 l Hrun Hrs.
    apply create_Ok in Hrun as ((text & _ & ->) & Hc1 & Hr1 & _ & _ & Hfresh).
    destruct w1 as [cs1 rs1 js1 us1 fs1 dt1]. cbn in Hc1, Hr1, Hfresh. subst.
    unfold value. run_model. rewrite Hrs. cbn.
    rewrite (filter_snoc_fresh cr_id (cr_id c) _ (Sql.stored_comment text c)
               eq_refl Hfresh).
    reflexivity.
  - intros commentId r row w w1 l Hrun.
    apply addReply_Ok in Hrun
      as ((text & _ & ->) & Hr1 & Hc1 & _ & _ & Hfresh & Hparent).
    destruct w1 as [cs1 rs1 js1 us1 fs1 dt1]. cbn in Hc1, Hr1, Hfresh. subst.
    unfold value. split.
    + run_model.
      rewrite (filter_snoc_fresh rr_id (rr_id r) _
                 (Sql.stored_reply text (reply_under commentId r)) eq_refl Hfresh).
      reflexivity.
    + apply existsb_exists in Hparent as (c & Hc & Heq).
      destruct (comments w) as [cs|] eqn:Hcs; [|destruct Hc]. cbn in Hc.
      run_model.
      destruct (List.filter (fun c0 => String.eqb (cr_id c0) commentId) cs)
        as [|row0 rows] eqn:Hf.
      * assert (Hin : In c (List.filter (fun c0 => String.eqb (cr_id c0) commentId) cs))
          by (apply filter_In; auto).
        rewrite Hf in Hin. destruct Hin.
      * cbn. eexists _, _. split; [reflexivity|].
        eapply Permutation_in; [symmetry; apply Hperm|].
        apply filter_In. split; [|cbn; apply String.eqb_refl].
        apply in_or_app. right. now left.
Qed.

(** On the fresh deployment: comment A, then a reply to it. *)
Lemma stored_is_found_witness :
  value (commentModel.findById insertion_sort "c-A"
           (set_faults [] (world_after (commentModel.create comment_A fresh_world))))
  = Ok (Some (comment_A, []))
  /\ value (commentModel.findReplyById "r-1"
              (set_faults []
                 (world_after (commentModel.addReply "c-A" reply_R1
                    (world_after (commentModel.create comment_A fresh_world))))))
     = Ok (Some reply_R1).
Proof.
  destruct (stored_is_found insertion_sort insertion_sort_permutes)
    as (Hcreate & _ & Hreply).
  split.
  - exact (Hcreate comment_A comment_A fresh_world _ _ [] eq_refl eq_refl).
  - exact (proj1 (Hreply "c-A" reply_R1 reply_R1
                    (world_after (commentModel.create comment_A fresh_world))
                    _ _ eq_refl)).
Defined.

(** ** Referential integrity *)

Ltac refs_members :=
  repeat match goal with
         | H : In _ (_ ++ _) |- _ => apply in_app_or in H as [H|H]
         | H : In _ (List.filter _ _) |- _ => apply filter_In in H as [H ?]
         | H : In _ [_] |- _ => destruct H as [<-|[]]
         | H : In _ [] |- _ => destruct H
         | H : _ = _ \/ False |- _ => destruct H as [<-|[]]
         | H : False |- _ => destruct H
         end.

Ltac refs_parent Hrefs :=
  match goal with
  | Hr : In _ _ |- _ =>
      let c := fresh "c" in
      let Hc := fresh "Hc" in
      let Heq := fresh "Heq" in
      destruct (Hrefs _ Hr) as (c & Hc & Heq); exists c; split; [|assumption];
      first [ contradiction
            | assumption
            | apply in_or_app; left; assumption
            | apply filter_In; split; [assumption | rewrite Heq; assumption] ]
  | Hex : existsb _ _ = true |- _ =>
      let c := fresh "c" in
      let Hc := fresh "Hc" in
      let Heq := fresh "Heq" in
      apply existsb_id_In in Hex as (c & Hc & Heq); exists c;
      split; [assumption | cbn; congruence]
  end.

Ltac refs_solve Hrefs :=
  unfold refs_ok in *; cbn in *;
  let x := fresh "x" in
  let Hx := fresh "Hx" in
  intros x Hx; refs_members; cbn in *; refs_parent Hrefs.

Lemma create_refs (c : CommentRow) (w : World) :
  refs_ok w -> refs_ok (world_after (commentModel.create c w)).
Proof.
  intros Hk. unfold world_after. split_world w; run_model; branches; refs_solve Hk.
Qed.

Lemma addReply_refs (commentId : string) (r0 : ReplyRow) (w : World) :
  refs_ok w -> refs_ok (world_after (commentModel.addReply commentId r0 w)).
Proof.
  intros Hk. unfold world_after. split_world w; run_model; branches; refs_solve Hk.
Qed.

Lemma delete_refs (commentId : string) (w : World) :
  refs_ok w -> refs_ok (world_after (commentModel.delete commentId w)).
Proof.
  intros Hk. unfold world_after. split_world w; run_model; branches; refs_solve Hk.
Qed.

Lemma deleteReply_refs (replyId : string) (w : World) :
  refs_ok w -> refs_ok (world_after (commentModel.deleteReply replyId w)).
Proof.
  intros Hk. unfold world_after. split_world w; run_model; branches; refs_solve Hk.
Qed.

Lemma findByJobId_refs
    (sorter : forall A : Type, (A -> A -> bool) -> list A -> list A)
    (jobId : string) (w : World) :
  refs_ok w -> refs_ok (world_after (commentModel.findByJobId sorter jobId w)).
Proof.
  intros Hk. unfold world_after. split_world w; run_model; branches; refs_solve Hk.
Qed.

Lemma findById_refs
    (sorter : forall A : Type, (A -> A -> bool) -> list A -> list A)
    (commentId : string) (w : World) :
  refs_ok w -> refs_ok (world_after (commentModel.findById sorter commentId w)).
Proof.
  intros Hk. unfold world_after. split_world w; run_model; branches; refs_solve Hk.
Qed.

Lemma findReplyById_refs (replyId : string) (w : World) :
  refs_ok w -> refs_ok (world_after (commentModel.findReplyById replyId w)).
Proof.
  intros Hk. unfold world_after. split_world w; run_model; branches; refs_solve Hk.
Qed.

(** X8: on every store a deployment reaches through [commentModel], from a
    store where ids are keys and every reply has its comment, ids are still
    keys and every reply still has its comment: [addReply] stores no reply
    to a comment that is absent, and [delete] leaves no reply behind, also
    when it fails half way. *)
Theorem reachable_integrity
    (sorter : forall A : Type, (A -> A -> bool) -> list A -> list A)
    (w w' : World) :
  reachable sorter w w' -> keys_ok_in w -> refs_ok w ->
  keys_ok_in w' /\ refs_ok w'.
Proof.
  intros Hreach Hk Hr. split; [eapply reachable_keys; eassumption|].
  unfold reachable in Hreach. revert w' Hreach.
  apply rtc_ind_r; [assumption|]. intros w1 w2 _ Hstep IH.
  inversion Hstep; subst.
  - now apply create_refs.
  - now apply addReply_refs.
  - now apply delete_refs.
  - now apply deleteReply_refs.
  - now apply findByJobId_refs.
  - now apply findById_refs.
  - now apply findReplyById_refs.
  - assumption.
Qed.

(** The demo deployment after a reply to the demo comment, the loss of the
    connection during the deletion of that comment, and a second attempt. *)
Lemma reachable_integrity_witness :
  let w1 := world_after (commentModel.addReply "c-A" reply_R2 demo_world) in
  let w2 := world_after (commentModel.delete "c-A"
                           (set_faults [false; false; true] w1)) in
  let w3 := world_after (commentModel.delete "c-A" w2) in
  (keys_ok_in w2 /\ refs_ok w2) /\ (keys_ok_in w3 /\ refs_ok w3).
Proof.
  assert (Hk : keys_ok_in demo_world).
  { repeat split; cbn; try apply NoDup_singleton.
    intros r [<-|[]]. discriminate. }
  assert (Hr : refs_ok demo_world).
  { intros r [<-|[]]. exists demo_comment. split; [now left | reflexivity]. }
  assert (H2 : reachable insertion_sort demo_world
                 (world_after (commentModel.delete "c-A"
                    (set_faults [false; false; true]
                       (world_after (commentModel.addReply "c-A" reply_R2
                                       demo_world)))))).
  { eapply rtc_l; [apply (step_addReply _ _ _ "c-A" reply_R2); discriminate|].
    eapply rtc_l; [apply (step_faults _ _ _ [false; false; true])|].
    apply rtc_once. apply step_delete. }
  split.
  - exact (reachable_integrity insertion_sort _ _ H2 Hk Hr).
  - refine (reachable_integrity insertion_sort demo_world _ _ Hk Hr).
    eapply rtc_r; [exact H2 | apply step_delete].
Defined.

(** ** Without the "Replies" table *)

Lemma findById_without_replies
    (sorter : forall A : Type, (A -> A -> bool) -> list A -> list A)
    (commentId : string) (w : World) :
  replies w = None ->
  exists w1 l,
    commentModel.findById sorter commentId w = (Ok None, w1, l)
    /\ replies w1 = None
    /\ default [] (comments w1) = default [] (comments w)
    /\ jobs w1 = jobs w /\ users w1 = users w.
Proof.
  intros Hrs. split_world w; try discriminate Hrs; run_model; branches;
    eexists _, _; repeat split.
Qed.

Lemma findByJobId_without_replies
    (sorter : forall A : Type, (A -> A -> bool) -> list A -> list A)
    (jobId : string) (w : World) :
  replies w = None ->
  exists w1 l,
    commentModel.findByJobId sorter jobId w = (Ok [], w1, l)
    /\ replies w1 = None
    /\ default [] (comments w1) = default [] (comments w).
Proof.
  intros Hrs. split_world w; try discriminate Hrs; run_model; branches;
    eexists _, _; repeat split.
Qed.

(** X9: no function on the way of [deleteComment], [addReply] or
    [getComments] creates the "Replies" table, and [findById] and
    [findByJobId], which read it, turn its absence into [null] and [[]].  So
    while that table is missing, whatever is stored and whatever faults
    occur, [deleteComment] answers 404 for every comment, [addReply] answers
    404 for every comment it is given content for, and [getComments] serves
    an empty list for every job that exists; the table is still missing
    afterwards and the stored comments are as before. *)
Theorem without_replies_table
    (sorter : forall A : Type, (A -> A -> bool) -> list A -> list A)
    `{Models} (req : Req) (w : World) :
  replies w = None ->
  (exists w' l,
      jobController.deleteComment sorter req w
      = (Ok (failure 404 "Comment not found"), w', l)
      /\ replies w' = None
      /\ default [] (comments w') = default [] (comments w))
  /\ (truthy (field req "content") = true ->
      exists w' l,
        jobController.addReply sorter req w
        = (Ok (failure 404 "Comment not found"), w', l)
        /\ replies w' = None
        /\ default [] (comments w') = default [] (comments w))
  /\ (forall job w1,
        jobModel_findById (params_jobId req) w = (Ok (Some job), w1) ->
        replies w1 = None ->
        exists w' l,
          jobController.getComments sorter req w
          = (Ok (mkResponse 200 (mkJson true None (PComments []) None None)), w', l)
          /\ replies w' = None
          /\ default [] (comments w') = default [] (comments w1)).
Proof.
  intros Hrs. split; [|split].
  - destruct (findById_without_replies sorter (params_commentId req) w Hrs)
      as (w1 & l & Hload & Hrs1 & Hcs1 & _).
    unfold jobController.deleteComment, try_catch, bind, ret. cbv beta.
    rewrite Hload. cbn. eauto.
  - intros Hcontent.
    destruct (findById_without_replies sorter (params_commentId req) w Hrs)
      as (w1 & l & Hload & Hrs1 & Hcs1 & _).
    unfold jobController.addReply, try_catch, bind, ret. cbv beta.
    rewrite Hcontent. cbn. rewrite Hload. cbn. eauto.
  - intros job w1 Hjob Hrs1.
    destruct (findByJobId_without_replies sorter (params_jobId req) w1 Hrs1)
      as (w2 & l & Hload & Hrs2 & Hcs2).
    unfold jobController.getComments, jobModel.findById, call,
      try_catch, bind, ret. cbv beta.
    rewrite Hjob. cbn. rewrite Hload. cbn. eauto.
Qed.

(** The demo deployment, had its "Replies" table never been created: Alice
    cannot delete her comment, nobody can reply to it, and it is not
    listed. *)
Lemma without_replies_table_witness :
  let w := set_replies None demo_world in
  let req := demo_req "alice" [("content", JStr "Still there?")] in
  status (match value (jobController.deleteComment insertion_sort req w) with
          | Ok resp => resp
          | Thrown _ => failure 0 EmptyString
          end) = 404
  /\ status (match value (jobController.addReply insertion_sort (H := spec_models)
                            req w) with
             | Ok resp => resp
             | Thrown _ => failure 0 EmptyString
             end) = 404
  /\ served_ids (match value (jobController.getComments insertion_sort
                                (H := spec_models) req w) with
                 | Ok resp => Some resp
                 | Thrown _ => None
                 end) = [].
Proof.
  cbv zeta.
  destruct (without_replies_table insertion_sort (H := spec_models)
              (demo_req "alice" [("content", JStr "Still there?")])
              (set_replies None demo_world) eq_refl)
    as ((w1 & l1 & H1 & _) & H2 & H3).
  destruct (H2 eq_refl) as (w2 & l2 & H2' & _).
  destruct (H3 demo_job (set_replies None demo_world) eq_refl eq_refl)
    as (w3 & l3 & H3' & _).
  unfold value. rewrite H1, H2', H3'. repeat split.
Defined.

(** ** Who adds a comment may delete it *)

Lemma filter_all {A : Type} (f : A -> bool) (l : list A) :
  (forall x, In x l -> f x = true) -> List.filter f l = l.
Proof.
  induction l as [|a l IH]; intros Hf; simpl; [reflexivity|].
  rewrite (Hf a) by now left. f_equal. apply IH. intros x Hx. apply Hf. now right.
Qed.

Lemma delete_healthy (commentId : string) (w : World) (cs : list CommentRow)
    (rs : list ReplyRow) :
  comments w = Some cs -> replies w = Some rs -> faults w = [] ->
  commentModel.delete commentId w
  = (Ok true,
     set_comments
       (Some (List.filter (fun c => negb (String.eqb (cr_id c) commentId)) cs))
       (set_replies
          (Some (List.filter (fun r => negb (String.eqb (rr_commentId r) commentId))
                             rs)) w),
     [DbQuery (TableExists Comments) false;
      DbQuery (DeleteRepliesOf commentId) false;
      DbQuery (DeleteComment commentId) false]).
Proof.
  destruct w as [cs0 rs0 js us fs]. cbn. intros -> -> ->.
  run_model. rewrite filter_idem. reflexivity.
Qed.

Section Authorship.

Variable sorter : forall A : Type, (A -> A -> bool) -> list A -> list A.
Context `{Models}.
Hypothesis reads : lookups_read.

(** X10: the author of a comment is whoever was authenticated when it was
    added, and the comment is stored before the author's name is looked up.
    Provided the lookups of [jobModel] and [userModel] are reads: when a
    request to add a comment with content to a job that [jobModel] finds
    reaches [commentModel.create] and the insertion returns a row, that row
    is the last of "Comments", after the rows stored before, it carries the
    caller as author and, as content, the text of the content given (that
    content itself, when it is a string), and the answer is 201 with that
    row, or 500 when the lookup of the caller's name throws, the row being
    stored all the same.  From then on, where table "Replies" exists and
    once no fault is scheduled, a request to delete that comment is answered
    200 when it comes from the same caller, the comments being again those
    stored before, and 403 when it comes from anyone else, the store being
    left as it is. *)
Theorem comment_author_may_delete (req : Req) (w w1 w2 : World) (job : Job)
    (saved : CommentRow) (l2 : list Call) :
  truthy (field req "content") = true ->
  jobModel_findById (params_jobId req) w = (Ok (Some job), w1) ->
  commentModel.create
    (mkCommentRow (uuidv4 req) (field req "content") (user_userId req)
                  (params_jobId req) (now req) (now req)) w1
  = (Ok saved, w2, l2) ->
  exists resp w' l,
    jobController.addComment req w = (Ok resp, w', l)
    /\ (status resp = 201 \/ status resp = 500)
    /\ (status resp = 201 ->
        exists userName userPhoto,
          payload (json resp) = PComment saved userName userPhoto)
    /\ (status resp = 500 <->
        exists e, fst (userModel_findById (Some (user_userId req)) w2) = Thrown e)
    /\ comments w' = Some (default [] (comments w) ++ [saved])
    /\ replies w' = replies w
    /\ cr_userId saved = user_userId req
    /\ (exists text,
          Sql.text_of (driver_text w1) (field req "content") = Some text
          /\ cr_content saved = JStr text)
    /\ (forall s, field req "content" = JStr s -> cr_content saved = JStr s)
    /\ forall rs req2,
         replies w = Some rs ->
         params_commentId req2 = cr_id saved ->
         exists resp2 w'' l2,
           jobController.deleteComment sorter req2 (set_faults [] w')
           = (Ok resp2, w'', l2)
           /\ (user_userId req2 = user_userId req ->
               status resp2 = 200
               /\ comments w'' = Some (default [] (comments w)))
           /\ (user_userId req2 <> user_userId req ->
               status resp2 = 403 /\ w'' = set_faults [] w').
Proof.
  intros Hcontent Hjob Hcreate.
  destruct reads as [Hjobs Husers].
  pose proof (Hjobs (params_jobId req) w) as Hsame. rewrite Hjob in Hsame.
  destruct Hsame as (Hcs1 & Hrs1 & _). cbn in Hcs1, Hrs1.
  set (new := mkCommentRow (uuidv4 req) (field req "content") (user_userId req)
                           (params_jobId req) (now req) (now req)) in *.
  pose proof (create_Ok _ _ _ _ _ Hcreate)
    as ((text & Htext & Hrow) & Hcs2 & Hrs2 & _ & _ & Hfresh).
  assert (Hsid : cr_id saved = uuidv4 req) by now rewrite Hrow.
  assert (Hsu : cr_userId saved = user_userId req) by now rewrite Hrow.
  assert (Hsc : cr_content saved = JStr text) by now rewrite Hrow.
  cbn [cr_content new] in Htext.
  rewrite Hsid in Hfresh.
  rewrite Hcs1 in Hcs2, Hfresh. rewrite Hrs1 in Hrs2.
  pose proof (Husers (Some (user_userId req)) w2) as Hsame.
  destruct (userModel_findById (Some (user_userId req)) w2) as [user w3] eqn:Huser.
  destruct Hsame as (Hcs3 & Hrs3 & _). cbn in Hcs3, Hrs3.
  rewrite Hcs2 in Hcs3. rewrite Hrs2 in Hrs3.
  assert (Hrun : exists resp l,
             jobController.addComment req w = (Ok resp, w3, l)
             /\ (status resp = 201 \/ status resp = 500)
             /\ (status resp = 201 ->
                 exists userName userPhoto,
                   payload (json resp) = PComment saved userName userPhoto)
             /\ (status resp = 500 <-> exists e, user = Thrown e)).
  { unfold jobController.addComment, jobModel.findById,
      userModel.findById, try_catch, bind, ret, call.
    rewrite Hcontent. cbn. rewrite Hjob. cbn. fold new. rewrite Hcreate. cbn.
    rewrite Huser. destruct user as [user|e]; cbn.
    - eexists _, _. split; [reflexivity|]. split; [now left|].
      split; [eauto|]. split; [discriminate | intros [e He]; discriminate].
    - eexists _, _. split; [reflexivity|]. split; [now right|].
      split; [discriminate|]. split; [eauto | reflexivity]. }
  destruct Hrun as (resp & l & Hrun & Hstatus & H201 & H500).
  eexists resp, w3, l. split; [exact Hrun|]. split; [exact Hstatus|].
  split; [exact H201|]. split; [exact H500|].
  split; [exact Hcs3|]. split; [exact Hrs3|]. split; [exact Hsu|].
  split; [eauto|].
  split.
  { intros s Hs. rewrite Hs in Htext. injection Htext as <-. exact Hsc. }
  intros rs req2 Hrs Hid. rewrite Hsid in Hid.
  rewrite Hrs in Hrs3.
  set (cs := default [] (comments w)) in *.
  assert (Hfound : List.filter (fun c' => String.eqb (cr_id c') (uuidv4 req))
                               (cs ++ [saved]) = [saved]).
  { apply (filter_snoc_fresh cr_id); [exact Hsid | exact Hfresh]. }
  assert (Hload := findById_healthy sorter (uuidv4 req) (set_faults [] w3) _ rs
                     saved [] Hcs3 Hrs3 eq_refl Hfound).
  unfold jobController.deleteComment, try_catch, bind, ret. cbv beta.
  rewrite Hid, Hload. cbn. rewrite Hsu.
  destruct (String.eqb (user_userId req) (user_userId req2)) eqn:Hsameuser; cbn.
  - rewrite (delete_healthy (uuidv4 req) (set_faults [] w3) _ rs Hcs3 Hrs3 eq_refl).
    cbn.
    eexists _, _, _. split; [reflexivity|]. split.
    + intros _. split; [reflexivity|]. cbn. f_equal.
      rewrite List.filter_app. cbn. rewrite Hsid, String.eqb_refl. cbn.
      rewrite app_nil_r. apply filter_all.
      intros c Hc. apply negb_true_iff.
      exact (existsb_false_In _ _ c Hfresh Hc).
    + intros Hne. apply String.eqb_eq in Hsameuser. congruence.
  - eexists _, _, _. split; [reflexivity|]. split.
    + intros Heq. apply String.eqb_neq in Hsameuser. congruence.
    + intros _. split; reflexivity.
Qed.

End Authorship.

Lemma spec_models_read : lookups_read (H := spec_models).
Proof. split; intros k w; repeat split. Qed.

(** Alice comments on the demo job of a deployment without comments; Bob may
    not delete her comment, she may. *)
Lemma comment_author_may_delete_witness :
  let req := scenario_req "alice" EmptyString "first" "c-A" 10 in
  let saved := mkCommentRow "c-A" (JStr "first") "alice" "job-J" 10 10 in
  exists resp w' l,
    jobController.addComment (H := spec_models) req fresh_world = (Ok resp, w', l)
    /\ status resp = 201
    /\ comments w' = Some [saved]
    /\ (exists resp2 w'' l2,
          jobController.deleteComment insertion_sort
            (scenario_req "bob" "c-A" EmptyString EmptyString 20) (set_faults [] w')
          = (Ok resp2, w'', l2)
          /\ status resp2 = 403 /\ w'' = set_faults [] w')
    /\ (exists resp2 w'' l2,
          jobController.deleteComment insertion_sort
            (scenario_req "alice" "c-A" EmptyString EmptyString 20) (set_faults [] w')
          = (Ok resp2, w'', l2)
          /\ status resp2 = 200 /\ comments w'' = Some []).
Proof.
  cbv zeta.
  destruct (comment_author_may_delete insertion_sort (H := spec_models)
              spec_models_read
              (scenario_req "alice" EmptyString "first" "c-A" 10)
              fresh_world fresh_world _ demo_job
              (mkCommentRow "c-A" (JStr "first") "alice" "job-J" 10 10) _
              eq_refl eq_refl eq_refl)
    as (resp & w' & l & Hrun & Hstatus & _ & H500 & Hstored & _ & _ & _ & _ & Hdelete).
  exists resp, w', l. split; [exact Hrun|]. split.
  { destruct Hstatus as [H201|Hs]; [exact H201|].
    apply H500 in Hs as [e He]. discriminate He. }
  split; [exact Hstored|]. split.
  - destruct (Hdelete [] (scenario_req "bob" "c-A" EmptyString EmptyString 20)
                eq_refl eq_refl) as (resp2 & w'' & l2 & Hrun2 & _ & Hother).
    exists resp2, w'', l2. split; [exact Hrun2|]. apply Hother. discriminate.
  - destruct (Hdelete [] (scenario_req "alice" "c-A" EmptyString EmptyString 20)
                eq_refl eq_refl) as (resp2 & w'' & l2 & Hrun2 & Hsame & _).
    exists resp2, w'', l2. split; [exact Hrun2|]. now apply Hsame.
Defined.

(** ** Every request is answered *)

Ltac run_handler :=
  repeat match goal with
         | |- context [match ?x with _ => _ end] =>
             lazymatch x with
             | context [match _ with _ => _ end] => fail
             | _ => destruct x eqn:?; cbn
             end
         end.

Ltac envelope_solve :=
  unfold envelope; cbn;
  solve [ left; intuition congruence
        | right; left; intuition congruence
        | right; right; intuition congruence ].

Ltac answered :=
  eexists _, _, _; split; [reflexivity | envelope_solve].

Section Answers.

Variable sorter : forall A : Type, (A -> A -> bool) -> list A -> list A.
Context `{Models}.
Variable parseFloat : JsVal -> float.

Lemma createJob_answers (req : Req) (w : World) :
  exists resp w' l,
    jobController.createJob parseFloat req w = (Ok resp, w', l) /\ envelope resp.
Proof.
  unfold jobController.createJob, jobModel.create, userModel.findById,
    try_catch, bind, ret, call.
  run_handler; answered.
Qed.

Lemma getJobById_answers (req : Req) (w : World) :
  exists resp w' l,
    jobController_jobs.getJobById req w = (Ok resp, w', l) /\ envelope resp.
Proof.
  unfold jobController_jobs.getJobById, jobModel.findById, userModel.findById,
    try_catch, bind, ret, call.
  run_handler; answered.
Qed.

Lemma updateJob_answers (req : Req) (w : World) :
  exists resp w' l,
    jobController.updateJob parseFloat req w = (Ok resp, w', l) /\ envelope resp.
Proof.
  unfold jobController.updateJob, jobModel.findById, jobModel.update,
    userModel.findById, try_catch, bind, ret, call.
  run_handler; answered.
Qed.

Lemma deleteJob_answers (req : Req) (w : World) :
  exists resp w' l,
    jobController.deleteJob req w = (Ok resp, w', l) /\ envelope resp.
Proof.
  unfold jobController.deleteJob, jobModel.findById, jobModel.delete,
    try_catch, bind, ret, call.
  run_handler; answered.
Qed.

Lemma addComment_answers (req : Req) (w : World) :
  exists resp w' l,
    jobController.addComment req w = (Ok resp, w', l) /\ envelope resp.
Proof.
  unfold jobController.addComment, jobModel.findById, userModel.findById,
    try_catch, bind, ret, call.
  run_handler; answered.
Qed.

Lemma getComments_answers (req : Req) (w : World) :
  exists resp w' l,
    jobController.getComments sorter req w = (Ok resp, w', l) /\ envelope resp.
Proof.
  unfold jobController.getComments, jobModel.findById,
    try_catch, bind, ret, call.
  run_handler; answered.
Qed.

Lemma deleteComment_answers (req : Req) (w : World) :
  exists resp w' l,
    jobController.deleteComment sorter req w = (Ok resp, w', l) /\ envelope resp.
Proof.
  unfold jobController.deleteComment, try_catch, bind, ret.
  run_handler; answered.
Qed.

Lemma addReply_answers (req : Req) (w : World) :
  exists resp w' l,
    jobController.addReply sorter req w = (Ok resp, w', l) /\ envelope resp.
Proof.
  unfold jobController.addReply, userModel.findById, try_catch, bind, ret, call.
  run_handler; answered.
Qed.

Lemma deleteReply_answers (req : Req) (w : World) :
  exists resp w' l,
    jobController.deleteReply req w = (Ok resp, w', l) /\ envelope resp.
Proof.
  unfold jobController.deleteReply, try_catch, bind, ret.
  run_handler; answered.
Qed.

(** X11: no handler lets an [Error] escape.  What a query, [jobModel] or
    [userModel] throws is taken to be an [Error] object (a rejection with
    [undefined] or [null], on which reading [error.message] would throw in
    the [catch] branch, is outside the model).  Then, whatever the request,
    the store, the faults and the behaviour of [jobModel] and [userModel],
    each of [createJob], [getJobById], [updateJob], [deleteJob],
    [addComment], [getComments], [deleteComment], [addReply] and
    [deleteReply] settles with an answer, and the answer has the envelope of
    the interface: status 200
    or 201 with [success] true and no [error]; or 400, 403 or 404 with
    [success] false, a [message], no resource and no [error]; or 500 with
    [success] false, a [message], no resource and the [error] text. *)
Theorem every_request_is_answered (req : Req) (w : World) :
  Forall (fun handler : M Response =>
            exists resp w' l, handler w = (Ok resp, w', l) /\ envelope resp)
         [ jobController.createJob parseFloat req;
           jobController_jobs.getJobById req;
           jobController.updateJob parseFloat req;
           jobController.deleteJob req;
           jobController.addComment req;
           jobController.getComments sorter req;
           jobController.deleteComment sorter req;
           jobController.addReply sorter req;
           jobController.deleteReply req ].
Proof.
  repeat constructor;
    auto using createJob_answers, getJobById_answers, updateJob_answers,
      deleteJob_answers, addComment_answers, getComments_answers,
      deleteComment_answers, addReply_answers, deleteReply_answers.
Qed.

End Answers.

(** ** The read handlers leave the rows alone *)

Lemma keeps_rows_ret {A : Type} (a : A) : keeps_rows (ret a).
Proof. intros w. split; reflexivity. Qed.

Lemma creates_comments_at_most_app (l1 l2 : list Call) :
  creates_comments_at_most l1 = true -> creates_comments_at_most l2 = true ->
  creates_comments_at_most (l1 ++ l2) = true.
Proof.
  unfold creates_comments_at_most. intros H1 H2. rewrite forallb_app, H1, H2.
  reflexivity.
Qed.

Lemma keeps_rows_bind {A B : Type} (m : M A) (k : A -> M B) :
  keeps_rows m -> (forall a, keeps_rows (k a)) -> keeps_rows (bind m k).
Proof.
  intros Hm Hk w. specialize (Hm w). unfold world_after, calls, bind in *.
  destruct (m w) as [[[a|e] w1] l1]; cbn in *; [|exact Hm].
  specialize (Hk a w1). destruct (k a w1) as [[r w2] l2]. cbn in *.
  destruct Hm as [Hm1 Hm2], Hk as [Hk1 Hk2]. split; [congruence|].
  now apply creates_comments_at_most_app.
Qed.

Lemma keeps_rows_try_catch {A : Type} (m : M A) (h : Error -> M A) :
  keeps_rows m -> (forall e, keeps_rows (h e)) -> keeps_rows (try_catch m h).
Proof.
  intros Hm Hh w. specialize (Hm w). unfold world_after, calls, try_catch in *.
  destruct (m w) as [[[a|e] w1] l1]; cbn in *; [exact Hm|].
  specialize (Hh e w1). destruct (h e w1) as [[r w2] l2]. cbn in *.
  destruct Hm as [Hm1 Hm2], Hh as [Hh1 Hh2]. split; [congruence|].
  now apply creates_comments_at_most_app.
Qed.

Lemma keeps_rows_mapM {A B : Type} (f : A -> M B) (xs : list A) :
  (forall x, keeps_rows (f x)) -> keeps_rows (mapM f xs).
Proof.
  intros Hf. induction xs as [|x xs IH]; simpl; [apply keeps_rows_ret|].
  apply keeps_rows_bind; [apply Hf|]. intros y.
  apply keeps_rows_bind; [apply IH|]. intros ys. apply keeps_rows_ret.
Qed.

Lemma keeps_rows_findByJobId
    (sorter : forall A : Type, (A -> A -> bool) -> list A -> list A)
    (jobId : string) :
  keeps_rows (commentModel.findByJobId sorter jobId).
Proof.
  intros w. unfold world_after, calls, rows_of.
  split_world w; run_model; split; reflexivity.
Qed.

Section Reads.

Variable sorter : forall A : Type, (A -> A -> bool) -> list A -> list A.
Context `{Models}.
Hypothesis reads : lookups_read.

Lemma keeps_rows_jobModel_findById (jobId : string) :
  keeps_rows (jobModel.findById jobId).
Proof.
  intros w. destruct reads as [Hjobs _]. specialize (Hjobs jobId w).
  unfold world_after, calls, rows_of, jobModel.findById, call.
  destruct (jobModel_findById jobId w) as [r w1]. cbn in *.
  destruct Hjobs as (-> & -> & _). split; reflexivity.
Qed.

Lemma keeps_rows_userModel_findById (userId : option string) :
  keeps_rows (userModel.findById userId).
Proof.
  intros w. destruct reads as [_ Husers]. specialize (Husers userId w).
  unfold world_after, calls, rows_of, userModel.findById, call.
  destruct (userModel_findById userId w) as [r w1]. cbn in *.
  destruct Husers as (-> & -> & _). split; reflexivity.
Qed.

Lemma keeps_rows_enrich_comment (c : Comment) :
  keeps_rows (jobController.enrich_comment c).
Proof.
  unfold jobController.enrich_comment.
  apply keeps_rows_bind; [apply keeps_rows_userModel_findById|]. intros user.
  apply keeps_rows_bind; [|intros ers; apply keeps_rows_ret].
  destruct (c_replies c); [apply keeps_rows_ret|].
  apply keeps_rows_mapM. intros x. unfold jobController.enrich_reply.
  apply keeps_rows_bind; [apply keeps_rows_userModel_findById|].
  intros u. apply keeps_rows_ret.
Qed.

(** X12: serving comments or a job changes no row.  Provided the lookups of
    [jobModel] and [userModel] are reads, [getComments] and [getJobById]
    leave the rows of both tables as they are, whatever faults occur;
    [getJobById] makes no write at all, and the one write [getComments] can
    make is the creation of table "Comments", which it does make when asked
    for the comments of an existing job before that table exists. *)
Theorem read_handlers_keep_rows (req : Req) :
  keeps_rows (jobController.getComments sorter req)
  /\ keeps_rows (jobController_jobs.getJobById req)
  /\ (forall w, read_only (calls (jobController_jobs.getJobById req w)) = true)
  /\ (forall w job w1,
        jobModel_findById (params_jobId req) w = (Ok (Some job), w1) ->
        comments w = None -> faults w = [] ->
        In (DbQuery (CreateTable Comments) false)
           (calls (jobController.getComments sorter req w))).
Proof.
  split; [|split; [|split]].
  - unfold jobController.getComments.
    apply keeps_rows_try_catch; [|intros e; apply keeps_rows_ret].
    apply keeps_rows_bind; [apply keeps_rows_jobModel_findById|].
    intros [job|]; [|apply keeps_rows_ret].
    apply keeps_rows_bind; [apply keeps_rows_findByJobId|]. intros out.
    apply keeps_rows_bind; [|intros served; apply keeps_rows_ret].
    apply keeps_rows_mapM. apply keeps_rows_enrich_comment.
  - unfold jobController_jobs.getJobById.
    apply keeps_rows_try_catch; [|intros e; apply keeps_rows_ret].
    apply keeps_rows_bind; [apply keeps_rows_jobModel_findById|].
    intros [job|]; [|apply keeps_rows_ret].
    apply keeps_rows_bind; [apply keeps_rows_userModel_findById|].
    intros user. apply keeps_rows_ret.
  - intros w.
    unfold jobController_jobs.getJobById, jobModel.findById, userModel.findById,
      try_catch, bind, ret, call, calls.
    run_handler; reflexivity.
  - intros w job w1 Hjob Hcs Hfs.
    destruct reads as [Hjobs Husers].
    pose proof (Hjobs (params_jobId req) w) as Hsame. rewrite Hjob in Hsame.
    destruct Hsame as (Hcs1 & Hrs1 & Hfs1). cbn in Hcs1, Hrs1, Hfs1.
    rewrite Hcs in Hcs1. rewrite Hfs in Hfs1.
    assert (Hload : exists out l,
               commentModel.findByJobId sorter (params_jobId req) w1
               = (Ok out, set_comments (Some []) w1, l)
               /\ In (DbQuery (CreateTable Comments) false) l).
    { destruct w1 as [cs1 rs1 js1 us1 fs1]. cbn in Hcs1, Hfs1. subst.
      destruct rs1; run_model; eexists _, _; (split; [reflexivity|]);
        cbn; auto. }
    destruct Hload as (out & l & Hload & Hin).
    unfold jobController.getComments, jobModel.findById, call,
      try_catch, bind, ret, calls. cbv beta.
    rewrite Hjob. cbn. rewrite Hload. cbn.
    destruct (mapM jobController.enrich_comment out (set_comments (Some []) w1))
      as [[[served|e] w3] l3]; cbn; right; rewrite !in_app_iff; auto.
Qed.

End Reads.

(** The demo deployment serves Bob the comments of the demo job. *)
Lemma read_handlers_keep_rows_witness :
  rows_of (world_after (jobController.getComments insertion_sort (H := spec_models)
                          (demo_req "bob" []) demo_world))
  = rows_of demo_world.
Proof.
  apply (proj1 (read_handlers_keep_rows insertion_sort (H := spec_models)
                  spec_models_read (demo_req "bob" []))).
Defined.

(** ** Listing the jobs *)

Lemma filter_of_lookup (query : gmap string JsVal) (k : string) :
  jobController_jobs.filter_of query !! k =
  if has_key k filterable && truthy (default JUndefined (query !! k))
  then query !! k
  else None.
Proof.
  unfold jobController_jobs.filter_of. cbv zeta.
  rewrite !lookup_cond_insert, lookup_empty.
  unfold filterable. rewrite !has_key_cons.
  rewrite !(String.eqb_sym k).
  destruct (String.eqb_spec "search" k) as [<-|];
    [cbn; destruct (query !! "search"); reflexivity|].
  destruct (String.eqb_spec "status" k) as [<-|];
    [cbn; destruct (query !! "status"); reflexivity|].
  destruct (String.eqb_spec "category" k) as [<-|];
    [cbn; destruct (query !! "category"); reflexivity|].
  reflexivity.
Qed.

(** X13: the filter [getAllJobs] hands to [jobModel.findAll] holds a member
    exactly when it is one of category, status, search and its value in the
    query is truthy (an empty [?category=] is no filter), with the value of
    the query; so two queries that agree on these three members get the same
    answer, whatever else they carry. *)
Theorem getAllJobs_filter `{Models}
    (jobModel_findAll : gmap string JsVal -> World -> Res (list Job) * World)
    (query : gmap string JsVal) :
  (forall k,
      jobController_jobs.filter_of query !! k =
      if has_key k filterable && truthy (default JUndefined (query !! k))
      then query !! k
      else None)
  /\ (forall query',
        (forall k, In k filterable -> query' !! k = query !! k) ->
        jobController_jobs.getAllJobs jobModel_findAll query'
        = jobController_jobs.getAllJobs jobModel_findAll query).
Proof.
  split; [apply filter_of_lookup|].
  intros query' Hsame.
  assert (Hfilter : jobController_jobs.filter_of query'
                    = jobController_jobs.filter_of query).
  { unfold jobController_jobs.filter_of.
    rewrite !Hsame by (cbn; auto). reflexivity. }
  unfold jobController_jobs.getAllJobs. cbv zeta. now rewrite Hfilter.
Qed.

(** Job [job] as served, with the name and photo of [user]. *)
Lemma mapM_with_user `{Models} (Hread : users_read) (found : list Job) (w : World) :
  match mapM jobController_jobs.with_user found w with
  | (Ok served, w', l) =>
      w' = w
      /\ l = map (fun job => UserFindById (Some (j_userId job))) found
      /\ Forall2 (fun job s =>
                    exists user,
                      fst (userModel_findById (Some (j_userId job)) w) = Ok user
                      /\ s = mkJobWithUser job (userName_of user) (userPhoto_of user))
                 found served
  | (Thrown e, w', l) =>
      w' = w
      /\ exists job, In job found
           /\ fst (userModel_findById (Some (j_userId job)) w) = Thrown e
  end.
Proof.
  induction found as [|job found IH]; simpl.
  - unfold ret. repeat split. constructor.
  - unfold bind at 1. unfold jobController_jobs.with_user at 1.
    unfold bind at 1. unfold userModel.findById, call.
    pose proof (Hread (Some (j_userId job)) w) as Hsame.
    destruct (userModel_findById (Some (j_userId job)) w) as [[user|e] w1] eqn:Hu;
      cbn in Hsame; subst w1; cbn.
    + unfold bind.
      destruct (mapM jobController_jobs.with_user found w) as [[[served|e] w2] l2];
        cbn.
      * destruct IH as (-> & -> & Hall). split; [reflexivity|].
        split; [now rewrite ?app_nil_r|]. constructor; [|exact Hall].
        exists user. rewrite Hu. split; reflexivity.
      * destruct IH as (-> & job' & Hin & He). split; [reflexivity|].
        exists job'. split; [now right | exact He].
    + split; [reflexivity|]. exists job. split; [now left|]. now rewrite Hu.
Qed.

(** X14: provided the lookup of a user leaves the store as it is,
    [getAllJobs] serves the jobs [jobModel.findAll] found exactly when the
    lookup of every owner resolves: the answer is then 200 with all of them,
    in the same order, each with the name and the photo of its owner added
    (or 'Usuario desconocido' and no photo for an owner that is not found),
    after one lookup per job.  When the lookup of some owner throws, the
    answer is 500 with the message of such a lookup and carries no job; so
    it is when [findAll] throws, with its message and no lookup at all. *)
Theorem getAllJobs_serves_found `{Models}
    (jobModel_findAll : gmap string JsVal -> World -> Res (list Job) * World)
    (query : gmap string JsVal) (w : World) :
  users_read ->
  match jobModel_findAll (jobController_jobs.filter_of query) w with
  | (Ok found, w1) =>
      let owner job := fst (userModel_findById (Some (j_userId job)) w1) in
      (Forall (fun job => exists user, owner job = Ok user) found ->
       exists served,
         jobController_jobs.getAllJobs jobModel_findAll query w
         = (Ok (mkJobsResponse 200 (mkJobsJson true None (Some served) None)), w1,
            map (fun job => UserFindById (Some (j_userId job))) found)
         /\ Forall2 (fun job s =>
                       exists user,
                         owner job = Ok user
                         /\ s = mkJobWithUser job (userName_of user)
                                              (userPhoto_of user))
                    found served)
      /\ (Exists (fun job => exists e, owner job = Thrown e) found ->
          exists job e l,
            In job found /\ owner job = Thrown e
            /\ jobController_jobs.getAllJobs jobModel_findAll query w
               = (Ok (mkJobsResponse 500
                        (mkJobsJson false (Some "Error getting jobs") None
                                    (Some (e_message e)))), w1, l))
  | (Thrown e, w1) =>
      jobController_jobs.getAllJobs jobModel_findAll query w
      = (Ok (mkJobsResponse 500
               (mkJobsJson false (Some "Error getting jobs") None
                           (Some (e_message e)))), w1, [])
  end.
Proof.
  intros Hread.
  unfold jobController_jobs.getAllJobs, jobController_jobs.findAll,
    try_catch, bind, ret. cbv zeta beta.
  destruct (jobModel_findAll (jobController_jobs.filter_of query) w)
    as [[found|e] w1]; [|reflexivity].
  pose proof (mapM_with_user Hread found w1) as Hmap.
  destruct (mapM jobController_jobs.with_user found w1) as [[[served|e] w2] l2];
    cbn.
  - destruct Hmap as (-> & -> & Hall). split.
    + intros _. exists served. split; [now rewrite ?app_nil_r | exact Hall].
    + intros Hex. exfalso. apply List.Exists_exists in Hex as (job & Hin & e & He).
      clear - Hall Hin He. induction Hall as [|j s js ss (user & Hu & _) _ IH].
      * destruct Hin.
      * destruct Hin as [<-|Hin]; [congruence | now apply IH].
  - destruct Hmap as (-> & job & Hin & He). split.
    + intros Hall. exfalso. rewrite List.Forall_forall in Hall.
      destruct (Hall job Hin) as [user Hu]. congruence.
    + intros _. exists job, e. eexists. split; [exact Hin|]. split; [exact He|].
      reflexivity.
Qed.

Lemma spec_users_read : users_read (H := spec_models).
Proof. intros userId w. reflexivity. Qed.

(** The jobs of the demo deployment, served with their owners. *)
Lemma getAllJobs_serves_found_witness :
  jobController_jobs.getAllJobs (H := spec_models) (fun _ w => (Ok (jobs w), w))
    ∅ demo_world
  = (Ok (mkJobsResponse 200
           (mkJobsJson true None (Some [mkJobWithUser demo_job "Alice" None]) None)),
     demo_world, [UserFindById (Some "alice")]).
Proof.
  pose proof (getAllJobs_serves_found (H := spec_models)
                (fun _ w => (Ok (jobs w), w)) ∅ demo_world spec_users_read)
    as [Hserved _].
  destruct Hserved as (served & Hrun & Hall).
  { repeat constructor. eexists. reflexivity. }
  rewrite Hrun. f_equal. f_equal.
  apply Forall2_cons_inv_l in Hall as (s & ss & (user & Hu & ->) & Hrest & ->).
  apply Forall2_nil_inv_l in Hrest as ->.
  injection Hu as <-. reflexivity.
Defined.

(** ** What [createJob] creates *)

(** X15: [createJob] calls [jobModel.create] at most once, as its first call
    and only write, and only with a truthy title, description, budget and
    category; the job it asks for is owned by the authenticated caller
    (nothing in the body can name another owner), its skills are always an
    array (the body's when that is one, else the empty one) and its budget
    is [parseFloat] of the body's.  When [jobModel.create] throws, the answer
    is 500 with the text of the error, and names the column when the error
    is a not-null violation (code 23502). *)
Theorem createJob_creates_for_caller `{Models} (parseFloat : JsVal -> float)
    (req : Req) (w : World) :
  (exists resp w' l,
      jobController.createJob parseFloat req w = (Ok resp, w', l)
      /\ ((l = [] /\ status resp = 400 /\ w' = w)
          \/ exists d rest,
               l = JobCreate d :: rest /\ read_only rest = true
               /\ d = mkJobData (field req "title") (field req "description")
                                (parseFloat (field req "budget"))
                                (field req "category")
                                (if isArray (field req "skills")
                                 then field req "skills" else JArr [])
                                (user_userId req)
               /\ Forall (fun name => truthy (field req name) = true) required
               /\ isArray (jd_skills d) = true
               /\ (status resp = 201 \/ status resp = 500)))
  /\ (forall d e w1,
        Forall (fun name => truthy (field req name) = true) required ->
        d = mkJobData (field req "title") (field req "description")
                      (parseFloat (field req "budget")) (field req "category")
                      (if isArray (field req "skills")
                       then field req "skills" else JArr [])
                      (user_userId req) ->
        jobModel_create d w = (Thrown e, w1) ->
        exists resp,
          jobController.createJob parseFloat req w = (Ok resp, w1, [JobCreate d])
          /\ status resp = 500
          /\ error (json resp) = Some (e_message e)
          /\ message (json resp)
             = Some (if bool_decide (e_code e = Some "23502")
                     then "Required field " +:+ double_quote
                          +:+ default "undefined" (e_column e)
                          +:+ double_quote +:+ " cannot be null"
                     else "Error creating job")).
Proof.
  split.
  - unfold jobController.createJob, jobModel.create, userModel.findById,
      try_catch, bind, ret, call.
    destruct (truthy (field req "title")) eqn:Ht; cbn; [|eauto 10].
    destruct (truthy (field req "description")) eqn:Hd; cbn; [|eauto 10].
    destruct (truthy (field req "budget")) eqn:Hb; cbn; [|eauto 10].
    destruct (truthy (field req "category")) eqn:Hc; cbn; [|eauto 10].
    assert (Harr : isArray (if isArray (field req "skills")
                            then field req "skills" else JArr []) = true).
    { destruct (isArray (field req "skills")) eqn:Hs; [exact Hs | reflexivity]. }
    assert (Hreq : Forall (fun name => truthy (field req name) = true) required).
    { repeat constructor; assumption. }
    destruct (jobModel_create _ w) as [[job|e] w1]; cbn.
    + destruct (userModel_findById _ w1) as [[user|e] w2]; cbn;
        eexists _, _, _; (split; [reflexivity|]); right;
        eexists _, _; (split; [reflexivity|]); cbn; auto 10.
    + eexists _, _, _. split; [reflexivity|]. right.
      eexists _, _. split; [reflexivity|]. cbn. auto 10.
  - intros d e w1 Hreq -> Hcreate.
    unfold required in Hreq.
    inversion Hreq as [|? ? Ht Hreq1]; subst.
    inversion Hreq1 as [|? ? Hd Hreq2]; subst.
    inversion Hreq2 as [|? ? Hb Hreq3]; subst.
    inversion Hreq3 as [|? ? Hc _]; subst.
    unfold jobController.createJob, jobModel.create, userModel.findById,
      try_catch, bind, ret, call.
    rewrite Ht, Hd, Hb, Hc. cbn. rewrite Hcreate. cbn.
    eexists. split; [reflexivity|]. cbn.
    destruct (bool_decide (e_code e = Some "23502")); auto.
Qed.

(** ** Content first, then the parent *)

Lemma findById_unknown
    (sorter : forall A : Type, (A -> A -> bool) -> list A -> list A)
    (commentId : string) (w : World) :
  (forall c, In c (default [] (comments w)) -> cr_id c <> commentId) ->
  exists w1 l,
    commentModel.findById sorter commentId w = (Ok None, w1, l)
    /\ rows_of w1 = rows_of w
    /\ creates_comments_at_most l = true.
Proof.
  intros Hno. unfold rows_of.
  split_world w; cbn in Hno; run_model;
    rewrite ?(filter_none (fun c => String.eqb (cr_id c) commentId) cs)
      by (intros c Hc; apply String.eqb_neq; auto);
    cbn; eexists _, _; repeat split.
Qed.

(** X16: [addComment] and [addReply] check the content before they look for
    the job or the comment: falsy content is answered 400 without a single
    call, also when the parent does not exist.  With content, a comment on a
    job that [jobModel] does not find, like a request for the comments of
    such a job, is answered 404 after that one lookup, without a query on
    the tables; and a reply to a comment that is not stored is answered 404
    with the rows of both tables as they were. *)
Theorem content_first_then_parent
    (sorter : forall A : Type, (A -> A -> bool) -> list A -> list A)
    `{Models} (req : Req) (w : World) :
  (truthy (field req "content") = false ->
   jobController.addComment req w
   = (Ok (failure 400 "Comment content is required"), w, [])
   /\ jobController.addReply sorter req w
      = (Ok (failure 400 "Reply content is required"), w, []))
  /\ (forall w1,
        jobModel_findById (params_jobId req) w = (Ok None, w1) ->
        (truthy (field req "content") = true ->
         jobController.addComment req w
         = (Ok (failure 404 "Job not found"), w1, [JobFindById (params_jobId req)]))
        /\ jobController.getComments sorter req w
           = (Ok (failure 404 "Job not found"), w1,
              [JobFindById (params_jobId req)]))
  /\ (truthy (field req "content") = true ->
      (forall c, In c (default [] (comments w)) -> cr_id c <> params_commentId req) ->
      exists w' l,
        jobController.addReply sorter req w
        = (Ok (failure 404 "Comment not found"), w', l)
        /\ rows_of w' = rows_of w
        /\ creates_comments_at_most l = true).
Proof.
  split; [|split].
  - intros Hcontent.
    unfold jobController.addComment, jobController.addReply, try_catch, bind, ret.
    cbv beta zeta. rewrite Hcontent. split; reflexivity.
  - intros w1 Hjob. split.
    + intros Hcontent.
      unfold jobController.addComment, jobModel.findById, call,
        try_catch, bind, ret. cbv beta zeta.
      rewrite Hcontent. cbn. rewrite Hjob. reflexivity.
    + unfold jobController.getComments, jobModel.findById, call,
        try_catch, bind, ret. cbv beta zeta.
      rewrite Hjob. reflexivity.
  - intros Hcontent Hno.
    destruct (findById_unknown sorter (params_commentId req) w Hno)
      as (w1 & l & Hload & Hrows & Hlog).
    unfold jobController.addReply, try_catch, bind, ret. cbv beta zeta.
    rewrite Hcontent. cbn. rewrite Hload. cbn. rewrite app_nil_r. eauto.
Qed.

(** ** Who adds a reply may delete it *)

Lemma deleteReply_healthy (replyId : string) (w : World) (rs : list ReplyRow) :
  replies w = Some rs -> faults w = [] ->
  commentModel.deleteReply replyId w
  = (Ok true,
     set_replies
       (Some (List.filter (fun r => negb (String.eqb (rr_id r) replyId)) rs)) w,
     [DbQuery (TableExists Replies) false; DbQuery (DeleteReply replyId) false]).
Proof.
  destruct w as [cs0 rs0 js us fs]. cbn. intros -> ->. reflexivity.
Qed.

Section ReplyAuthorship.

Variable sorter : forall A : Type, (A -> A -> bool) -> list A -> list A.
Context `{Models}.
Hypothesis reads : lookups_read.

(** X17: the author of a reply is whoever was authenticated when it was
    added.  Provided the lookups of [jobModel] and [userModel] are reads:
    when a request to reply with content finds its comment and the
    insertion by [commentModel.addReply] returns a row, that row is the last
    of "Replies", after the replies stored before, it is filed under the
    comment of the request and carries the caller as author and, as
    content, the text of the content given (that content itself, when it is
    a string), the comments are as before, and the answer is 201 with that
    row, or 500 when the lookup of the caller's name throws, the row being
    stored all the same.  From then on, once no fault is scheduled, a
    request to delete that reply is answered 200 when it comes from the same
    caller, the replies being again those stored before and the comments
    untouched, and 403 when it comes from anyone else, the store being left
    as it is. *)
Theorem reply_author_may_delete (req : Req) (w w1 w2 : World)
    (found : CommentRow * list ReplyRow) (saved : ReplyRow) (l1 l2 : list Call) :
  truthy (field req "content") = true ->
  commentModel.findById sorter (params_commentId req) w = (Ok (Some found), w1, l1) ->
  commentModel.addReply (params_commentId req)
    (mkReplyRow (uuidv4 req) (field req "content") (user_userId req)
                (params_commentId req) (now req) (now req)) w1
  = (Ok saved, w2, l2) ->
  exists resp w' l,
    jobController.addReply sorter req w = (Ok resp, w', l)
    /\ (status resp = 201 \/ status resp = 500)
    /\ (status resp = 201 ->
        exists userName userPhoto,
          payload (json resp) = PReply saved userName userPhoto)
    /\ (status resp = 500 <->
        exists e, fst (userModel_findById (Some (user_userId req)) w2) = Thrown e)
    /\ replies w' = Some (default [] (replies w) ++ [saved])
    /\ comments w' = comments w
    /\ rr_userId saved = user_userId req
    /\ rr_commentId saved = params_commentId req
    /\ (exists text,
          Sql.text_of (driver_text w1) (field req "content") = Some text
          /\ rr_content saved = JStr text)
    /\ (forall s, field req "content" = JStr s -> rr_content saved = JStr s)
    /\ forall req2,
         params_replyId req2 = rr_id saved ->
         exists resp2 w'' l2,
           jobController.deleteReply req2 (set_faults [] w') = (Ok resp2, w'', l2)
           /\ (user_userId req2 = user_userId req ->
               status resp2 = 200
               /\ replies w'' = Some (default [] (replies w))
               /\ comments w'' = comments w)
           /\ (user_userId req2 <> user_userId req ->
               status resp2 = 403 /\ w'' = set_faults [] w').
Proof.
  intros Hcontent Hload Hadd.
  destruct reads as [_ Husers].
  destruct found as [comment replyRows].
  destruct (findById_Some _ _ _ _ _ _ _ Hload) as (_ & _ & Hcs1 & Hrs1 & _).
  set (new := mkReplyRow (uuidv4 req) (field req "content") (user_userId req)
                         (params_commentId req) (now req) (now req)) in *.
  pose proof (addReply_Ok _ _ _ _ _ _ Hadd)
    as ((text & Htext & Hrow) & Hrs2 & Hcs2 & _ & _ & Hfresh & _).
  assert (Hsid : rr_id saved = uuidv4 req) by now rewrite Hrow.
  assert (Hsu : rr_userId saved = user_userId req) by now rewrite Hrow.
  assert (Hsp : rr_commentId saved = params_commentId req) by now rewrite Hrow.
  assert (Hsc : rr_content saved = JStr text) by now rewrite Hrow.
  cbn [rr_content new] in Htext.
  rewrite Hsid in Hfresh.
  rewrite Hrs1 in Hrs2, Hfresh. rewrite Hcs1 in Hcs2.
  pose proof (Husers (Some (user_userId req)) w2) as Hsame.
  destruct (userModel_findById (Some (user_userId req)) w2) as [user w3] eqn:Huser.
  destruct Hsame as (Hcs3 & Hrs3 & _). cbn in Hcs3, Hrs3.
  rewrite Hcs2 in Hcs3. rewrite Hrs2 in Hrs3.
  assert (Hrun : exists resp l,
             jobController.addReply sorter req w = (Ok resp, w3, l)
             /\ (status resp = 201 \/ status resp = 500)
             /\ (status resp = 201 ->
                 exists userName userPhoto,
                   payload (json resp) = PReply saved userName userPhoto)
             /\ (status resp = 500 <-> exists e, user = Thrown e)).
  { unfold jobController.addReply, userModel.findById, try_catch, bind, ret, call.
    cbv beta zeta. rewrite Hcontent. cbn. rewrite Hload. cbn. fold new.
    rewrite Hadd. cbn. rewrite Huser. destruct user as [user|e]; cbn.
    - eexists _, _. split; [reflexivity|]. split; [now left|].
      split; [eauto|]. split; [discriminate | intros [e He]; discriminate].
    - eexists _, _. split; [reflexivity|]. split; [now right|].
      split; [discriminate|]. split; [eauto | reflexivity]. }
  destruct Hrun as (resp & l & Hrun & Hstatus & H201 & H500).
  exists resp, w3, l. split; [exact Hrun|]. split; [exact Hstatus|].
  split; [exact H201|]. split; [exact H500|].
  split; [exact Hrs3|]. split; [exact Hcs3|]. split; [exact Hsu|].
  split; [exact Hsp|]. split; [eauto|].
  split.
  { intros s Hs. rewrite Hs in Htext. injection Htext as <-. exact Hsc. }
  intros req2 Hid2. rewrite Hsid in Hid2.
  set (rs := default [] (replies w)) in *.
  assert (Hfound : List.filter (fun r' => String.eqb (rr_id r') (uuidv4 req))
                               (rs ++ [saved]) = [saved]).
  { apply (filter_snoc_fresh rr_id); [exact Hsid | exact Hfresh]. }
  assert (Hfind := findReplyById_healthy (uuidv4 req) (set_faults [] w3) _ saved []
                     Hrs3 eq_refl Hfound).
  unfold jobController.deleteReply, try_catch, bind, ret. cbv beta zeta.
  rewrite Hid2, Hfind. cbn. rewrite Hsu.
  destruct (String.eqb (user_userId req) (user_userId req2)) eqn:Hsameuser; cbn.
  - rewrite (deleteReply_healthy (uuidv4 req) (set_faults [] w3) _ Hrs3 eq_refl).
    cbn.
    eexists _, _, _. split; [reflexivity|]. split.
    + intros _. split; [reflexivity|]. cbn. split; [|exact Hcs3].
      f_equal. rewrite List.filter_app. cbn. rewrite Hsid, String.eqb_refl. cbn.
      rewrite app_nil_r. apply filter_all.
      intros r Hr. apply negb_true_iff.
      exact (existsb_false_In _ _ r Hfresh Hr).
    + intros Hne. apply String.eqb_eq in Hsameuser. congruence.
  - eexists _, _, _. split; [reflexivity|]. split.
    + intros Heq. apply String.eqb_neq in Hsameuser. congruence.
    + intros _. split; reflexivity.
Qed.

End ReplyAuthorship.

(** Bob replies to the demo comment; Alice may not delete the reply, he
    may. *)
Lemma reply_author_may_delete_witness :
  let req := scenario_req "bob" "c-A" "one more" "r-9" 30 in
  let saved := mkReplyRow "r-9" (JStr "one more") "bob" "c-A" 30 30 in
  exists resp w' l,
    jobController.addReply insertion_sort (H := spec_models) req demo_world
    = (Ok resp, w', l)
    /\ status resp = 201
    /\ replies w' = Some [demo_reply; saved]
    /\ (exists resp2 w'' l2,
          jobController.deleteReply
            (mkReq "job-J" "c-A" "r-9" ∅ "alice" EmptyString 40) (set_faults [] w')
          = (Ok resp2, w'', l2)
          /\ status resp2 = 403 /\ w'' = set_faults [] w')
    /\ (exists resp2 w'' l2,
          jobController.deleteReply
            (mkReq "job-J" "c-A" "r-9" ∅ "bob" EmptyString 40) (set_faults [] w')
          = (Ok resp2, w'', l2)
          /\ status resp2 = 200 /\ replies w'' = Some [demo_reply]).
Proof.
  cbv zeta.
  destruct (reply_author_may_delete insertion_sort (H := spec_models)
              spec_models_read
              (scenario_req "bob" "c-A" "one more" "r-9" 30)
              demo_world demo_world _ (demo_comment, [demo_reply])
              (mkReplyRow "r-9" (JStr "one more") "bob" "c-A" 30 30) _ _
              eq_refl eq_refl eq_refl)
    as (resp & w' & l & Hrun & Hstatus & _ & H500 & Hstored & _ & _ & _ & _ & _
        & Hdelete).
  exists resp, w', l. split; [exact Hrun|]. split.
  { destruct Hstatus as [H201|Hs]; [exact H201|].
    apply H500 in Hs as [e He]. discriminate He. }
  split; [exact Hstored|]. split.
  - destruct (Hdelete (mkReq "job-J" "c-A" "r-9" ∅ "alice" EmptyString 40) eq_refl)
      as (resp2 & w'' & l2 & Hrun2 & _ & Hother).
    exists resp2, w'', l2. split; [exact Hrun2|]. apply Hother. discriminate.
  - destruct (Hdelete (mkReq "job-J" "c-A" "r-9" ∅ "bob" EmptyString 40) eq_refl)
      as (resp2 & w'' & l2 & Hrun2 & Hsame & _).
    exists resp2, w'', l2. split; [exact Hrun2|].
    destruct (Hsame eq_refl) as (H200 & Hrs & _). auto.
Defined.

(** ** Where the "Replies" table comes from *)

(** X18: of the functions of [commentModel], [create], [findByJobId],
    [findById] and [delete] never create the "Replies" table: where it is
    missing, it is still missing after them.  It is [ensureRepliesTable] that
    creates it, on the way of [addReply], [findReplyById] and [deleteReply];
    so a request to delete a reply, on a store that has the "Comments" table
    only, is answered 404 and leaves an empty "Replies" table behind. *)
Theorem replies_table_creation
    (sorter : forall A : Type, (A -> A -> bool) -> list A -> list A)
    (w : World) :
  replies w = None ->
  (forall c, replies (world_after (commentModel.create c w)) = None)
  /\ (forall jobId,
        replies (world_after (commentModel.findByJobId sorter jobId w)) = None)
  /\ (forall commentId,
        replies (world_after (commentModel.findById sorter commentId w)) = None
        /\ replies (world_after (commentModel.delete commentId w)) = None)
  /\ (forall req cs,
        comments w = Some cs -> faults w = [] ->
        jobController.deleteReply req w
        = (Ok (failure 404 "Reply not found"), set_replies (Some []) w,
           [DbQuery (TableExists Replies) false;
            DbQuery (CreateTable Replies) false;
            DbQuery (SelectReply (params_replyId req)) false])).
Proof.
  intros Hrs. unfold world_after. split; [|split; [|split]].
  - intros c. split_world w; try discriminate Hrs; run_model; branches; reflexivity.
  - intros jobId. split_world w; try discriminate Hrs; run_model; reflexivity.
  - intros commentId.
    split; split_world w; try discriminate Hrs; run_model; branches; reflexivity.
  - intros req cs Hcs Hfs. destruct w as [cs0 rs0 js us fs].
    cbn in Hrs, Hcs, Hfs. subst. reflexivity.
Qed.

(** The demo deployment, had its "Replies" table never been created. *)
Lemma replies_table_creation_witness :
  replies (world_after (commentModel.create comment_B (set_replies None demo_world)))
  = None
  /\ replies (world_after (jobController.deleteReply (demo_req "bob" [])
                             (set_replies None demo_world)))
     = Some [].
Proof.
  destruct (replies_table_creation insertion_sort (set_replies None demo_world)
              eq_refl) as (Hcreate & _ & _ & Hdelete).
  split; [apply Hcreate|].
  unfold world_after. now rewrite (Hdelete (demo_req "bob" []) [demo_comment]).
Defined.

(** * The client-side services *)

(** ** Objects *)

Lemma own_property_assign_eq (name : string) (v : JsVal)
    (fields : list (string * JsVal)) :
  jobService.own_property name (assign name v fields) = Some v.
Proof.
  induction fields as [|[k x] rest IH]; simpl.
  - now rewrite String.eqb_refl.
  - destruct (String.eqb k name) eqn:Hk; simpl; now rewrite Hk.
Qed.

Lemma own_property_assign_ne (name k : string) (v : JsVal)
    (fields : list (string * JsVal)) :
  k <> name ->
  jobService.own_property k (assign name v fields)
  = jobService.own_property k fields.
Proof.
  intros Hne. induction fields as [|[k' x] rest IH]; simpl.
  - apply String.eqb_neq in Hne. rewrite String.eqb_sym in Hne. now rewrite Hne.
  - destruct (String.eqb k' name) eqn:Hk; simpl.
    + apply String.eqb_eq in Hk. subst k'.
      assert (Hn : String.eqb name k = false)
        by (apply String.eqb_neq; congruence).
      now rewrite Hn.
    + destruct (String.eqb k' k); [reflexivity | exact IH].
Qed.

Lemma assign_same (name : string) (v : JsVal) (fields : list (string * JsVal)) :
  jobService.own_property name fields = Some v -> assign name v fields = fields.
Proof.
  induction fields as [|[k x] rest IH]; simpl; [discriminate|].
  destruct (String.eqb k name) eqn:Hk.
  - now intros [= ->].
  - intros Hrest. now rewrite IH.
Qed.

Lemma jsOr_truthy (a b : JsVal) : truthy b = true -> truthy (jsOr a b) = true.
Proof. intros Hb. unfold jsOr. now destruct (truthy a) eqn:Ha. Qed.

Lemma jsOr_same (a b : JsVal) : truthy a = true -> jsOr a b = a.
Proof. intros Ha. unfold jsOr. now rewrite Ha. Qed.

Lemma truthy_JStr (s : string) : s <> EmptyString -> truthy (JStr s) = true.
Proof. intros Hs. cbn. apply negb_true_iff. now apply String.eqb_neq. Qed.

(** ** Fetching the jobs *)

Lemma with_dates_dated (env : Client) (i : nat) (job out : JsVal) :
  created_default env i <> EmptyString ->
  updated_default env i <> EmptyString ->
  jobService_jobs.with_dates env i job = Ok out -> dated out = true.
Proof.
  intros Hc Hu. unfold jobService_jobs.with_dates, jobService.res_bind.
  destruct (jobService.member job "createdAt") as [createdAt|e]; [|discriminate].
  destruct (jobService.member job "updatedAt") as [updatedAt|e]; [|discriminate].
  intros [= <-]. unfold dated.
  rewrite own_property_assign_eq.
  rewrite own_property_assign_ne by discriminate.
  rewrite own_property_assign_eq. cbv [default from_option id].
  rewrite !jsOr_truthy; auto using truthy_JStr.
Qed.

Lemma with_dates_same (env : Client) (i : nat) (job : JsVal) :
  dated job = true -> jobService_jobs.with_dates env i job = Ok job.
Proof.
  destruct job as [| | | | | |fields]; try discriminate.
  intros Hd. unfold dated in Hd. apply andb_true_iff in Hd as [Hc Hu].
  destruct (jobService.own_property "createdAt" fields) as [c|] eqn:Ec;
    [|discriminate].
  destruct (jobService.own_property "updatedAt" fields) as [u|] eqn:Eu;
    [|discriminate].
  unfold jobService_jobs.with_dates, jobService.member, jobService.res_bind, spread.
  rewrite Ec, Eu. cbv [default from_option id] in *.
  rewrite (jsOr_same _ _ Hc), (jsOr_same _ _ Hu).
  rewrite (assign_same _ _ _ Ec), (assign_same _ _ _ Eu).
  reflexivity.
Qed.










Lemma opt_member_assign_eq (name : string) (v : JsVal)
    (fields : list (string * JsVal)) :
  jobService.opt_member (JObj (assign name v fields)) name = v.
Proof.
  unfold jobService.opt_member, jobService.member.
  now rewrite own_property_assign_eq.
Qed.

Lemma opt_member_assign_ne (name k : string) (v : JsVal)
    (fields : list (string * JsVal)) :
  k <> name ->
  jobService.opt_member (JObj (assign name v fields)) k
  = jobService.opt_member (JObj fields) k.
Proof.
  intros Hne. unfold jobService.opt_member, jobService.member.
  now rewrite own_property_assign_ne.
Qed.

Lemma with_dates_truthy (env : Client) (i : nat) (job : JsVal) :
  truthy job = true ->
  jobService_jobs.with_dates env i job
  = Ok (JObj (assign "updatedAt"
                (jsOr (jobService.opt_member job "updatedAt")
                      (JStr (updated_default env i)))
                (assign "createdAt"
                   (jsOr (jobService.opt_member job "createdAt")
                         (JStr (created_default env i)))
                   (spread env job)))).
Proof. destruct job; try discriminate; reflexivity. Qed.

(** What the two lookups settle with, case by case. *)
Lemma getJobById_cases (env : Client) (id : string) :
  jobService_jobs.getJobById env id
  = match jobService.localStorage_getItem (browser env) with
    | Thrown _ => (Ok JNull, [])
    | Ok _ =>
        (match axios_get env (jobService_jobs.job_url env id) with
         | jobService.Resolved data =>
             if truthy (jobService.opt_member data "success")
                && truthy (jobService.opt_member data "job")
             then jobService_jobs.with_dates env 0 (jobService.opt_member data "job")
             else Ok JNull
         | jobService.Rejected _ => Ok JNull
         end, [GET (jobService_jobs.job_url env id)])
    end.
Proof.
  unfold jobService_jobs.getJobById, authorized, catching, and_then, request, settled.
  destruct (jobService.localStorage_getItem (browser env)) as [token|e0]; cbn;
    [|reflexivity].
  destruct (axios_get env (jobService_jobs.job_url env id)) as [data|e]; cbn;
    [|reflexivity].
  unfold jobService.opt_member.
  destruct (jobService.member data "success") as [success|e] eqn:Hs; cbn;
    [|reflexivity].
  destruct (truthy success); cbn; [|reflexivity].
  destruct (jobService.member data "job") as [job|e] eqn:Hj; cbn;
    [|destruct data; discriminate].
  destruct (truthy job) eqn:Htj; cbn; [|reflexivity].
  rewrite (with_dates_truthy env 0 job Htj). reflexivity.
Qed.

Lemma getUserById_cases (env : Client) (id : string) :
  userService.getUserById env id
  = match jobService.localStorage_getItem (browser env) with
    | Thrown _ => (Ok JNull, [])
    | Ok _ =>
        (Ok match axios_get env (userService.user_url env id) with
            | jobService.Resolved data =>
                if truthy data && truthy (jobService.opt_member data "user")
                then jobService.opt_member data "user"
                else JNull
            | jobService.Rejected _ => JNull
            end, [GET (userService.user_url env id)])
    end.
Proof.
  unfold userService.getUserById, authorized, catching, and_then, request, settled.
  destruct (jobService.localStorage_getItem (browser env)) as [token|e0]; cbn;
    [|reflexivity].
  destruct (axios_get env (userService.user_url env id)) as [data|e]; cbn;
    [|reflexivity].
  unfold jobService.opt_member.
  destruct (truthy data) eqn:Hd; cbn; [|reflexivity].
  destruct (jobService.member data "user") as [user|e] eqn:Hm; cbn;
    [|destruct data; discriminate].
  now destruct (truthy user).
Qed.

(** X21: the two lookups of the client never reject and do not tell a
    failure from nothing.  [jobService.getJobById] resolves with [null],
    having sent nothing, when the token cannot be read; otherwise it sends
    one GET and resolves with [null] when the request fails and when the
    response has no truthy [success] or no truthy [job], and else with an
    object that has the members of that job, [createdAt] and [updatedAt]
    apart, which are the job's where they are truthy and else the time of
    the call, so that both are truthy where that time is not the empty
    string.  [userService.getUserById] resolves with [null], having sent
    nothing, when the token cannot be read; otherwise it sends one GET and
    resolves with [null] when the request fails and when the response is
    falsy or has no truthy [user], and else with that user. *)
Theorem lookups_resolve_null (env : Client) (id : string) :
  created_default env 0 <> EmptyString ->
  updated_default env 0 <> EmptyString ->
  let sent (rq : Request) : list Request :=
    match jobService.localStorage_getItem (browser env) with
    | Ok _ => [rq]
    | Thrown _ => []
    end in
  (exists job,
      jobService_jobs.getJobById env id
      = (Ok job, sent (GET (jobService_jobs.job_url env id)))
      /\ (forall e,
            jobService.localStorage_getItem (browser env) = Thrown e -> job = JNull)
      /\ (forall e,
            axios_get env (jobService_jobs.job_url env id) = jobService.Rejected e ->
            job = JNull)
      /\ (forall token data,
            jobService.localStorage_getItem (browser env) = Ok token ->
            axios_get env (jobService_jobs.job_url env id) = jobService.Resolved data ->
            let found := jobService.opt_member data "job" in
            (truthy (jobService.opt_member data "success") && truthy found = false ->
             job = JNull)
            /\ (truthy (jobService.opt_member data "success") && truthy found = true ->
                is_object job = true
                /\ dated job = true
                /\ jobService.opt_member job "createdAt"
                   = jsOr (jobService.opt_member found "createdAt")
                          (JStr (created_default env 0))
                /\ jobService.opt_member job "updatedAt"
                   = jsOr (jobService.opt_member found "updatedAt")
                          (JStr (updated_default env 0))
                /\ (forall k, k <> "createdAt" -> k <> "updatedAt" ->
                      jobService.opt_member job k
                      = jobService.opt_member (JObj (spread env found)) k)
                /\ (dated found = true -> job = found))))
  /\ (exists user,
        userService.getUserById env id
        = (Ok user, sent (GET (userService.user_url env id)))
        /\ (forall e,
              jobService.localStorage_getItem (browser env) = Thrown e ->
              user = JNull)
        /\ (forall e,
              axios_get env (userService.user_url env id) = jobService.Rejected e ->
              user = JNull)
        /\ (forall token data,
              jobService.localStorage_getItem (browser env) = Ok token ->
              axios_get env (userService.user_url env id) = jobService.Resolved data ->
              let found := jobService.opt_member data "user" in
              (truthy data && truthy found = false -> user = JNull)
              /\ (truthy data && truthy found = true -> user = found))).
Proof.
  intros Hc Hu. cbv zeta. split.
  - rewrite getJobById_cases.
    destruct (jobService.localStorage_getItem (browser env)) as [token|e0].
    2:{ exists JNull. split; [reflexivity|]. split; [reflexivity|].
        split; [reflexivity|]. intros t d Ht. discriminate Ht. }
    destruct (axios_get env (jobService_jobs.job_url env id)) as [data|e].
    2:{ exists JNull. split; [reflexivity|]. split; [reflexivity|].
        split; [reflexivity|]. intros t d _ Hd. discriminate Hd. }
    destruct (truthy (jobService.opt_member data "success")
              && truthy (jobService.opt_member data "job")) eqn:Hboth.
    + apply andb_true_iff in Hboth as [Hs Hj].
      pose proof (with_dates_truthy env 0 _ Hj) as Hout.
      eexists. split; [rewrite Hout; reflexivity|].
      split; [discriminate|]. split; [discriminate|].
      intros t d _ [= <-]. rewrite Hs, Hj. split; [discriminate|].
      intros _. split; [reflexivity|].
      split; [eapply with_dates_dated; eauto|].
      split; [|split; [|split]].
      * rewrite opt_member_assign_ne by discriminate.
        now rewrite opt_member_assign_eq.
      * now rewrite opt_member_assign_eq.
      * intros k Hk1 Hk2. now rewrite !opt_member_assign_ne.
      * intros Hdated. rewrite (with_dates_same env 0 _ Hdated) in Hout.
        now injection Hout as <-.
    + exists JNull. split; [reflexivity|]. split; [reflexivity|].
      split; [reflexivity|].
      intros t d _ [= <-]. rewrite Hboth. split; [reflexivity | discriminate].
  - rewrite getUserById_cases.
    destruct (jobService.localStorage_getItem (browser env)) as [token|e0].
    2:{ exists JNull. split; [reflexivity|]. split; [reflexivity|].
        split; [reflexivity|]. intros t d Ht. discriminate Ht. }
    destruct (axios_get env (userService.user_url env id)) as [data|e].
    2:{ exists JNull. split; [reflexivity|]. split; [reflexivity|].
        split; [reflexivity|]. intros t d _ Hd. discriminate Hd. }
    eexists. split; [reflexivity|]. split; [discriminate|]. split; [discriminate|].
    intros t d _ [= <-].
    destruct (truthy data && truthy (jobService.opt_member data "user"));
      split; try reflexivity; discriminate.
Qed.

(** The demo browser asks for a job and gets the list instead; a browser
    that is denied its storage sends nothing. *)
Lemma lookups_resolve_null_witness :
  jobService_jobs.getJobById demo_client "job-J"
  = (Ok JNull, [GET (jobService_jobs.job_url demo_client "job-J")])
  /\ userService.getUserById demo_client "alice"
     = (Ok JNull, [GET (userService.user_url demo_client "alice")])
  /\ jobService_jobs.getJobById private_client "job-J" = (Ok JNull, []).
Proof.
  destruct (lookups_resolve_null demo_client "job-J")
    as ((job & Hjob & _ & _ & Hfound) & _); [discriminate | discriminate |].
  destruct (lookups_resolve_null demo_client "alice")
    as (_ & (user & Huser & _ & _ & Hufound)); [discriminate | discriminate |].
  destruct (lookups_resolve_null private_client "job-J")
    as ((none & Hnone & Hdenied & _) & _); [discriminate | discriminate |].
  destruct (Hfound _ _ eq_refl eq_refl) as [Hnull _].
  destruct (Hufound _ _ eq_refl eq_refl) as [Hunull _].
  rewrite Hjob, Huser, Hnone, (Hnull eq_refl), (Hunull eq_refl),
    (Hdenied _ eq_refl).
  repeat split.
Defined.

(** ** Replying from the client *)

(** What [jobService.addReply] settles with and sends, case by case. *)
Lemma addReply_cases (env : Client) (commentId content : string) :
  let url := jobService_jobs.replies_url env commentId in
  let body := JObj [("content", JStr content)] in
  jobService_jobs.addReply env commentId content
  = match jobService.localStorage_getItem (browser env) with
    | Thrown e => (Thrown e, [])
    | Ok token =>
        (match jobService.axios_post (browser env) url body with
         | jobService.Resolved data =>
             if truthy data && truthy (jobService.opt_member data "reply")
             then Ok (jobService.opt_member data "reply")
             else jobService.res_bind (jobService.uuidv4 (browser env))
                    (fun id =>
                       Ok (jobService_jobs.newReply env token id commentId content))
         | jobService.Rejected _ =>
             jobService.res_bind (jobService.uuidv4 (browser env))
               (fun id =>
                  Ok (jobService_jobs.newReply env token id commentId content))
         end, [POST url body])
    end.
Proof.
  cbv zeta.
  unfold jobService_jobs.addReply, jobService_jobs.fabricated, catching, and_then,
    request, settled, jobService.opt_member.
  destruct (jobService.localStorage_getItem (browser env)) as [token|e0]; cbn;
    [|reflexivity].
  destruct (jobService.axios_post (browser env) _ _) as [data|e]; cbn.
  - destruct (truthy data) eqn:Hd; cbn.
    + destruct (jobService.member data "reply") as [r|e] eqn:Hm; cbn.
      * destruct (truthy r); cbn; [reflexivity|].
        now destruct (jobService.uuidv4 (browser env)).
      * destruct data; cbn in Hd, Hm; discriminate.
    + now destruct (jobService.uuidv4 (browser env)).
  - now destruct (jobService.uuidv4 (browser env)).
Qed.

(** X22: [jobService.addReply] rejects only where the browser itself fails.
    When [localStorage.getItem] throws it rejects without sending anything;
    otherwise it sends one POST with the content and resolves with the
    server's reply when the response carries one; whenever the request
    fails or the response carries no reply it resolves with a reply built on
    the client, or rejects if [uuidv4] throws.  The reply built on the
    client is filed under the comment, with the content as [content] and as
    [text], the fresh uuid as id, the current time as [createdAt] and
    [timestamp], and the author read from the token ('unknown' without
    one).  A returned reply therefore does not show that the server stored
    one. *)
Theorem addReply_rejects_only_with_the_browser
    (env : Client) (commentId content : string) :
  let url := jobService_jobs.replies_url env commentId in
  let sent := [POST url (JObj [("content", JStr content)])] in
  let outcome := jobService.axios_post (browser env) url
                   (JObj [("content", JStr content)]) in
  (forall e, jobService.localStorage_getItem (browser env) = Thrown e ->
             jobService_jobs.addReply env commentId content = (Thrown e, []))
  /\ (forall token,
        jobService.localStorage_getItem (browser env) = Ok token ->
        (carries_reply outcome = true ->
         exists data,
           outcome = jobService.Resolved data
           /\ jobService_jobs.addReply env commentId content
              = (Ok (jobService.opt_member data "reply"), sent))
        /\ (carries_reply outcome = false ->
            (forall id, jobService.uuidv4 (browser env) = Ok id ->
               jobService_jobs.addReply env commentId content
               = (Ok (jobService_jobs.newReply env token id commentId content),
                  sent))
            /\ (forall e, jobService.uuidv4 (browser env) = Thrown e ->
                  jobService_jobs.addReply env commentId content
                  = (Thrown e, sent))))
  /\ (forall token id,
        map (fun name =>
               jobService.opt_member
                 (jobService_jobs.newReply env token id commentId content) name)
            ["id"; "commentId"; "content"; "text"; "createdAt"; "timestamp";
             "replies"; "jobId"]
        = [JStr id; JStr commentId; JStr content;
           JStr content; JStr (jobService.now_iso (browser env));
           JNum (jobService.now_ms (browser env)); JUndefined; JUndefined])
  /\ (forall id,
        jobService.opt_member
          (jobService_jobs.newReply env None id commentId content) "userId"
        = JStr "unknown").
Proof.
  cbv zeta. pose proof (addReply_cases env commentId content) as Hcases.
  cbv zeta in Hcases. rewrite Hcases. unfold carries_reply.
  split; [|split; [|split]].
  - intros e ->. reflexivity.
  - intros token ->.
    destruct (jobService.axios_post (browser env) _ _) as [data|e0].
    + destruct (truthy data && truthy (jobService.opt_member data "reply")).
      * split; [eauto | discriminate].
      * split; [discriminate|]. intros _. split.
        -- now intros id ->.
        -- now intros e ->.
    + split; [discriminate|]. intros _. split.
      * now intros id ->.
      * now intros e ->.
  - reflexivity.
  - reflexivity.
Qed.

(** With the storage denied nothing is sent and the call rejects. *)
Example addReply_without_storage :
  jobService_jobs.addReply
    (mkClient (private_browser (jobService.Rejected connection_error))
       (fun _ => jobService.Rejected connection_error)
       (fun _ _ => jobService.Rejected connection_error)
       (fun _ => EmptyString) (fun _ => EmptyString) (fun _ => [])
       (fun _ => EmptyString))
    "c-A" "hello"
  = (Thrown security_error, []).
Proof. reflexivity. Qed.

(** ** Creating a job: the client's check and the server's *)




(** A job with budget 0 passes the client's check. *)
Example createJob_budget_zero :
  let jobData := [("title", JStr "Logo"); ("description", JStr "Design a logo");
                  ("category", JStr "design"); ("budget", JNum 0%float)] in
  incomplete jobData = false
  /\ truthy (jobService_jobs.datum jobData "budget") = false.
Proof. vm_compute. split; reflexivity. Qed.

(** ** The services built on [api] *)

Ltac run_service :=
  unfold rethrowing, catching, and_then, request, settled, member_or, member_if_any,
    jobService.res_bind, jobService.awaited;
  cbn.

(** X24: the services built on [api] report a failed write and hide a failed
    read.  The deletions of services/jobService resolve with [true], and
    those of [commentService] with [undefined], exactly when the request
    resolves, and reject with its error when it rejects; [addComment] and
    [addReply] of [commentService], and [addReply] of services/jobService,
    resolve only with a truthy comment or reply that the response carries,
    and reject otherwise.  The reads never reject: they resolve with a truthy
    value of the response or else with the empty array, or [null] for a
    single job. *)
Theorem api_services_report_writes (api : Api) (id content : string) :
  Forall (fun '(call, url, done) =>
            match api_delete api url with
            | jobService.Resolved _ => call = (Ok done, [DELETE url])
            | jobService.Rejected e => call = (Thrown e, [DELETE url])
            end)
         [ (api_jobService.deleteJob api id, "/jobs/" +:+ id, JBool true);
           (api_jobService.deleteComment api id, "/jobs/comments/" +:+ id, JBool true);
           (api_jobService.deleteReply api id, "/jobs/replies/" +:+ id, JBool true);
           (commentService.deleteComment api id, "/comments/" +:+ id, JUndefined);
           (commentService.deleteReply api id, "/replies/" +:+ id, JUndefined) ]
  /\ Forall (fun '(call, url, name) =>
               let sent := [POST url (JObj [("content", JStr content)])] in
               match api_post api url (JObj [("content", JStr content)]) with
               | jobService.Resolved data =>
                   if truthy data && truthy (jobService.opt_member data name)
                   then call = (Ok (jobService.opt_member data name), sent)
                   else exists e, call = (Thrown e, sent)
               | jobService.Rejected e => call = (Thrown e, sent)
               end)
            [ (commentService.addComment api id content,
               "/jobs/" +:+ id +:+ "/comments", "comment");
              (commentService.addReply api id content,
               "/comments/" +:+ id +:+ "/replies", "reply");
              (api_jobService.addReply api id content,
               "/jobs/comments/" +:+ id +:+ "/replies", "reply") ]
  /\ Forall (fun '(call, url, fallback) =>
               exists v,
                 call = (Ok v, [GET url])
                 /\ (v = fallback \/ truthy v = true)
                 /\ (forall e, api_get api url = jobService.Rejected e -> v = fallback))
            [ (commentService.getCommentsByJobId api id,
               "/jobs/" +:+ id +:+ "/comments", JArr []);
              (api_jobService.getCommentsByJobId api id,
               "/jobs/" +:+ id +:+ "/comments", JArr []);
              (api_jobService.getRepliesByCommentId api id,
               "/jobs/comments/" +:+ id +:+ "/replies", JArr []);
              (api_jobService.getAllJobs api, "/jobs", JArr []);
              (api_jobService.getJobsByUser api id, "/users/" +:+ id +:+ "/jobs",
               JArr []);
              (api_jobService.getJobById api id, "/jobs/" +:+ id, JNull) ].
Proof.
  split; [|split].
  - repeat constructor;
      unfold api_jobService.deleteJob, api_jobService.deleteComment,
        api_jobService.deleteReply, commentService.deleteComment,
        commentService.deleteReply; cbv zeta; run_service;
      destruct (api_delete api _); reflexivity.
  - repeat constructor;
      unfold commentService.addComment, commentService.addReply,
        api_jobService.addReply; cbv zeta; run_service;
      (destruct (api_post api _ _) as [data|e]; [|reflexivity]);
      unfold jobService.opt_member;
      (destruct (truthy data) eqn:Hd; cbn; [|eauto]);
      (destruct (jobService.member data _) as [v|e] eqn:Hm; cbn;
       [|destruct data; cbn in Hd, Hm; discriminate]);
      destruct (truthy v); eauto.
  - repeat constructor;
      unfold commentService.getCommentsByJobId, api_jobService.getCommentsByJobId,
        api_jobService.getRepliesByCommentId, api_jobService.getAllJobs,
        api_jobService.getJobsByUser, api_jobService.getJobById;
      cbv zeta; run_service;
      (destruct (api_get api _) as [data|e];
       [|eexists; split; [reflexivity|]; split; [now left | reflexivity]]);
      try (destruct (truthy data) eqn:Hd; cbn;
           [|eexists; split; [reflexivity|]; split; [now left | discriminate]]);
      (destruct (jobService.member data _) as [v|e] eqn:Hm; cbn;
       [|eexists; split; [reflexivity|]; split; [now left | discriminate]]);
      unfold jsOr; destruct (truthy v) eqn:Hv;
      eexists; (split; [reflexivity|]); (split; [auto | discriminate]).
Qed.

(** ** The lists held by the components *)

Lemma member_item (x : JsVal) (name : string) :
  nullish x = false ->
  jobService.member x name = Ok (jobService.opt_member x name).
Proof.
  unfold jobService.opt_member. destruct x; try discriminate; reflexivity.
Qed.

Lemma filter_res_items (id : string) (xs : list JsVal) :
  items xs -> filter_res (id_differs id) xs = Ok (List.filter (differs id) xs).
Proof.
  induction 1 as [|x xs Hx Hall IH]; simpl; [reflexivity|].
  unfold id_differs at 1. rewrite (member_item x "id" Hx). cbn.
  rewrite IH. reflexivity.
Qed.

Lemma map_from_Ok (f : nat -> JsVal -> Res JsVal) (g : JsVal -> JsVal)
    (xs : list JsVal) :
  (forall i x, In x xs -> f i x = Ok (g x)) ->
  forall i, map_from f i xs = Ok (map g xs).
Proof.
  induction xs as [|x xs IH]; intros Hf i; simpl; [reflexivity|].
  rewrite (Hf i x) by now left. cbn.
  rewrite IH by (intros j y Hy; apply Hf; now right). reflexivity.
Qed.

Lemma others_items (id : string) (xs : list JsVal) :
  items xs -> others id (JArr xs) = Ok (JArr (List.filter (differs id) xs)).
Proof. intros Hxs. unfold others. now rewrite (filter_res_items id xs Hxs). Qed.

Lemma items_filter (f : JsVal -> bool) (xs : list JsVal) :
  items xs -> items (List.filter f xs).
Proof.
  unfold items. rewrite !Forall_forall. intros Hxs x Hx.
  apply Hxs. rewrite list_elem_of_In in *. now apply filter_In in Hx as [Hx _].
Qed.

Lemma refreshComments_fetches (api : Api) (jobId : string) :
  jobId <> EmptyString ->
  JobDetail.refreshComments api (Some jobId)
  = (Some (fetched api jobId), [GET ("/jobs/" +:+ jobId +:+ "/comments")]).
Proof.
  intros Hid. unfold JobDetail.refreshComments, fetched.
  assert (Ht : truthy (JStr jobId) = true).
  { cbn. apply negb_true_iff. now apply String.eqb_neq. }
  rewrite Ht. cbn [negb].
  unfold commentService.getCommentsByJobId. cbv zeta. run_service.
  destruct (api_get api _) as [data|e]; cbn; [|reflexivity].
  unfold jobService.opt_member.
  destruct (truthy data) eqn:Hd; cbn; [|reflexivity].
  destruct (jobService.member data "comments") as [v|e] eqn:Hm; cbn.
  - destruct (truthy v) eqn:Hv; cbn; [|reflexivity].
    unfold jsOr. now rewrite Hv.
  - destruct data; cbn in Hd, Hm; discriminate.
Qed.

Lemma handleDeleteComment_cases (api : Api) (onRefresh : option Refresh)
    (me comment_id : string) (comments : list JsVal) :
  items comments ->
  CommentItem.handleDeleteComment api onRefresh (Some me) comment_id me
    (JArr comments)
  = match api_delete api ("/comments/" +:+ comment_id) with
    | jobService.Resolved _ =>
        match onRefresh with
        | None =>
            (Ok (JArr (List.filter (differs comment_id) comments)),
             [DELETE ("/comments/" +:+ comment_id)])
        | Some (None, l) =>
            (Ok (JArr (List.filter (differs comment_id) comments)),
             DELETE ("/comments/" +:+ comment_id) :: l)
        | Some (Some parents, l) =>
            (Ok parents, DELETE ("/comments/" +:+ comment_id) :: l)
        end
    | jobService.Rejected _ =>
        (Ok (JArr comments), [DELETE ("/comments/" +:+ comment_id)])
    end.
Proof.
  intros Hitems. unfold CommentItem.handleDeleteComment.
  rewrite String.eqb_refl. cbn [negb].
  unfold commentService.deleteComment, CommentsList.handleCommentDelete,
    CommentsList.then_refresh, CommentsList.without.
  cbv zeta. run_service.
  destruct (api_delete api _); [|reflexivity].
  rewrite (filter_res_items comment_id comments Hitems). cbn.
  destruct onRefresh as [[[parents|] l]|]; reflexivity.
Qed.

(** X25: in a list of comments, a click on "delete" sends a request only
    when the user signed in is the author of the comment.  If nobody is
    signed in or the author is someone else nothing is sent and the list
    stays as it is; if the request rejects, the list stays as it is and
    nothing else is sent.  When the request resolved, the comments of that
    id leave the list, the others staying in their order, and [onRefresh],
    where the list was given one, is called: the list ends as the one the
    parent then passes, if any.  On the page of a job, whose [onRefresh] is
    [refreshComments], a resolved deletion is thus followed by one GET of
    the comments of the job, and the list ends as what that fetched: the
    comments of the response, or the empty list when the response has none
    or the request fails. *)
Theorem comment_leaves_list_when_deleted (api : Api) (onRefresh : option Refresh)
    (currentUser : option string) (comment_id comment_userId : string)
    (comments : list JsVal) :
  items comments ->
  let url := "/comments/" +:+ comment_id in
  let handled onRefresh :=
    CommentItem.handleDeleteComment api onRefresh currentUser comment_id
      comment_userId (JArr comments) in
  let remaining := JArr (List.filter (differs comment_id) comments) in
  (currentUser <> Some comment_userId ->
   handled onRefresh = (Ok (JArr comments), []))
  /\ (currentUser = Some comment_userId ->
      match api_delete api url with
      | jobService.Resolved _ =>
          handled onRefresh
          = match onRefresh with
            | None => (Ok remaining, [DELETE url])
            | Some (None, l) => (Ok remaining, DELETE url :: l)
            | Some (Some parents, l) => (Ok parents, DELETE url :: l)
            end
          /\ forall jobId,
               jobId <> EmptyString ->
               handled (Some (JobDetail.refreshComments api (Some jobId)))
               = (Ok (fetched api jobId),
                  [DELETE url; GET ("/jobs/" +:+ jobId +:+ "/comments")])
      | jobService.Rejected _ =>
          handled onRefresh = (Ok (JArr comments), [DELETE url])
      end)
  /\ items (List.filter (differs comment_id) comments).
Proof.
  intros Hitems. cbv zeta.
  split; [|split].
  - intros Hother. unfold CommentItem.handleDeleteComment.
    destruct currentUser as [me|]; [|reflexivity].
    destruct (String.eqb_spec me comment_userId) as [->|Hne]; [congruence|].
    reflexivity.
  - intros ->. fold (CommentItem.handleDeleteComment api).
    pose proof (fun r => handleDeleteComment_cases api r comment_userId comment_id
                           comments Hitems) as Hcases.
    destruct (api_delete api _) eqn:Hdel.
    + split; [exact (Hcases onRefresh)|].
      intros jobId Hid. rewrite Hcases.
      now rewrite (refreshComments_fetches api jobId Hid).
    + exact (Hcases onRefresh).
  - now apply items_filter.
Qed.

(** Alice deletes her first comment, in a list without [onRefresh] and on
    the page of the job; Bob's click on it does nothing. *)
Lemma comment_leaves_list_when_deleted_witness :
  CommentItem.handleDeleteComment listing_api None (Some "alice") "c-A" "alice"
    (JArr demo_comments)
  = (Ok (JArr (List.filter (differs "c-A") demo_comments)), [DELETE "/comments/c-A"])
  /\ CommentItem.handleDeleteComment listing_api
       (Some (JobDetail.refreshComments listing_api (Some "job-J")))
       (Some "alice") "c-A" "alice" (JArr demo_comments)
     = (Ok (JArr [JObj [("id", JStr "c-B")]]),
        [DELETE "/comments/c-A"; GET "/jobs/job-J/comments"])
  /\ CommentItem.handleDeleteComment listing_api None (Some "bob") "c-A" "alice"
       (JArr demo_comments)
     = (Ok (JArr demo_comments), []).
Proof.
  assert (Hitems : items demo_comments) by (repeat constructor).
  split; [|split].
  - exact (proj1 (proj1 (proj2 (comment_leaves_list_when_deleted listing_api None
                                  (Some "alice") "c-A" "alice" demo_comments Hitems))
                        eq_refl)).
  - apply (proj2 (proj1 (proj2 (comment_leaves_list_when_deleted listing_api None
                                  (Some "alice") "c-A" "alice" demo_comments Hitems))
                        eq_refl)).
    discriminate.
  - apply (proj1 (comment_leaves_list_when_deleted listing_api None
                    (Some "bob") "c-A" "alice" demo_comments Hitems)).
    discriminate.
Defined.

(** ** The job context *)

Lemma deleteComment_total (env : jobService.Browser) (commentId : string) :
  exists v, jobService.deleteComment env commentId = Ok v.
Proof.
  unfold jobService.deleteComment, jobService.res_catch, jobService.res_bind,
    jobService.awaited.
  destruct (jobService.localStorage_getItem env); [|eauto].
  destruct (jobService.axios_delete env _) as [data|e]; [|eauto].
  destruct (jobService.member data "success"); eauto.
Qed.

Lemma map_res_Forall2 (f : JsVal -> Res JsVal) (R : JsVal -> JsVal -> Prop)
    (xs : list JsVal) :
  Forall (fun x => exists y, f x = Ok y /\ R x y) xs ->
  exists ys, map_res f xs = Ok ys /\ Forall2 R xs ys.
Proof.
  unfold map_res. generalize 0%nat.
  intros i Hall. revert i. induction Hall as [|x xs (y & Hy & HR) Hall IH];
    intros i; simpl.
  - exists []. split; [reflexivity | constructor].
  - destruct (IH (S i)) as (ys & Hys & HRs). rewrite Hy. cbn. rewrite Hys. cbn.
    exists (y :: ys). split; [reflexivity | now constructor].
Qed.

Lemma filter_map_ids (id : string) (xs : list JsVal) :
  map (fun x => jobService.opt_member x "id") (List.filter (differs id) xs)
  = List.filter (fun v => negb (is_string v id))
                (map (fun x => jobService.opt_member x "id") xs).
Proof.
  induction xs as [|x xs IH]; simpl; [reflexivity|].
  unfold differs at 1. destruct (negb _); simpl; now rewrite IH.
Qed.

Lemma without_comment_held (env : Client) (commentId : string) (job : JsVal) :
  held_job job ->
  exists job',
    JobContext.without_comment env commentId job = Ok job'
    /\ held_job job'
    /\ ids_in "comments" job'
       = List.filter (fun v => negb (is_string v commentId)) (ids_in "comments" job)
    /\ same_but "comments" job job'.
Proof.
  intros [Hobj Hheld]. destruct job as [| | | | | |fields]; try discriminate.
  unfold held_job, holds_items, ids_in, same_but in *.
  unfold JobContext.without_comment.
  rewrite (member_item (JObj fields) "comments" eq_refl). cbn [jobService.res_bind].
  destruct (jobService.opt_member (JObj fields) "comments") as [| | | | |cs|]
    eqn:Hcs; try contradiction.
  - eexists. split; [reflexivity|]. cbn [spread].
    rewrite opt_member_assign_eq. repeat split.
    intros k Hk. now apply opt_member_assign_ne.
  - eexists. split; [reflexivity|]. cbn [spread].
    rewrite opt_member_assign_eq. repeat split.
    intros k Hk. now apply opt_member_assign_ne.
  - rewrite (others_items commentId cs Hheld). cbn [jobService.res_bind spread].
    eexists. split; [reflexivity|].
    rewrite opt_member_assign_eq. repeat split.
    + now apply items_filter.
    + apply filter_map_ids.
    + intros k Hk. now apply opt_member_assign_ne.
Qed.

(** X26: in the job context a deleted comment always leaves the list, since
    [jobService.deleteComment] never rejects: whatever the server answers,
    and also when the request fails, every job of the list [jobs] is replaced
    by an object with the same members, except that its comments are the
    previous ones without those of that id, in their order.  The lists
    [userJobs] and [filteredJobs] are left as they are. *)
Theorem deleteComment_always_leaves_context (env : Client) (commentId : string)
    (s : JobContext.State) :
  Forall held_job (JobContext.st_jobs s) ->
  exists js,
    JobContext.deleteComment env commentId s
    = Ok (JobContext.mkState js (JobContext.st_userJobs s)
                             (JobContext.st_filteredJobs s))
    /\ Forall2 (fun job job' =>
                  held_job job'
                  /\ ids_in "comments" job'
                     = List.filter (fun v => negb (is_string v commentId))
                                   (ids_in "comments" job)
                  /\ same_but "comments" job job')
               (JobContext.st_jobs s) js.
Proof.
  intros Hheld. unfold JobContext.deleteComment.
  destruct (deleteComment_total (browser env) commentId) as [v ->].
  destruct (map_res_Forall2 (JobContext.without_comment env commentId)
              (fun job job' =>
                 held_job job'
                 /\ ids_in "comments" job'
                    = List.filter (fun v => negb (is_string v commentId))
                                  (ids_in "comments" job)
                 /\ same_but "comments" job job')
              (JobContext.st_jobs s)) as (js & Hjs & Hrel).
  { eapply Forall_impl; [exact Hheld|]. intros job Hjob. cbn.
    now apply without_comment_held. }
  exists js. rewrite Hjs. split; [reflexivity | exact Hrel].
Qed.

(** With the network down, comment c-A leaves the second demo job. *)
Lemma deleteComment_always_leaves_context_witness :
  exists js,
    JobContext.deleteComment
      (mkClient offline_browser (fun _ => jobService.Rejected connection_error)
                (fun _ _ => jobService.Rejected connection_error)
                (fun _ => EmptyString) (fun _ => EmptyString) (fun _ => [])
                (fun _ => EmptyString))
      "c-A" (JobContext.mkState demo_jobs [] demo_jobs)
    = Ok (JobContext.mkState js [] demo_jobs)
    /\ map (ids_in "comments") js = [[]; [JStr "c-B"]; []].
Proof.
  destruct (deleteComment_always_leaves_context
              (mkClient offline_browser
                 (fun _ => jobService.Rejected connection_error)
                 (fun _ _ => jobService.Rejected connection_error)
                 (fun _ => EmptyString) (fun _ => EmptyString) (fun _ => [])
                 (fun _ => EmptyString))
              "c-A" (JobContext.mkState demo_jobs [] demo_jobs))
    as (js & Hrun & Hrel).
  - repeat constructor.
  - exists js. split; [exact Hrun|].
    cbn in Hrel.
    inversion Hrel as [|? ? ? ? (_ & H1 & _) Hrel1]; subst.
    inversion Hrel1 as [|? ? ? ? (_ & H2 & _) Hrel2]; subst.
    inversion Hrel2 as [|? ? ? ? (_ & H3 & _) Hrel3]; subst.
    inversion Hrel3; subst. cbn. now rewrite H1, H2, H3.
Defined.

Lemma truthy_not_nullish (v : JsVal) : truthy v = true -> nullish v = false.
Proof. destruct v; try discriminate; reflexivity. Qed.

Lemma addComment_item (env : jobService.Browser) (jobId content : string)
    (v : JsVal) :
  jobService.addComment env jobId content = Ok v -> nullish v = false.
Proof.
  rewrite addComment_cases.
  destruct (jobService.localStorage_getItem env) as [token|e0]; [|discriminate].
  assert (Hbuilt : jobService.res_bind (jobService.uuidv4 env)
                     (fun id => Ok (jobService.newComment env token id jobId content))
                   = Ok v -> nullish v = false).
  { destruct (jobService.uuidv4 env); [|discriminate]. now intros [= <-]. }
  destruct (jobService.axios_post env _ _) as [data|e]; [|exact Hbuilt].
  destruct (truthy data && truthy (jobService.opt_member data "comment")) eqn:Hc;
    [|exact Hbuilt].
  apply andb_true_iff in Hc as [_ Hc]. intros [= <-].
  now apply truthy_not_nullish.
Qed.

Lemma items_snoc (xs : list JsVal) (x : JsVal) :
  items xs -> nullish x = false -> items (xs ++ [x]).
Proof.
  intros Hxs Hx. apply Forall_app. split; [exact Hxs|]. now constructor.
Qed.

Lemma with_comment_held (env : Client) (jobId : string) (comment job : JsVal) :
  nullish comment = false -> held_job job ->
  exists job',
    JobContext.with_comment env jobId comment job = Ok job'
    /\ held_job job'
    /\ if is_string (jobService.opt_member job "id") jobId
       then ids_in "comments" job'
            = ids_in "comments" job ++ [jobService.opt_member comment "id"]
            /\ same_but "comments" job job'
       else job' = job.
Proof.
  intros Hc [Hobj Hheld]. destruct job as [| | | | | |fields]; try discriminate.
  unfold JobContext.with_comment, id_is.
  rewrite (member_item (JObj fields) "id" eq_refl). cbn [jobService.res_bind].
  destruct (is_string (jobService.opt_member (JObj fields) "id") jobId).
  2:{ exists (JObj fields). repeat split; assumption. }
  rewrite (member_item (JObj fields) "comments" eq_refl). cbn [jobService.res_bind].
  unfold held_job, holds_items, ids_in, same_but, appended, jsOr in *.
  destruct (jobService.opt_member (JObj fields) "comments") as [| | | | |cs|]
    eqn:Hcs; try contradiction; cbn [truthy jobService.res_bind spread];
    eexists; (split; [reflexivity|]); rewrite opt_member_assign_eq;
    repeat split;
    try (intros k Hk; now apply opt_member_assign_ne);
    try (apply (items_snoc []); [constructor | assumption]);
    try (now apply items_snoc).
  now rewrite map_app.
Qed.

(** X27: in the job context a comment that was sent shows whenever
    [jobService.addComment] resolves, be it with the server's comment or
    with the one built on the client after a failure: with a user signed in,
    that comment is returned and comes last among the comments of every job
    of that id, whose other members stay as they are, while the other jobs
    are untouched.  [jobService.addComment] does resolve unless the browser
    fails it (the token cannot be read, or no uuid drawn); when it rejects,
    [undefined] is returned and the state is left as it is, as it is with
    nobody signed in. *)
Theorem addComment_shows_in_context (env : Client) (jobId text : string)
    (s : JobContext.State) :
  Forall held_job (JobContext.st_jobs s) ->
  JobContext.addComment env None jobId text s = (JUndefined, Ok s)
  /\ (forall user,
        match jobService.addComment (browser env) jobId text with
        | Ok comment =>
            exists js,
              JobContext.addComment env (Some user) jobId text s
              = (comment,
                 Ok (JobContext.mkState js (JobContext.st_userJobs s)
                                        (JobContext.st_filteredJobs s)))
              /\ Forall2 (fun job job' =>
                            held_job job'
                            /\ if is_string (jobService.opt_member job "id") jobId
                               then ids_in "comments" job'
                                    = ids_in "comments" job
                                      ++ [jobService.opt_member comment "id"]
                                    /\ same_but "comments" job job'
                               else job' = job)
                         (JobContext.st_jobs s) js
        | Thrown _ =>
            JobContext.addComment env (Some user) jobId text s = (JUndefined, Ok s)
        end)
  /\ (forall token id,
        jobService.localStorage_getItem (browser env) = Ok token ->
        jobService.uuidv4 (browser env) = Ok id ->
        exists comment, jobService.addComment (browser env) jobId text = Ok comment).
Proof.
  intros Hheld. split; [reflexivity|]. split.
  - intros user. unfold JobContext.addComment.
    destruct (jobService.addComment (browser env) jobId text) as [comment|e] eqn:Hrun;
      [|reflexivity].
    pose proof (addComment_item _ _ _ _ Hrun) as Hitem.
    destruct (map_res_Forall2 (JobContext.with_comment env jobId comment)
                (fun job job' =>
                   held_job job'
                   /\ if is_string (jobService.opt_member job "id") jobId
                      then ids_in "comments" job'
                           = ids_in "comments" job
                             ++ [jobService.opt_member comment "id"]
                           /\ same_but "comments" job job'
                      else job' = job)
                (JobContext.st_jobs s)) as (js & Hjs & Hrel).
    { eapply Forall_impl; [exact Hheld|]. intros job Hjob. cbn.
      now apply with_comment_held. }
    exists js. rewrite Hjs. split; [reflexivity | exact Hrel].
  - intros token id Htoken Hid. rewrite addComment_cases, Htoken, Hid. cbn.
    destruct (jobService.axios_post (browser env) _ _) as [data|e]; [|eauto].
    destruct (truthy data && truthy (jobService.opt_member data "comment")); eauto.
Qed.

(** With the network down, a comment on the second demo job shows there. *)
Lemma addComment_shows_in_context_witness :
  let env := mkClient offline_browser (fun _ => jobService.Rejected connection_error)
               (fun _ _ => jobService.Rejected connection_error)
               (fun _ => EmptyString) (fun _ => EmptyString) (fun _ => [])
               (fun _ => EmptyString) in
  exists comment js,
    JobContext.addComment env (Some (JStr "alice")) "job-K" "Hello"
      (JobContext.mkState demo_jobs [] [])
    = (comment, Ok (JobContext.mkState js [] []))
    /\ map (ids_in "comments") js = [[]; [JStr "c-A"; JStr "c-B"; JStr "9f1c"]; []].
Proof.
  cbv zeta.
  destruct (addComment_shows_in_context
              (mkClient offline_browser
                 (fun _ => jobService.Rejected connection_error)
                 (fun _ _ => jobService.Rejected connection_error)
                 (fun _ => EmptyString) (fun _ => EmptyString) (fun _ => [])
                 (fun _ => EmptyString))
              "job-K" "Hello" (JobContext.mkState demo_jobs [] []))
    as (_ & Hsigned & _).
  - repeat constructor.
  - specialize (Hsigned (JStr "alice")). cbn in Hsigned.
    destruct Hsigned as (js & Hrun & Hrel).
    eexists _, js. split; [exact Hrun|].
    unfold demo_jobs in Hrel.
    apply Forall2_cons_inv_l in Hrel as (j1 & js1 & (_ & H1) & Hrel & ->).
    apply Forall2_cons_inv_l in Hrel as (j2 & js2 & (_ & H2) & Hrel & ->).
    apply Forall2_cons_inv_l in Hrel as (j3 & js3 & (_ & H3) & Hrel & ->).
    apply Forall2_nil_inv_l in Hrel as ->.
    cbn in H1, H2, H3. destruct H2 as [H2 _]. subst. cbn. now rewrite H2.
Defined.

Lemma map_res_items (f : JsVal -> Res JsVal) (g : JsVal -> JsVal) (xs : list JsVal) :
  (forall x, nullish x = false -> f x = Ok (g x)) ->
  items xs -> map_res f xs = Ok (map g xs).
Proof.
  intros Hf Hxs. unfold map_res. apply map_from_Ok.
  intros i x Hx. apply Hf. unfold items in Hxs. rewrite Forall_forall in Hxs.
  apply Hxs. now apply list_elem_of_In.
Qed.

Lemma replaced_item (jobId : string) (updatedJob job : JsVal) :
  nullish job = false ->
  JobContext.replaced jobId updatedJob job = Ok (swap jobId updatedJob job).
Proof.
  intros Hjob. unfold JobContext.replaced, id_is, swap.
  now rewrite (member_item job "id" Hjob).
Qed.

Lemma items_swap (jobId : string) (updatedJob : JsVal) (xs : list JsVal) :
  nullish updatedJob = false -> items xs -> items (map (swap jobId updatedJob) xs).
Proof.
  intros Hu Hxs. unfold items in *. induction Hxs as [|x xs Hx Hxs IH]; simpl;
    constructor; [|exact IH].
  unfold swap. now destruct (is_string _ _).
Qed.

(** X28: a deletion or an update of a job reaches the lists of the context
    only when the server confirmed it.  [deleteJob] never rejects: with an
    empty id, or when the token cannot be read, it sends nothing and returns
    [false]; otherwise it sends one DELETE and returns the [success] of the
    response, or [false] when the request fails or the response has no data;
    the three lists lose the jobs of that id, and nothing else, exactly when
    the value returned is truthy.  [updateJob] likewise sends nothing for an
    empty id or without the token, else one PUT, and returns the [job] of a
    response whose [success] is truthy and [null] in every other case; when
    the value returned is truthy it takes the place of every job of that id
    in the three lists, whose lengths and order are kept, and otherwise the
    lists stay as they are. *)
Theorem context_follows_confirmed_changes (env : Client) (jobId : string)
    (jobData : list (string * JsVal)) (s : JobContext.State) :
  all_items s ->
  let url := jobService_jobs.job_url env jobId in
  let token := jobService.localStorage_getItem (browser env) in
  let sent (rq : Request) : list Request :=
    if String.eqb jobId EmptyString then []
    else match token with Ok _ => [rq] | Thrown _ => [] end in
  let deleted :=
    if String.eqb jobId EmptyString then JBool false
    else match token, jobService.axios_delete (browser env) url with
         | Ok _, jobService.Resolved data =>
             if nullish data then JBool false
             else jobService.opt_member data "success"
         | _, _ => JBool false
         end in
  let updated :=
    if String.eqb jobId EmptyString then JNull
    else match token, axios_put env url (JObj jobData) with
         | Ok _, jobService.Resolved data =>
             if truthy (jobService.opt_member data "success")
             then jobService.opt_member data "job"
             else JNull
         | _, _ => JNull
         end in
  JobContext.deleteJob env jobId s
  = ((Ok deleted, sent (DELETE url)),
     Ok (if truthy deleted then on_lists (List.filter (differs jobId)) s else s))
  /\ all_items (on_lists (List.filter (differs jobId)) s)
  /\ JobContext.updateJob env jobId jobData s
     = ((Ok updated, sent (PUT url (JObj jobData))),
        Ok (if truthy updated then on_lists (map (swap jobId updated)) s else s))
  /\ (truthy updated = true -> all_items (on_lists (map (swap jobId updated)) s)).
Proof.
  intros (Hjobs & Huser & Hfiltered). cbv zeta.
  assert (Hfilter : JobContext.without_job jobId s
                    = Ok (on_lists (List.filter (differs jobId)) s)).
  { unfold JobContext.without_job.
    rewrite !filter_res_items by assumption. reflexivity. }
  assert (Hmap : forall v, truthy v = true ->
             JobContext.with_job jobId v s = Ok (on_lists (map (swap jobId v)) s)).
  { intros v Hv. apply truthy_not_nullish in Hv. unfold JobContext.with_job.
    rewrite !(map_res_items _ (swap jobId v))
      by (assumption || (intros x Hx; now apply replaced_item)).
    reflexivity. }
  assert (Hitems : forall v, truthy v = true ->
             all_items (on_lists (map (swap jobId v)) s)).
  { intros v Hv. apply truthy_not_nullish in Hv.
    repeat split; now apply items_swap. }
  split; [|split; [repeat split; now apply items_filter | split]].
  - unfold JobContext.deleteJob, jobService_jobs.deleteJob, authorized.
    destruct (String.eqb_spec jobId EmptyString) as [->|Hid]; [reflexivity|].
    assert (Htruthy : truthy (JStr jobId) = true) by now apply truthy_JStr.
    rewrite Htruthy. cbn [negb]. run_service.
    destruct (jobService.localStorage_getItem (browser env)) as [tok|e0]; cbn;
      [|reflexivity].
    destruct (jobService.axios_delete (browser env) _) as [data|e]; cbn;
      [|reflexivity].
    unfold jobService.opt_member.
    destruct data; cbn; try reflexivity;
      match goal with
      | |- context [truthy ?v] => destruct (truthy v)
      end; now rewrite ?Hfilter.
  - unfold JobContext.updateJob, jobService_jobs.updateJob, authorized.
    destruct (String.eqb_spec jobId EmptyString) as [->|Hid]; [reflexivity|].
    assert (Htruthy : truthy (JStr jobId) = true) by now apply truthy_JStr.
    rewrite Htruthy. cbn [negb]. run_service.
    destruct (jobService.localStorage_getItem (browser env)) as [tok|e0]; cbn;
      [|reflexivity].
    destruct (axios_put env _ _) as [data|e]; cbn; [|reflexivity].
    unfold jobService.opt_member.
    destruct (jobService.member data "success") as [success|e] eqn:Hs; cbn;
      [|reflexivity].
    destruct (truthy success); [|reflexivity].
    destruct (jobService.member data "job") as [job|e] eqn:Hj; cbn.
    + destruct (truthy job) eqn:Htj; [now rewrite (Hmap job Htj) | reflexivity].
    + destruct data; cbn in Hs, Hj; discriminate.
  - apply Hitems.
Qed.

(** The second demo job is deleted, then renamed, with the server's consent;
    where the storage is denied nothing is sent and the lists stay. *)
Lemma context_follows_confirmed_changes_witness :
  let s := JobContext.mkState demo_jobs demo_jobs [] in
  JobContext.deleteJob obliging_client "job-K" s
  = ((Ok (JBool true), [DELETE "http://localhost:5000/api/jobs/job-K"]),
     Ok (on_lists (List.filter (differs "job-K")) s))
  /\ fst (JobContext.updateJob obliging_client "job-K" [("title", JStr "Renamed")] s)
     = (Ok (JObj [("id", JStr "job-K"); ("title", JStr "Renamed")]),
        [PUT "http://localhost:5000/api/jobs/job-K"
             (JObj [("title", JStr "Renamed")])])
  /\ JobContext.deleteJob private_client "job-K" s = ((Ok (JBool false), []), Ok s).
Proof.
  cbv zeta.
  destruct (context_follows_confirmed_changes obliging_client "job-K"
              [("title", JStr "Renamed")]
              (JobContext.mkState demo_jobs demo_jobs []))
    as (Hdelete & _ & Hupdate & _).
  - repeat constructor.
  - destruct (context_follows_confirmed_changes private_client "job-K" []
                (JobContext.mkState demo_jobs demo_jobs []))
      as (Hdenied & _).
    + repeat constructor.
    + split; [exact Hdelete|]. split; [now rewrite Hupdate | exact Hdenied].
Defined.

(** ** The page of a job *)

Lemma with_reply_held (env : Client) (commentId : string) (reply comment : JsVal) :
  nullish reply = false -> held_comment comment ->
  exists comment',
    with_reply env commentId reply comment = Ok comment'
    /\ held_comment comment'
    /\ if is_string (jobService.opt_member comment "id") commentId
       then ids_in "replies" comment'
            = ids_in "replies" comment ++ [jobService.opt_member reply "id"]
            /\ same_but "replies" comment comment'
       else comment' = comment.
Proof.
  intros Hr [Hobj Hheld]. destruct comment as [| | | | | |fields]; try discriminate.
  unfold with_reply, id_is.
  rewrite (member_item (JObj fields) "id" eq_refl). cbn [jobService.res_bind].
  destruct (is_string (jobService.opt_member (JObj fields) "id") commentId).
  2:{ exists (JObj fields). repeat split; assumption. }
  rewrite (member_item (JObj fields) "replies" eq_refl). cbn [jobService.res_bind].
  unfold held_comment, holds_items, ids_in, same_but, appended, jsOr in *.
  destruct (jobService.opt_member (JObj fields) "replies") as [| | | | |rs|]
    eqn:Hrs; try contradiction; cbn [truthy jobService.res_bind spread];
    eexists; (split; [reflexivity|]); rewrite opt_member_assign_eq;
    repeat split;
    try (intros k Hk; now apply opt_member_assign_ne);
    try (apply (items_snoc []); [constructor | assumption]);
    try (now apply items_snoc).
  now rewrite map_app.
Qed.

(** What the submission of a reply leaves in the list and sends, when the
    text is not blank and a user is signed in. *)
Lemma handleSubmitReply_cases (env : Client) (api : Api) (onRefresh : option Refresh)
    (trim : string -> string) (me id text : string) (comments : list JsVal) :
  trim text <> EmptyString ->
  Forall held_comment comments ->
  let url := "/comments/" +:+ id +:+ "/replies" in
  let sent := JObj [("content", JStr text)] in
  exists comments',
    CommentItem.handleSubmitReply env api onRefresh trim (Some me) id text
      (JArr comments)
    = (if carries_reply (api_post api url sent)
       then match onRefresh with
            | None => (Ok (JArr comments'), [POST url sent])
            | Some (None, l) => (Ok (JArr comments'), POST url sent :: l)
            | Some (Some parents, l) => (Ok parents, POST url sent :: l)
            end
       else (Ok (JArr comments), [POST url sent]))
    /\ forall data,
         api_post api url sent = jobService.Resolved data ->
         carries_reply (api_post api url sent) = true ->
         Forall2 (fun comment comment' =>
                    held_comment comment'
                    /\ if is_string (jobService.opt_member comment "id") id
                       then ids_in "replies" comment'
                            = ids_in "replies" comment
                              ++ [jobService.opt_member
                                    (jobService.opt_member data "reply") "id"]
                            /\ same_but "replies" comment comment'
                       else comment' = comment)
                 comments comments'.
Proof.
  intros Htext Hheld. cbv zeta.
  assert (Htruthy : truthy (JStr (trim text)) = true) by now apply truthy_JStr.
  unfold CommentItem.handleSubmitReply. rewrite Htruthy. cbn [negb].
  unfold commentService.addReply, carries_reply. cbv zeta.
  run_service. unfold jobService.opt_member.
  destruct (api_post api _ _) as [data|e].
  2:{ exists comments. split; [reflexivity|]. intros d Hd. discriminate Hd. }
  destruct (truthy data) eqn:Hd; cbn.
  2:{ exists comments. split; [reflexivity|].
      intros d _ Hcarries. discriminate Hcarries. }
  destruct (jobService.member data "reply") as [r|e] eqn:Hm; cbn;
    [|destruct data; cbn in Hd, Hm; discriminate].
  destruct (truthy r) eqn:Hr; cbn.
  2:{ exists comments. split; [reflexivity|].
      intros d _ Hcarries. discriminate Hcarries. }
  destruct (map_res_Forall2 (with_reply env id r)
              (fun comment comment' =>
                 held_comment comment'
                 /\ if is_string (jobService.opt_member comment "id") id
                    then ids_in "replies" comment'
                         = ids_in "replies" comment
                           ++ [jobService.opt_member r "id"]
                         /\ same_but "replies" comment comment'
                    else comment' = comment)
              comments) as (comments' & Hrun & Hrel).
  { eapply Forall_impl; [exact Hheld|]. intros c Hc. cbn.
    apply with_reply_held; [now apply truthy_not_nullish | exact Hc]. }
  exists comments'.
  unfold CommentsList.handleReplyAdded, CommentsList.then_refresh,
    CommentsList.with_new_reply.
  rewrite Hrun. cbn. split.
  - destruct onRefresh as [[[parents|] l]|]; reflexivity.
  - intros d [= <-] _. rewrite Hm. exact Hrel.
Qed.

(** X29: on the page of a job, a comment or a reply that was sent shows only
    if the server returned it.  With a blank text, or nobody signed in,
    nothing is sent and the list stays as it is.  Otherwise one POST is
    sent, and when it fails or its response carries no comment, or no
    reply, the list stays as it is and nothing else is sent.  A comment that
    the response carries comes first in the list of the page, before the
    previous ones.  A reply that the response carries comes last among the
    replies of every comment of the list with that id, whose other members
    stay as they are, while the other comments are untouched; then
    [onRefresh], where the list was given one, is called, and the list ends
    as the one the parent then passes, if any: on the page, whose
    [onRefresh] is [refreshComments], one GET of the comments of the job
    follows, and the list ends as what that fetched, the comments of its
    response or the empty list. *)
Theorem page_shows_what_the_server_returned (env : Client) (api : Api)
    (onRefresh : option Refresh) (trim : string -> string)
    (currentUser job : option string) (id text : string) (comments : list JsVal) :
  Forall held_comment comments ->
  let sent := JObj [("content", JStr text)] in
  let replied onRefresh :=
    CommentItem.handleSubmitReply env api onRefresh trim currentUser id text
      (JArr comments) in
  (trim text = EmptyString \/ currentUser = None ->
   JobDetail.handleSubmitComment env api trim currentUser job text (JArr comments)
   = (Ok (JArr comments), [])
   /\ replied onRefresh = (Ok (JArr comments), []))
  /\ (trim text <> EmptyString -> currentUser <> None ->
      (job = Some id ->
       let url := "/jobs/" +:+ id +:+ "/comments" in
       JobDetail.handleSubmitComment env api trim currentUser job text (JArr comments)
       = (Ok (JArr (if carries_comment (api_post api url sent)
                    then match api_post api url sent with
                         | jobService.Resolved data =>
                             jobService.opt_member data "comment" :: comments
                         | jobService.Rejected _ => comments
                         end
                    else comments)),
          [POST url sent]))
      /\ let url := "/comments/" +:+ id +:+ "/replies" in
         (carries_reply (api_post api url sent) = false ->
          replied onRefresh = (Ok (JArr comments), [POST url sent]))
         /\ forall data,
              api_post api url sent = jobService.Resolved data ->
              carries_reply (api_post api url sent) = true ->
              (exists comments',
                 replied onRefresh
                 = match onRefresh with
                   | None => (Ok (JArr comments'), [POST url sent])
                   | Some (None, l) => (Ok (JArr comments'), POST url sent :: l)
                   | Some (Some parents, l) => (Ok parents, POST url sent :: l)
                   end
                 /\ Forall2 (fun comment comment' =>
                               held_comment comment'
                               /\ if is_string (jobService.opt_member comment "id") id
                                  then ids_in "replies" comment'
                                       = ids_in "replies" comment
                                         ++ [jobService.opt_member
                                               (jobService.opt_member data "reply")
                                               "id"]
                                       /\ same_but "replies" comment comment'
                                  else comment' = comment)
                            comments comments')
              /\ forall jobId,
                   jobId <> EmptyString ->
                   replied (Some (JobDetail.refreshComments api (Some jobId)))
                   = (Ok (fetched api jobId),
                      [POST url sent; GET ("/jobs/" +:+ jobId +:+ "/comments")])).
Proof.
  intros Hheld. cbv zeta. split.
  - intros Hidle.
    unfold JobDetail.handleSubmitComment, CommentItem.handleSubmitReply.
    destruct Hidle as [Hblank|Hnobody].
    + rewrite Hblank. split; reflexivity.
    + rewrite Hnobody. destruct (negb (truthy (JStr (trim text)))); split; reflexivity.
  - intros Htext Huser.
    assert (Htruthy : truthy (JStr (trim text)) = true) by now apply truthy_JStr.
    destruct currentUser as [me|]; [|congruence].
    split.
    + unfold JobDetail.handleSubmitComment. rewrite Htruthy. cbn [negb].
      intros ->. unfold commentService.addComment, carries_comment. cbv zeta.
      run_service. unfold jobService.opt_member.
      destruct (api_post api _ _) as [data|e]; [|reflexivity].
      destruct (truthy data) eqn:Hd; cbn; [|reflexivity].
      destruct (jobService.member data "comment") as [c|e] eqn:Hm; cbn;
        [|destruct data; cbn in Hd, Hm; discriminate].
      destruct (truthy c) eqn:Hc; cbn; [|reflexivity].
      rewrite Hc. unfold JobDetail.prepended, jsOr. reflexivity.
    + pose proof (fun r => handleSubmitReply_cases env api r trim me id text
                             comments Htext Hheld) as Hcases.
      cbv zeta in Hcases. split.
      * intros Hnone. destruct (Hcases onRefresh) as (comments' & Hrun & _).
        now rewrite Hrun, Hnone.
      * intros data Hdata Hcarries. split.
        -- destruct (Hcases onRefresh) as (comments' & Hrun & Hrel).
           exists comments'. split; [now rewrite Hrun, Hcarries|].
           now apply Hrel.
        -- intros jobId Hid.
           destruct (Hcases (Some (JobDetail.refreshComments api (Some jobId))))
             as (comments' & Hrun & _).
           rewrite Hrun, Hcarries.
           now rewrite (refreshComments_fetches api jobId Hid).
Qed.

(** A comment is posted from the page of the demo job, and shows first; a
    reply is posted there, and the list is fetched again. *)
Lemma page_shows_what_the_server_returned_witness :
  JobDetail.handleSubmitComment demo_client replying_api (fun s => s)
    (Some "alice") (Some "job-J") "Hello" (JArr demo_comments)
  = (Ok (JArr (JObj [("id", JStr "c-N")] :: demo_comments)),
     [POST "/jobs/job-J/comments" (JObj [("content", JStr "Hello")])])
  /\ CommentItem.handleSubmitReply demo_client replying_api
       (Some (JobDetail.refreshComments replying_api (Some "job-J")))
       (fun s => s) (Some "alice") "job-J" "Hello" (JArr demo_comments)
     = (Ok (JArr []),
        [POST "/comments/job-J/replies" (JObj [("content", JStr "Hello")]);
         GET "/jobs/job-J/comments"]).
Proof.
  assert (Hheld : Forall held_comment demo_comments).
  { repeat constructor. }
  destruct (page_shows_what_the_server_returned demo_client replying_api None
              (fun s => s) (Some "alice") (Some "job-J") "job-J" "Hello"
              demo_comments Hheld) as (_ & Hsent).
  destruct Hsent as (Hcomment & _ & Hreply); [discriminate | discriminate |].
  split; [exact (Hcomment eq_refl)|].
  destruct (Hreply _ eq_refl eq_refl) as (_ & Hpage).
  apply Hpage. discriminate.
Defined.

(** ** The routes *)

Lemma serves_inv (m : jobRoutes.Method) (path : list string) (r : jobRoutes.Route) :
  jobRoutes.serves m path r = true ->
  jobRoutes.method r = m
  /\ exists bound, jobRoutes.matches (jobRoutes.pattern r) path = Some bound.
Proof.
  unfold jobRoutes.serves. intros Hs. apply andb_true_iff in Hs as [Hm Hp].
  split.
  - destruct (jobRoutes.method r), m; try discriminate; reflexivity.
  - apply bool_decide_eq_true in Hp. exact Hp.
Qed.

Lemma matches_length (pattern : list jobRoutes.Piece) :
  forall path bound,
    jobRoutes.matches pattern path = Some bound -> length pattern = length path.
Proof.
  induction pattern as [|piece pattern IH]; intros [|segment path] bound; simpl;
    try discriminate; [reflexivity| |].
  - destruct piece; discriminate.
  - destruct piece as [s|name].
    + destruct (jobRoutes.same s segment); [|discriminate].
      intros Hm. f_equal. eapply IH; eauto.
    + destruct (jobRoutes.matches pattern path) as [b|] eqn:Hm; [|discriminate].
      intros _. f_equal. eapply IH; eauto.
Qed.

Lemma comments_or_replies (segment : string) :
  jobRoutes.same "comments" segment = true ->
  jobRoutes.same "replies" segment = true -> False.
Proof.
  unfold jobRoutes.same. intros Hc Hr.
  apply String.eqb_eq in Hc, Hr. rewrite <- Hr in Hc. vm_compute in Hc.
  discriminate.
Qed.

(** X30: the router of the jobs is unambiguous, and names one handler that
    the controller does not have.  Whatever the method and the path, at most
    one route matches, so the order of the routes does not matter: a path of
    one segment goes to the handlers of a job (also when the segment reads
    "comments"), [DELETE /comments/:commentId] and [DELETE /replies/:replyId]
    to the deletion of a comment and of a reply.  Every member of
    [jobController] is the handler of exactly one route; but the route
    [GET /comments/:commentId/replies] names [getRepliesByCommentId], which
    is not a member, so that registering the routes throws where Express
    refuses a handler that is not a function. *)
Theorem routes_unambiguous_one_handler_missing :
  (forall m path r1 r2,
      In r1 jobRoutes.routes -> In r2 jobRoutes.routes ->
      jobRoutes.serves m path r1 = true -> jobRoutes.serves m path r2 = true ->
      r1 = r2)
  /\ (forall a b,
        map (fun '(m, path) => jobRoutes.handler <$> jobRoutes.dispatch m path)
            [ (jobRoutes.post, []); (jobRoutes.get, []);
              (jobRoutes.get, [a]); (jobRoutes.put, [a]); (jobRoutes.delete, [a]);
              (jobRoutes.post, [a; "comments"]); (jobRoutes.get, [a; "comments"]);
              (jobRoutes.delete, ["comments"; b]);
              (jobRoutes.post, ["comments"; b; "replies"]);
              (jobRoutes.get, ["comments"; b; "replies"]);
              (jobRoutes.delete, ["replies"; b]) ]
        = map (fun r => Some (jobRoutes.handler r)) jobRoutes.routes)
  /\ (forall name,
        In name jobRoutes.jobController_members ->
        length (List.filter (fun r => String.eqb (jobRoutes.handler r) name)
                            jobRoutes.routes) = 1%nat)
  /\ ~ In "getRepliesByCommentId" jobRoutes.jobController_members
  /\ (forall refused,
        jobRoutes.register refused jobRoutes.jobController_members
                           jobRoutes.routes
        = Thrown (refused jobRoutes.get))
  /\ (forall refused,
        jobRoutes.register refused
          ("getRepliesByCommentId" :: jobRoutes.jobController_members)
          jobRoutes.routes
        = Ok jobRoutes.routes).
Proof.
  split; [|split; [|split; [|split; [|split]]]].
  - intros m path r1 r2 H1 H2 S1 S2.
    apply serves_inv in S1 as (M1 & b1 & P1), S2 as (M2 & b2 & P2).
    pose proof (matches_length _ _ _ P1) as L1.
    pose proof (matches_length _ _ _ P2) as L2.
    unfold jobRoutes.routes in H1, H2. cbn in H1, H2.
    repeat (destruct H1 as [<-|H1]; [|]); try destruct H1;
      repeat (destruct H2 as [<-|H2]; [|]); try destruct H2;
      try reflexivity; cbn in M1, M2, L1, L2; try congruence;
      destruct path as [|a [|b [|c path]]]; try discriminate;
      cbn [jobRoutes.matches jobRoutes.pattern] in P1, P2;
      destruct (jobRoutes.same "comments" a) eqn:Hc;
      destruct (jobRoutes.same "replies" a) eqn:Hr;
      try discriminate; destruct (comments_or_replies a Hc Hr).
  - intros a b. cbv -[jobRoutes.same].
    destruct (jobRoutes.same "comments" b); vm_compute; reflexivity.
  - intros name Hname. unfold jobRoutes.jobController_members in Hname.
    cbn in Hname.
    repeat (destruct Hname as [<-|Hname]; [reflexivity|]). destruct Hname.
  - unfold jobRoutes.jobController_members. cbn.
    intros H. repeat (destruct H as [H|H]; [discriminate H|]). exact H.
  - reflexivity.
  - reflexivity.
Qed.
